(** * sebastes: Redfish scanner, model parser and file processor

    A shallow embedding of the three core parts of the program:
    - [sebastes/scanner/scanner.py]: [RedfishData], [Scanner];
    - [sebastes/parser/parser.py]: [CustomDataModel], [Parser];
    - [sebastes/processor/processor.py]: [FileProcessor].

    Conventions.
    - Python [str] is [string]; [lower] and [upper] act on the ASCII
      letters (Redfish URIs, type names and field names are ASCII).
    - A parsed JSON document is a [json] tree; a [JDict] lists the items of
      the [dict] in iteration order, its keys being pairwise distinct as in
      every Python [dict]; numbers are kept by their exact value.
    - A Python exception is a value of [exn]; code that may raise returns a
      sum, and code that also changes attributes of its object returns the
      new object together with the outcome.
    - The target of a scan is a function from URLs to answers: a scan
      fetches no URL twice.  The generator of the [random] module is a
      state that the scan threads through its calls.
    - The interpreter's recursion limit is not part of the model: the call
      stack is unbounded, and a recursion that needs more depth than any
      number is one that does not end. *)

From Stdlib Require Import List String Ascii Bool Arith ZArith QArith Lia.
From Stdlib Require Import Permutation Sorted.
Import ListNotations.

Local Close Scope Q_scope.
Local Open Scope string_scope.
Local Open Scope list_scope.
Local Open Scope nat_scope.

Set Implicit Arguments.
Set Warnings "-register-all".

(** ** Strings, as Python handles them *)

Module PyStr.

Definition is_upper (c : ascii) : bool :=
  let n := nat_of_ascii c in (65 <=? n)%nat && (n <=? 90)%nat.

Definition is_lower (c : ascii) : bool :=
  let n := nat_of_ascii c in (97 <=? n)%nat && (n <=? 122)%nat.

Definition is_digit (c : ascii) : bool :=
  let n := nat_of_ascii c in (48 <=? n)%nat && (n <=? 57)%nat.

Definition lower_char (c : ascii) : ascii :=
  if is_upper c then ascii_of_nat (nat_of_ascii c + 32) else c.

Definition upper_char (c : ascii) : ascii :=
  if is_lower c then ascii_of_nat (nat_of_ascii c - 32) else c.

(** [s.lower()] *)
Fixpoint lower (s : string) : string :=
  match s with
  | EmptyString => EmptyString
  | String c t => String (lower_char c) (lower t)
  end.

(** [needle in hay] *)
Fixpoint contains (needle hay : string) : bool :=
  prefix needle hay ||
  match hay with
  | EmptyString => false
  | String _ t => contains needle t
  end.

(** [s.replace(old, new)] for a non-empty [old]: the occurrences of [old]
    are replaced from left to right, without overlap.  [skip] counts the
    characters of an occurrence that are still to be dropped. *)
Fixpoint replace_from (old new : string) (skip : nat) (s : string) : string :=
  match s with
  | EmptyString => EmptyString
  | String c t =>
      match skip with
      | S k => replace_from old new k t
      | O =>
          if prefix old s
          then new ++ replace_from old new (String.length old - 1) t
          else String c (replace_from old new 0 t)
      end
  end.

Definition replace (old new s : string) : string := replace_from old new 0 s.

(** [s.split(sep)] for a one-character separator; [cur] is the piece
    being read. *)
Fixpoint split_from (sep : ascii) (cur s : string) : list string :=
  match s with
  | EmptyString => [cur]
  | String c t =>
      if Ascii.eqb c sep then cur :: split_from sep EmptyString t
      else split_from sep (cur ++ String c EmptyString) t
  end.

Definition split (sep : ascii) (s : string) : list string :=
  split_from sep EmptyString s.

(** The characters of a string, each a string of length one (what
    iterating over a [str] yields). *)
Fixpoint chars (s : string) : list string :=
  match s with
  | EmptyString => []
  | String c t => String c EmptyString :: chars t
  end.

(** [sep.join(parts)] *)
Fixpoint join (sep : string) (parts : list string) : string :=
  match parts with
  | [] => EmptyString
  | [p] => p
  | p :: ps => p ++ sep ++ join sep ps
  end.

End PyStr.

(** ** Parsed JSON *)

Inductive json : Type :=
| JNull
| JBool (b : bool)
| JNum (q : Q)
| JStr (s : string)
| JList (l : list json)
| JDict (d : list (string * json)).

Module Json.

(** [d.get(key, None)]: the value bound to [key], if any. *)
Fixpoint lookup (key : string) (d : list (string * json)) : option json :=
  match d with
  | [] => None
  | (k, v) :: rest => if String.eqb k key then Some v else lookup key rest
  end.

Definition bool_value (b : bool) : Q := if b then 1%Q else 0%Q.

(** [a == b] on parsed JSON: [bool] is a kind of [int] ([True == 1]),
    numbers compare by value, lists element by element, dicts as maps. *)
Fixpoint py_eq (a b : json) {struct a} : bool :=
  match a, b with
  | JNull, JNull => true
  | JBool x, JBool y => Bool.eqb x y
  | JBool x, JNum y => Qeq_bool (bool_value x) y
  | JNum x, JBool y => Qeq_bool x (bool_value y)
  | JNum x, JNum y => Qeq_bool x y
  | JStr x, JStr y => String.eqb x y
  | JList xs, JList ys =>
      (fix all2 (l1 l2 : list json) {struct l1} : bool :=
         match l1, l2 with
         | [], [] => true
         | x :: l1', y :: l2' => py_eq x y && all2 l1' l2'
         | _, _ => false
         end) xs ys
  | JDict xs, JDict ys =>
      (List.length xs =? List.length ys)%nat &&
      (fix all1 (l1 : list (string * json)) {struct l1} : bool :=
         match l1 with
         | [] => true
         | (k, v) :: l1' =>
             match lookup k ys with
             | Some w => py_eq v w
             | None => false
             end && all1 l1'
         end) xs
  | _, _ => false
  end.

(** [x in l] for a list [l]. *)
Definition py_in (x : json) (l : list json) : bool :=
  existsb (fun y => py_eq x y) l.

(** [x in l] for a list [l] of strings: a value that is not a [str]
    equals none of them. *)
Definition in_strs (x : json) (l : list string) : bool :=
  match x with
  | JStr s => existsb (String.eqb s) l
  | _ => false
  end.

End Json.

(** ** Exceptions *)

Inductive exn : Type :=
| AttributeError
| TypeError
| ValueError
| IndexError
| TransportError (content : string).

(** ** The scanner: [sebastes/scanner/scanner.py] *)

Module scanner.

Import PyStr Json.

Inductive RedfishCategory : Type :=
| RESOURCE
| COLLECTION
| ELEMENT
| UNKNOWN.

Definition RedfishCategory_eqb (a b : RedfishCategory) : bool :=
  match a, b with
  | RESOURCE, RESOURCE | COLLECTION, COLLECTION
  | ELEMENT, ELEMENT | UNKNOWN, UNKNOWN => true
  | _, _ => false
  end.

(** [RedfishCategory.value] *)
Definition RedfishCategory_value (c : RedfishCategory) : string :=
  match c with
  | RESOURCE => "Resource"
  | COLLECTION => "Collection"
  | ELEMENT => "Element"
  | UNKNOWN => "???"
  end.

(** [Problem]: the description is [str(error)], kept as the error. *)
Record Problem : Type := mkProblem {
  url : string;
  description : exn
}.

(** [RedfishData(name, data, uri, parent)] *)
Inductive RedfishData : Type := mkRedfishData {
  name : string;
  data : json;
  uri : string;
  parent : option RedfishData
}.

(** [RedfishData.category] *)
Fixpoint category (self : RedfishData) : RedfishCategory :=
  match self with
  | mkRedfishData _name _ _ _parent =>
      if contains "collection" (lower _name) then COLLECTION
      else
        match _parent with
        | Some p =>
            if RedfishCategory_eqb (category p) COLLECTION
               && contains _name (name p)
            then ELEMENT
            else RESOURCE
        | None => RESOURCE
        end
  end.

(** [RedfishData.full_name] *)
Definition full_name (self : RedfishData) : string :=
  match parent self with
  | Some p => name p ++ name self
  | None => name self
  end.

(** [RedfishData.__eq__], between two [RedfishData]. *)
Definition __eq__ (self other : RedfishData) : bool :=
  String.eqb (full_name other) (full_name self).

(** [model in models]: some element equals [model]. *)
Definition model_in (model : RedfishData) (models : list RedfishData) : bool :=
  existsb (fun other => __eq__ model other) models.

(** What is kept of the [RedfishData] built one after the other when each
    goes through [if model not in kept: kept.append(model)]. *)
Definition keep_first (built : list RedfishData) : list RedfishData :=
  fold_left (fun kept model =>
               if model_in model kept then kept else kept ++ [model])
    built [].

(** [Scanner._get_model_name] *)
Definition _get_model_name (data : json) : exn + option string :=
  match data with
  | JDict d =>
      match lookup "@odata.type" d with
      | None | Some JNull => inr None
      | Some (JStr odata_type) =>
          let value := last (split "." odata_type) EmptyString in
          let value := replace "collection" "Collection" value in
          let value := replace "entry" "Entry" value in
          match value with
          | EmptyString => inl IndexError
          | String c rest => inr (Some (String (upper_char c) rest))
          end
      | Some _ => inl AttributeError
      end
  | _ => inl AttributeError
  end.

(** Whether the data of a node has the identity field and the type field. *)
Definition has_identity_and_type (data_ : json) : bool :=
  match data_ with
  | JDict d =>
      match lookup "@odata.id" d, lookup "@odata.type" d with
      | Some _, Some _ => true
      | _, _ => false
      end
  | _ => false
  end.

Section Scanner.

(** The state of the [random] module's generator, and the positions
    [random.sample] draws from a population of [n] elements when asked
    for [k] of them. *)
Variable RNG : Type.
Variable sample_positions : RNG -> nat -> nat -> list nat * RNG.

(** [Scanner._max_models], [Scanner._max_collection] *)
Variable _max_models : Z.
Variable _max_collection : Z.

(** [Scanner._get_json]: the answer of the target to a GET of an URL,
    an error when the request fails or the response is not OK. *)
Variable _get_json : string -> exn + json.

(** Computations that use the generator and may raise. *)
Definition M (A : Type) : Type := RNG -> (exn + A) * RNG.

Definition ret {A} (a : A) : M A := fun g => (inr a, g).

Definition raise {A} (e : exn) : M A := fun g => (inl e, g).

Definition bind {A B} (m : M A) (k : A -> M B) : M B :=
  fun g =>
    match m g with
    | (inl e, g') => (inl e, g')
    | (inr a, g') => k a g'
    end.

(** The elements of [population] at [positions]. *)
Definition select {A} (population : list A) (positions : list nat) : list A :=
  flat_map (fun i => match nth_error population i with
                     | Some x => [x]
                     | None => []
                     end) positions.

(** [random.sample(population, k)]; [is_sequence] tells whether the
    population is a sequence (a list or a str) rather than a dict. *)
Definition random_sample {A} (is_sequence : bool) (population : list A) (k : Z)
  : M (list A) :=
  fun g =>
    if negb is_sequence then (inl TypeError, g)
    else if (k <? 0)%Z || (Z.of_nat (List.length population) <? k)%Z
    then (inl ValueError, g)
    else
      let (positions, g') :=
        sample_positions g (List.length population) (Z.to_nat k) in
      (inr (select population positions), g').

(** What [random.sample] promises of the positions it draws: as many as
    asked for, all different (drawn without replacement), all within the
    population. *)
Definition draws_without_replacement : Prop :=
  forall g n k, k <= n ->
    let positions := fst (sample_positions g n k) in
    List.length positions = k /\ NoDup positions /\
    Forall (fun i => i < n) positions.

(** [for _entry in entries: result += self._get_uris(_entry)], on the
    calls [self._get_uris(_entry)] of the entries. *)
Fixpoint extend_all (calls : list (M (list json))) (result : list json)
  : M (list json) :=
  match calls with
  | [] => ret result
  | call :: rest => bind call (fun uris => extend_all rest (result ++ uris))
  end.

(** What [len(members)] and iterating over [members] give: whether
    [members] is a sequence, and the call [self._get_uris(_entry)] of
    each entry.  A list yields its elements; a str yields its characters
    and a dict its keys, all of them strs, on which [_get_uris] raises
    [AttributeError] at [data.items()]; anything else has no [len]. *)
Definition entry_calls (_get_uris : json -> M (list json)) (members : json)
  : exn + bool * list (M (list json)) :=
  match members with
  | JList l => inr (true, map _get_uris l)
  | JStr s => inr (true, map (fun _ => raise AttributeError) (chars s))
  | JDict d => inr (false, map (fun _ => raise AttributeError) d)
  | _ => inl TypeError
  end.

(** The branch [if key == 'Members'] of [Scanner._get_uris]. *)
Definition extend_with_members (_get_uris : json -> M (list json))
  (members : json) (result : list json) : M (list json) :=
  match entry_calls _get_uris members with
  | inl e => raise e
  | inr (is_sequence, calls) =>
      if (_max_collection <? Z.of_nat (List.length calls))%Z
      then bind (random_sample is_sequence calls _max_collection)
             (fun sampled => extend_all sampled result)
      else extend_all calls result
  end.

(** The loop [for key, value in data.items()] of [Scanner._get_uris];
    [data['Members']] is the [value] of the key ['Members']. *)
Fixpoint visit_items (_get_uris : json -> M (list json))
  (items : list (string * json)) (result : list json) : M (list json) :=
  match items with
  | [] => ret result
  | (key, value) :: rest =>
      let result :=
        if String.eqb key "@odata.id" && negb (py_in value result)
        then result ++ [value] else result in
      bind (if String.eqb key "Members"
            then extend_with_members _get_uris value result
            else ret result)
        (fun result =>
           bind (match value with
                 | JDict _ => bind (_get_uris value)
                                (fun uris => ret (result ++ uris))
                 | _ => ret result
                 end)
             (fun result => visit_items _get_uris rest result))
  end.

(** [Scanner._get_uris] *)
Fixpoint _get_uris (data : json) : M (list json) :=
  match data with
  | JDict items => visit_items _get_uris items []
  | _ => raise AttributeError
  end.

(** The attributes of a [Scanner] that a scan changes.  [random_state] is
    the state of the generator of the [random] module.  [constructed] is
    not an attribute of the class: it records, in order, every
    [RedfishData] that [scan_models] has built, kept or not. *)
Record Scanner : Type := mkScanner {
  _redfish : list RedfishData;
  _scanned_uris : list string;
  _problems : list Problem;
  random_state : RNG;
  constructed : list RedfishData
}.

(** [Scanner(...)]: nothing found, nothing scanned. *)
Definition new_Scanner (g : RNG) : Scanner :=
  mkScanner [] [] [] g [].

(** How a call ends: it returns, or an exception leaves it. *)
Inductive outcome : Type :=
| Returned
| Raised (e : exn).

(** [self._scanned_uris.append(entry_point)] *)
Definition mark_scanned (entry_point : string) (self : Scanner) : Scanner :=
  mkScanner (_redfish self) (_scanned_uris self ++ [entry_point])
    (_problems self) (random_state self) (constructed self).

(** [model = RedfishData(...)] followed by
    [if model not in self._redfish: self._redfish.append(model)] *)
Definition register (model : RedfishData) (self : Scanner) : Scanner :=
  mkScanner
    (if model_in model (_redfish self) then _redfish self
     else _redfish self ++ [model])
    (_scanned_uris self) (_problems self) (random_state self)
    (constructed self ++ [model]).

(** [self._problems.append(Problem(url=entry_point, description=str(error)))] *)
Definition add_problem (entry_point : string) (error : exn) (self : Scanner)
  : Scanner :=
  mkScanner (_redfish self) (_scanned_uris self)
    (_problems self ++ [mkProblem entry_point error])
    (random_state self) (constructed self).

Definition set_random_state (g : RNG) (self : Scanner) : Scanner :=
  mkScanner (_redfish self) (_scanned_uris self) (_problems self) g
    (constructed self).

(** [(parent is None or parent.name != name) and name is not None] *)
Definition registrable (parent : option RedfishData) (name_ : option string)
  : option string :=
  match name_ with
  | None => None
  | Some n =>
      match parent with
      | None => Some n
      | Some p => if String.eqb (name p) n then None else Some n
      end
  end.

(** The loop [for uri in ...: if uri not in self._scanned_uris:
    self.scan_models(entry_point=uri, parent=model)]; [call] is the
    recursive call, whose result is [None] when it does not end. *)
Fixpoint scan_uris (call : Scanner -> json -> option (Scanner * outcome))
  (self : Scanner) (uris : list json) : option (Scanner * outcome) :=
  match uris with
  | [] => Some (self, Returned)
  | uri :: rest =>
      if in_strs uri (_scanned_uris self) then scan_uris call self rest
      else
        match call self uri with
        | None => None
        | Some (self', Returned) => scan_uris call self' rest
        | Some (self', Raised e) => Some (self', Raised e)
        end
  end.

(** The body of the [try] of [scan_models], the entry point being marked
    as scanned. *)
Definition scan_body
  (call : option RedfishData -> Scanner -> json -> option (Scanner * outcome))
  (self : Scanner) (entry_point : string) (parent : option RedfishData)
  : option (Scanner * outcome) :=
  match _get_json entry_point with
  | inl e => Some (self, Raised e)
  | inr data_ =>
      match _get_model_name data_ with
      | inl e => Some (self, Raised e)
      | inr name_ =>
          let model :=
            match registrable parent name_ with
            | Some n => Some (mkRedfishData n data_ entry_point parent)
            | None => None
            end in
          let self :=
            match model with
            | Some m => register m self
            | None => self
            end in
          match _get_uris data_ (random_state self) with
          | (inl e, g) => Some (set_random_state g self, Raised e)
          | (inr uris, g) =>
              scan_uris (call model) (set_random_state g self) uris
          end
      end
  end.

(** [except Exception as error: self._problems.append(...)] *)
Definition except_Exception (entry_point : string)
  (r : option (Scanner * outcome)) : option (Scanner * outcome) :=
  match r with
  | None => None
  | Some (self, Returned) => Some (self, Returned)
  | Some (self, Raised e) => Some (add_problem entry_point e self, Returned)
  end.

(** [Scanner.scan_models].  [fuel] bounds the depth of the recursion:
    the result is [None] when the depth [fuel] does not suffice.  An entry
    point that is not a [str] has no [lower]: the call raises
    [AttributeError] before the [try]. *)
Fixpoint scan_models (fuel : nat) (self : Scanner) (entry_point : json)
  (parent : option RedfishData) {struct fuel} : option (Scanner * outcome) :=
  match fuel with
  | O => None
  | S fuel' =>
      if (Z.of_nat (List.length (_redfish self)) <? _max_models)%Z then
        if negb (in_strs entry_point (_scanned_uris self)) then
          match entry_point with
          | JStr ep =>
              if negb (contains "jsonschemas" (lower ep)) then
                except_Exception ep
                  (scan_body
                     (fun model self' uri => scan_models fuel' self' uri model)
                     (mark_scanned ep self) ep parent)
              else Some (self, Returned)
          | _ => Some (self, Raised AttributeError)
          end
        else Some (self, Returned)
      else Some (self, Returned)
  end.

(** A scan ends when some depth suffices. *)
Definition scan_ends (self : Scanner) (entry_point : json)
  (parent : option RedfishData) (self' : Scanner) (o : outcome) : Prop :=
  exists fuel, scan_models fuel self entry_point parent = Some (self', o).

(** [extends s s']: [s'] is [s] with new URIs scanned, each once, with
    at most one problem for each of them, one for sure where the GET
    fails, and with nodes found at these new URIs only. *)
Inductive extends (s s' : Scanner) : Prop :=
| Extends (uris : list string) (problems : list Problem)
    (nodes : list RedfishData) :
    _scanned_uris s' = _scanned_uris s ++ uris ->
    _problems s' = _problems s ++ problems ->
    _redfish s' = _redfish s ++ nodes ->
    NoDup uris ->
    (forall u, In u uris -> ~ In u (_scanned_uris s)) ->
    NoDup (map url problems) ->
    incl (map url problems) uris ->
    (forall u e, In u uris -> _get_json u = inl e ->
                 In (mkProblem u e) problems) ->
    Forall (fun n => In (uri n) uris) nodes ->
    extends s s'.

(** Whether [u] is still to scan. *)
Definition unscanned (s : Scanner) (u : string) : bool :=
  negb (existsb (String.eqb u) (_scanned_uris s)).

(** The URLs of the universe still to scan. *)
Definition remaining (universe : list string) (s : Scanner) : nat :=
  List.length (filter (unscanned s) universe).

End Scanner.

End scanner.

(** ** The parser: [sebastes/parser/parser.py] *)

Module parser.

Import PyStr.

Inductive DataModelCategory : Type :=
| ACTION
| LINK
| RESOURCE
| COLLECTION
| UNKNOWN.

Definition DataModelCategory_eqb (a b : DataModelCategory) : bool :=
  match a, b with
  | ACTION, ACTION | LINK, LINK | RESOURCE, RESOURCE
  | COLLECTION, COLLECTION | UNKNOWN, UNKNOWN => true
  | _, _ => false
  end.

(** [DataModelCategory.value] *)
Definition DataModelCategory_value (c : DataModelCategory) : string :=
  match c with
  | ACTION => "Action"
  | LINK => "Link"
  | RESOURCE => "Resource"
  | COLLECTION => "Collection"
  | UNKNOWN => "???"
  end.

(** The dict [category_fields], its items in the order of the source. *)
Definition category_fields : list (DataModelCategory * list string) :=
  [(LINK, ["odata_id"]);
   (ACTION, ["target"]);
   (RESOURCE, ["odata_id"; "odata_type"]);
   (COLLECTION, ["odata_id"; "odata_type"; "members_odata_count"; "members"])].

(** The dict [optional_fields]. *)
Definition optional_fields : list (DataModelCategory * list string) :=
  [(LINK, []);
   (ACTION, ["redfish_action_info"]);
   (RESOURCE, ["id"; "odata_context"; "description"; "name"]);
   (COLLECTION, ["id"; "odata_context"; "description"; "name";
                 "members_odata_next_link"])].

(** [table.get(category)] *)
Fixpoint get (table : list (DataModelCategory * list string))
  (category : DataModelCategory) : option (list string) :=
  match table with
  | [] => None
  | (c, names) :: rest =>
      if DataModelCategory_eqb c category then Some names else get rest category
  end.

(** [Import(from_, import_, alias)] of the code generator. *)
Record Import : Type := mkImport {
  from_ : string;
  import_ : string;
  alias : option string
}.

(** [DataType] of the code generator, with the attributes that the parser
    sets, the reference of a type that names a model, and the types it is
    made of.  The reference is held by the name of the model: in the code
    generator the type and the model share one [Reference] object, so that
    a new name given to the reference of the model is the name that the
    type bears too ([rename_references] below). *)
Inductive DataType : Type := mkDataType {
  type_ : option string;
  reference : option string;
  data_types : list DataType;
  type_import : option Import;
  is_optional : bool;
  is_dict : bool;
  is_list : bool;
  is_func : bool;
  is_custom_type : bool;
  strict : bool
}.

(** [DataType(type=t)] *)
Definition DataType_of_type (t : string) : DataType :=
  mkDataType (Some t) None [] None false false false false false false.

(** [DataModelField] of the code generator. *)
Record DataModelField : Type := mkDataModelField {
  field_name : string;
  data_type : DataType;
  default : option string
}.

Definition set_field_name (n : string) (f : DataModelField) : DataModelField :=
  mkDataModelField n (data_type f) (default f).

Definition set_data_type (t : DataType) (f : DataModelField) : DataModelField :=
  mkDataModelField (field_name f) t (default f).

(** [CustomDataModel]: [name] is [reference.name], which [model.name]
    reads. *)
Record CustomDataModel : Type := mkCustomDataModel {
  name : string;
  fields : list DataModelField;
  base_classes : list DataType;
  methods : list string;
  _additional_imports : list Import;
  description : option string
}.

(** [CustomDataModel._replace_words] *)
Definition _replace_words : list (string * string) :=
  [("_odata_id", "odata_id");
   ("_odata_context", "odata_context");
   ("_odata_type", "odata_type");
   ("__redfish__action_info", "redfish_action_info");
   ("__", "_")].

(** [CustomDataModel.process_fields] *)
Definition process_fields (fields_ : list DataModelField) : list DataModelField :=
  map (fun field =>
         set_field_name
           (fold_left (fun n w => replace (fst w) (snd w) n) _replace_words
              (field_name field))
           field)
    fields_.

(** [CustomDataModel(reference=..., fields=..., ...)]: the fields go
    through [process_fields]. *)
Definition new_CustomDataModel (name_ : string)
  (fields_ : list DataModelField) (base_classes_ : list DataType)
  : CustomDataModel :=
  mkCustomDataModel name_ (process_fields fields_) base_classes_
    [] [] None.

(** [CustomDataModel._fields_are_present] *)
Definition _fields_are_present (self : CustomDataModel) (names : list string)
  : bool :=
  let field_names := map field_name (fields self) in
  forallb (fun n => existsb (String.eqb n) field_names) names.

(** [CustomDataModel.category] *)
Definition category (self : CustomDataModel) : DataModelCategory :=
  fold_left
    (fun category_ item =>
       if _fields_are_present self (snd item) then fst item else category_)
    category_fields UNKNOWN.

(** [Parser._get_data_type] *)
Definition _get_data_type (category_ : DataModelCategory)
  (collection : option string) (is_optional_ : bool) : DataType :=
  mkDataType
    (Some (DataModelCategory_value category_))
    None
    []
    (Some (mkImport ".common" (DataModelCategory_value category_) None))
    is_optional_
    (match collection with Some c => String.eqb c "Dict" | None => false end)
    (match collection with Some c => String.eqb c "List" | None => false end)
    false true true.

(** [data_type.imports], for a type that is made of no other type. *)
Definition imports (t : DataType) : list Import :=
  match type_import t with
  | Some i => [i]
  | None => []
  end.

Definition newline : string := String (ascii_of_nat 10) EmptyString.

(** The text of the method [resource] that a collection is given. *)
Definition resource_method (child_full_name : string) : string :=
  newline ++ "    @classmethod" ++ newline
  ++ "    def resource(cls) -> Type[" ++ child_full_name ++ "]:" ++ newline
  ++ "        return " ++ child_full_name ++ newline
  ++ "        ".

(** [hint] is none of the four texts by which [_clean_up_models] finds
    that a field names the model [t]. *)
Definition hint_avoids (hint : string) (t : CustomDataModel) : Prop :=
  hint <> name t /\
  hint <> ("List[" ++ name t ++ "]")%string /\
  hint <> ("Dict[" ++ name t ++ "]")%string /\
  hint <> ("Optional[" ++ name t ++ "]")%string.

(** The names of the fields that a collection loses. *)
Definition collection_fields_to_remove : list string :=
  ["odata_id"; "odata_type"; "members_odata_count"; "members";
   "id"; "odata_context"; "description"; "name"; "members_odata_next_link"].

(** The names of the fields that a resource loses. *)
Definition resource_fields_to_remove : list string :=
  ["odata_id"; "odata_type"; "id"; "odata_context"; "description"; "name"].

Section Parser.

(** [self._redfish_data] and [self._child_data] *)
Variable _redfish_data : scanner.RedfishData.
Variable _child_data : option scanner.RedfishData.

(** [self._redfish_data.description], a text got from the data. *)
Variable redfish_description : option string.

(** [field.type_hint], the text of the type of a field as the code
    generator writes it. *)
Variable type_hint : DataModelField -> string.

Definition in_names (x : string) (l : list string) : bool :=
  existsb (String.eqb x) l.

(** [Parser._update_collection_methods]; the [else] of its [for] gives
    back the list it went through. *)
Definition _update_collection_methods (models : list CustomDataModel)
  : list CustomDataModel :=
  map (fun model =>
         match _child_data with
         | Some child =>
             if DataModelCategory_eqb (category model) COLLECTION
                && String.eqb (name model) (scanner.full_name _redfish_data)
             then mkCustomDataModel (name model) (fields model)
                    (base_classes model)
                    (methods model
                     ++ [resource_method (scanner.full_name child)])
                    (_additional_imports model
                     ++ [mkImport "typing" "Type" None])
                    (description model)
             else model
         | None => model
         end)
    models.

(** The four tests that [_clean_up_models] makes on a field, one after
    the other, each on the type hint that the field has by then. *)
Definition clean_up_field (category_ : DataModelCategory)
  (names list_names dict_names opti_names : list string)
  (field : DataModelField) : DataModelField :=
  let field :=
    if in_names (type_hint field) names
    then set_data_type (_get_data_type category_ None false) field
    else field in
  let field :=
    if in_names (type_hint field) list_names
    then set_data_type (_get_data_type category_ (Some "List") false) field
    else field in
  let field :=
    if in_names (type_hint field) dict_names
    then set_data_type (_get_data_type category_ (Some "Dict") false) field
    else field in
  if in_names (type_hint field) opti_names
  then set_data_type (_get_data_type category_ None true) field
  else field.

Definition set_fields (fields_ : list DataModelField) (model : CustomDataModel)
  : CustomDataModel :=
  mkCustomDataModel (name model) fields_ (base_classes model)
    (methods model) (_additional_imports model) (description model).

Definition is_target (category_ : DataModelCategory) (model : CustomDataModel)
  : bool :=
  DataModelCategory_eqb (category model) category_.

(** [Parser._clean_up_models]: the models of the category are left out,
    the fields of the others that name one of them are given the type of
    the category. *)
Definition _clean_up_models (models : list CustomDataModel)
  (category_ : DataModelCategory) : list CustomDataModel :=
  let targets := filter (is_target category_) models in
  match targets with
  | [] => models
  | _ =>
      let names := map name targets in
      let list_names :=
        map (fun t => ("List[" ++ name t ++ "]")%string) targets in
      let dict_names :=
        map (fun t => ("Dict[" ++ name t ++ "]")%string) targets in
      let opti_names :=
        map (fun t => ("Optional[" ++ name t ++ "]")%string) targets in
      map (fun model =>
             set_fields
               (map (clean_up_field category_ names list_names dict_names
                       opti_names)
                  (fields model))
               model)
        (filter (fun model => negb (is_target category_ model)) models)
  end.

(** What [_update_classes] does to a model of the category. *)
Definition update_class (category_ : DataModelCategory)
  (fields_to_remove : list string) (model : CustomDataModel)
  : CustomDataModel :=
  let data_type_ := _get_data_type category_ None false in
  mkCustomDataModel (name model)
    (filter (fun field => negb (in_names (field_name field) fields_to_remove))
       (fields model))
    [data_type_]
    (methods model)
    (_additional_imports model ++ imports data_type_)
    (description model).

(** [Parser._update_classes]; adding the two lists of names raises
    [TypeError] for a category that the dicts do not have. *)
Definition _update_classes (models : list CustomDataModel)
  (category_ : DataModelCategory) : exn + list CustomDataModel :=
  let targets := filter (is_target category_) models in
  match targets with
  | [] => inr models
  | _ =>
      match get category_fields category_, get optional_fields category_ with
      | Some required, Some optional =>
          let fields_to_remove := required ++ optional in
          inr (map (fun model =>
                      if is_target category_ model
                      then update_class category_ fields_to_remove model
                      else model)
                 models)
      | _, _ => inl TypeError
      end
  end.

(** [Parser._update_description] *)
Definition _update_description (models : list CustomDataModel)
  : list CustomDataModel :=
  match redfish_description with
  | Some d =>
      map (fun model =>
             if String.eqb (name model) (scanner.full_name _redfish_data)
             then mkCustomDataModel (name model) (fields model)
                    (base_classes model) (methods model)
                    (_additional_imports model) (Some d)
             else model)
        models
  | None => models
  end.

(** [Parser._update_url] *)
Definition _update_url (models : list CustomDataModel) : list CustomDataModel :=
  map (fun model =>
         if String.eqb (name model) (scanner.full_name _redfish_data)
         then set_fields
                (mkDataModelField "_url" (DataType_of_type "str")
                   (Some (scanner.uri _redfish_data))
                 :: fields model)
                model
         else model)
    models.

(** The name that [_update_root_model_name] gives to a model. *)
Definition root_name (n : string) : string :=
  if String.eqb (lower n) (lower (scanner.full_name _redfish_data))
  then scanner.full_name _redfish_data else n.

(** The name that a reference bears after [_update_root_model_name]: the
    reference of a model of the list, whose names are [names], is the
    object that the model holds, and bears the new name of the model. *)
Definition renamed_reference (names : list string) (r : string) : string :=
  if in_names r names then root_name r else r.

(** A type after [_update_root_model_name], by the references that it and
    the types it is made of share with the models of the list. *)
Fixpoint rename_references (names : list string) (t : DataType) : DataType :=
  match t with
  | mkDataType type__ reference_ data_types_ import__ optional_ dict_ list_
      func_ custom_ strict_ =>
      mkDataType type__
        (option_map (renamed_reference names) reference_)
        (map (rename_references names) data_types_)
        import__ optional_ dict_ list_ func_ custom_ strict_
  end.

(** A field after [_update_root_model_name]. *)
Definition renamed_field (names : list string) (field : DataModelField)
  : DataModelField :=
  set_data_type (rename_references names (data_type field)) field.

(** [Parser._update_root_model_name]: [model.reference.name] is set for
    the models named as the node but for the case of the letters; the
    fields and the base classes that name one of these models share its
    reference. *)
Definition _update_root_model_name (models : list CustomDataModel)
  : list CustomDataModel :=
  let names := map name models in
  map (fun model =>
         mkCustomDataModel (root_name (name model))
           (map (renamed_field names) (fields model))
           (map (rename_references names) (base_classes model))
           (methods model) (_additional_imports model) (description model))
    models.

(** [Parser._get_data_models], on the models [self._parser.results]. *)
Definition _get_data_models (results : list CustomDataModel)
  : exn + list CustomDataModel :=
  let models := _update_collection_methods results in
  let models := _clean_up_models models LINK in
  let models := _clean_up_models models ACTION in
  match _update_classes models RESOURCE with
  | inl e => inl e
  | inr models =>
      match _update_classes models COLLECTION with
      | inl e => inl e
      | inr models =>
          let models := _update_description models in
          let models := _update_url models in
          inr (_update_root_model_name models)
      end
  end.

(** What [_clean_up_models] does to a model that is not of the category. *)
Definition clean_up_model (category_ : DataModelCategory)
  (targets : list CustomDataModel) (model : CustomDataModel) : CustomDataModel :=
  set_fields
    (map (clean_up_field category_ (map name targets)
            (map (fun t => ("List[" ++ name t ++ "]")%string) targets)
            (map (fun t => ("Dict[" ++ name t ++ "]")%string) targets)
            (map (fun t => ("Optional[" ++ name t ++ "]")%string) targets))
       (fields model))
    model.

(** The field that [_update_url] puts first in the root model. *)
Definition url_field : DataModelField :=
  mkDataModelField "_url" (DataType_of_type "str")
    (Some (scanner.uri _redfish_data)).

End Parser.

End parser.

(** ** The file processor: [sebastes/processor/processor.py] *)

Module processor.

Import PyStr scanner.

Definition tab : string := String (ascii_of_nat 9) EmptyString.

Definition newline : string := String (ascii_of_nat 10) EmptyString.

Definition quote : string := String (ascii_of_nat 34) EmptyString.

(** [re.sub('(.)([A-Z][a-z]+)', r'\1_\2', s)].  [copy] counts the
    characters of a match still to copy, [lowers] tells that the run of
    small letters of a match may go on; the search for the next match
    starts where the last one ended. *)
Fixpoint sub_before_word (copy : nat) (lowers : bool) (s : string) : string :=
  match s with
  | EmptyString => EmptyString
  | String c t =>
      match copy with
      | S k => String c (sub_before_word k lowers t)
      | O =>
          if lowers && is_lower c then String c (sub_before_word 0 true t)
          else
            match t with
            | String u (String l _) =>
                if negb (Ascii.eqb c (ascii_of_nat 10))
                   && is_upper u && is_lower l
                then String c (String "_" (sub_before_word 2 true t))
                else String c (sub_before_word 0 false t)
            | _ => String c (sub_before_word 0 false t)
            end
      end
  end.

(** [re.sub('__([A-Z])', r'_\1', s)] *)
Fixpoint sub_double_underscore (s : string) : string :=
  match s with
  | EmptyString => EmptyString
  | String c t =>
      match t with
      | String c' ((String u _) as t') =>
          if Ascii.eqb c "_" && Ascii.eqb c' "_" && is_upper u
          then String "_" (sub_double_underscore t')
          else String c (sub_double_underscore t)
      | _ => String c (sub_double_underscore t)
      end
  end.

(** [re.sub('([a-z0-9])([A-Z])', r'\1_\2', s)] *)
Fixpoint sub_before_capital (s : string) : string :=
  match s with
  | EmptyString => EmptyString
  | String c t =>
      match t with
      | String u _ =>
          if (is_lower c || is_digit c) && is_upper u
          then String c (String "_" (sub_before_capital t))
          else String c (sub_before_capital t)
      | EmptyString => String c EmptyString
      end
  end.

(** [RedfishData.file_name] *)
Definition file_name (self : RedfishData) : string :=
  lower (sub_before_capital
           (sub_double_underscore
              (sub_before_word 0 false (full_name self)))).

(** [a < b] on lists of strs. *)
Fixpoint list_lt (a b : list string) : bool :=
  match a, b with
  | [], [] => false
  | [], _ :: _ => true
  | _ :: _, [] => false
  | x :: a', y :: b' =>
      match String.compare x y with
      | Lt => true
      | Gt => false
      | Eq => list_lt a' b'
      end
  end.

(** [a < b] on the tuples [(file, classes)]. *)
Definition entry_lt (a b : string * list string) : bool :=
  match String.compare (fst a) (fst b) with
  | Lt => true
  | Gt => false
  | Eq => list_lt (snd a) (snd b)
  end.

(** [data.sort()]: a stable sort. *)
Fixpoint insert_entry (x : string * list string)
  (sorted : list (string * list string)) : list (string * list string) :=
  match sorted with
  | [] => [x]
  | y :: rest =>
      if entry_lt x y then x :: y :: rest else y :: insert_entry x rest
  end.

Definition sort_entries (data_ : list (string * list string))
  : list (string * list string) :=
  fold_left (fun sorted x => insert_entry x sorted) data_ [].

(** The loop [for c in classes] of [_prepare_init_file], on the text
    [result] and the line being filled. *)
Fixpoint wrap_classes (classes : list string) (result line : string)
  : string * string :=
  match classes with
  | [] => (result, line)
  | c :: rest =>
      if 120 <? String.length line + String.length c
      then wrap_classes rest (result ++ line ++ newline) tab
      else wrap_classes rest result (line ++ quote ++ c ++ quote ++ ", ")
  end.

(** [FileProcessor._prepare_init_file]: the text written to
    [__init__.py]. *)
Definition _prepare_init_file (data_ : list (string * list string)) : string :=
  let data_ := sort_entries data_ in
  let result := ("__all__ = [" ++ newline)%string in
  let classes := List.concat (map snd data_) in
  let (result, line) := wrap_classes classes result tab in
  let result :=
    if String.eqb line tab then result
    else (result ++ line ++ newline)%string in
  let result := (result ++ "]" ++ newline ++ newline)%string in
  fold_left
    (fun result entry =>
       (result ++ "from ." ++ fst entry ++ " import "
        ++ join ", " (snd entry) ++ newline)%string)
    data_ result.

Section FileProcessor.

(** Whether [self._process_data(redfish_data, child_data)] gives a result
    (the parser raises nothing) or [None]. *)
Variable processed : RedfishData -> option RedfishData -> bool.

(** The first loop of [generate_lib], on [processed_data], the names of
    the modules saved and [init_data]. *)
Fixpoint pair_elements (datas processed_data : list RedfishData)
  (saved : list string) (init_data : list (string * list string))
  : list RedfishData * list string * list (string * list string) :=
  match datas with
  | [] => (processed_data, saved, init_data)
  | data_ :: rest =>
      match category data_, parent data_ with
      | ELEMENT, Some parent_ =>
          if negb (model_in data_ processed_data)
             && negb (model_in parent_ processed_data)
          then
            let processed_data := processed_data ++ [data_; parent_] in
            let element := processed data_ None in
            let collection := processed parent_ (Some data_) in
            if element && collection
            then pair_elements rest processed_data
                   (saved ++ [file_name parent_])
                   (init_data
                    ++ [(file_name parent_,
                         [full_name parent_; full_name data_])])
            else pair_elements rest processed_data saved init_data
          else pair_elements rest processed_data saved init_data
      | _, _ => pair_elements rest processed_data saved init_data
      end
  end.

(** The second loop of [generate_lib]. *)
Fixpoint single_models (datas processed_data : list RedfishData)
  (saved : list string) (init_data : list (string * list string))
  : list RedfishData * list string * list (string * list string) :=
  match datas with
  | [] => (processed_data, saved, init_data)
  | data_ :: rest =>
      if negb (model_in data_ processed_data)
      then
        let processed_data := processed_data ++ [data_] in
        if processed data_ None
        then single_models rest processed_data
               (saved ++ [file_name data_])
               (init_data ++ [(file_name data_, [full_name data_])])
        else single_models rest processed_data saved init_data
      else single_models rest processed_data saved init_data
  end.

(** [FileProcessor.generate_lib]: the names of the modules saved, the
    entries given to [_prepare_init_file] and the text of [__init__.py]. *)
Definition generate_lib (_redfish_datas : list RedfishData)
  : list string * list (string * list string) * string :=
  let '(processed_data, saved, init_data) :=
    pair_elements _redfish_datas [] [] [] in
  let '(_, saved, init_data) :=
    single_models _redfish_datas processed_data saved init_data in
  let init_data := init_data ++ [("common", ["DataManager"])] in
  (saved, init_data, _prepare_init_file init_data).

End FileProcessor.

End processor.

(** ** Targets and samples *)

Module targets.

Import PyStr Json scanner.

(** A generator that always draws the first positions. *)
Definition first_positions (g : unit) (n k : nat) : list nat * unit :=
  (seq 0 k, g).

Definition link (uri_ : string) : json := JDict [("@odata.id", JStr uri_)].

(** A small service: a root, a collection of two chassis, an alias of the
    first chassis that repeats its type, a thermal resource below the
    alias, and a link that cannot be fetched. *)
Definition lab_get_json (u : string) : exn + json :=
  if String.eqb u "/redfish/v1/" then
    inr (JDict [("@odata.type", JStr "#ServiceRoot.v1_5_0.ServiceRoot");
                ("@odata.id", JStr "/redfish/v1/");
                ("Chassis", link "/redfish/v1/Chassis");
                ("Broken", link "/redfish/v1/Broken")])
  else if String.eqb u "/redfish/v1/Chassis" then
    inr (JDict [("@odata.type", JStr "#ChassisCollection.ChassisCollection");
                ("@odata.id", JStr "/redfish/v1/Chassis");
                ("Members@odata.count", JNum 2%Q);
                ("Members", JList [link "/redfish/v1/Chassis/1";
                                   link "/redfish/v1/Chassis/2"])])
  else if String.eqb u "/redfish/v1/Chassis/1" then
    inr (JDict [("@odata.type", JStr "#Chassis.v1_0_0.Chassis");
                ("@odata.id", JStr "/redfish/v1/Chassis/1");
                ("Alias", link "/redfish/v1/Chassis/1/Alias")])
  else if String.eqb u "/redfish/v1/Chassis/1/Alias" then
    inr (JDict [("@odata.type", JStr "#Chassis.v1_0_0.Chassis");
                ("@odata.id", JStr "/redfish/v1/Chassis/1/Alias");
                ("Thermal", link "/redfish/v1/Chassis/1/Thermal")])
  else if String.eqb u "/redfish/v1/Chassis/1/Thermal" then
    inr (JDict [("@odata.type", JStr "#Thermal.v1_0_0.Thermal");
                ("@odata.id", JStr "/redfish/v1/Chassis/1/Thermal")])
  else if String.eqb u "/redfish/v1/Chassis/2" then
    inr (JDict [("@odata.type", JStr "#Chassis.v1_0_0.Chassis");
                ("@odata.id", JStr "/redfish/v1/Chassis/2")])
  else inl (TransportError "Not Found").

Definition lab_universe : list string :=
  ["/redfish/v1/"; "/redfish/v1/Chassis"; "/redfish/v1/Chassis/1";
   "/redfish/v1/Chassis/1/Alias"; "/redfish/v1/Chassis/1/Thermal";
   "/redfish/v1/Chassis/2"].


(** The scan of the small service with the default budgets. *)
Abbreviation lab_scan fuel entry_point :=
  (scan_models first_positions 500 50 lab_get_json fuel (new_Scanner tt)
     (JStr entry_point) None).

(** The state at the end of that scan started at the root. *)
Definition lab_result : Scanner unit :=
  Eval vm_compute in
    match lab_scan 10 "/redfish/v1/" with
    | Some (s', _) => s'
    | None => new_Scanner tt
    end.

Definition alias_uri : string := "/redfish/v1/Chassis/1/Alias".

(** The node of the first chassis, of which the alias repeats the name. *)
Definition first_chassis : RedfishData :=
  mkRedfishData "Chassis"
    (JDict [("@odata.type", JStr "#Chassis.v1_0_0.Chassis");
            ("@odata.id", JStr "/redfish/v1/Chassis/1");
            ("Alias", link alias_uri)])
    "/redfish/v1/Chassis/1" None.

(** The state at the end of the call for the alias, its parent being the
    first chassis. *)
Definition alias_result : Scanner unit :=
  Eval vm_compute in
    match scan_models first_positions 500 50 lab_get_json 3 (new_Scanner tt)
            (JStr alias_uri) (Some first_chassis) with
    | Some (s', _) => s'
    | None => new_Scanner tt
    end.

(** A service whose chassis is not at the URI that its data gives. *)
Definition moved_get_json (u : string) : exn + json :=
  if String.eqb u "/redfish/v1/Chassis/1" then
    inr (JDict [("@odata.type", JStr "#Chassis.v1.Chassis");
                ("@odata.id", JStr "/c/1");
                ("Name", JStr "Main")])
  else if String.eqb u "/c/1" then
    inr (JDict [("@odata.type", JStr "#Power.v1.Power")])
  else inl (TransportError "Not Found").

(** A service with the chassis only, at "/c/1". *)
Definition chassis_get_json (u : string) : exn + json :=
  if String.eqb u "/c/1" then
    inr (JDict [("@odata.type", JStr "#Chassis.v1.Chassis");
                ("@odata.id", JStr "/c/1");
                ("Name", JStr "Main")])
  else inl (TransportError "Not Found").

Definition three_members : list json := [link "/a"; link "/b"; link "/c"].

Definition drive_collection : RedfishData :=
  mkRedfishData "DriveCollection" (JDict []) "/drives" None.

Definition drive : RedfishData :=
  mkRedfishData "Drive" (JDict []) "/drives/1" (Some drive_collection).

(** An endless service: every URL answers with an entry of one and the
    same type that links to a longer URL. *)
Definition chain_get_json (u : string) : exn + json :=
  inr (JDict [("@odata.type", JStr "#Entry.v1_0_0.Entry");
              ("@odata.id", JStr u);
              ("Next", link (u ++ "/1"))]).

(** A node got from data with a type and no identity field. *)
Definition bare_node : RedfishData :=
  mkRedfishData "Sensor" (JDict [("@odata.type", JStr "#Sensor.v1_0_0.Sensor")])
    "/redfish/v1/Sensor" None.

(** [{"@odata.type":"#Chassis.v1.Chassis","@odata.id":"/c/1","Name":"Main"}] *)
Definition chassis_instance : json :=
  JDict [("@odata.type", JStr "#Chassis.v1.Chassis");
         ("@odata.id", JStr "/c/1");
         ("Name", JStr "Main")].

(** URLs made of the characters [/] and [1]. *)
Fixpoint plain (u : string) : bool :=
  match u with
  | EmptyString => true
  | String c t => (Ascii.eqb c "/" || Ascii.eqb c "1") && plain t
  end.

End targets.

Module drafts.

Import PyStr parser.

(** A type hint in the manner of the code generator: the name of the
    model or of the type, inside [List[...]], [Dict[str, ...]] and
    [Optional[...]] as the type says. *)
Fixpoint render_data_type (t : DataType) : string :=
  match t with
  | mkDataType type__ reference_ data_types_ _ optional_ dict_ list_ _ _ _ =>
      let inner :=
        match reference_, type__ with
        | Some r, _ => r
        | None, Some s => s
        | None, None => join ", " (map render_data_type data_types_)
        end in
      let inner :=
        if list_ then ("List[" ++ inner ++ "]")%string else inner in
      let inner :=
        if dict_ then ("Dict[str, " ++ inner ++ "]")%string else inner in
      if optional_ then ("Optional[" ++ inner ++ "]")%string else inner
  end.

(** The type hint of a field: that of its type, inside [Optional[...]]
    for a field that is not required.  Of the fields met here, those of
    the drafts are required; the field [_url], which is built with a
    default and nothing else, is not. *)
Definition render_type_hint (f : DataModelField) : string :=
  match default f with
  | Some _ => ("Optional[" ++ render_data_type (data_type f) ++ "]")%string
  | None => render_data_type (data_type f)
  end.

Definition reference_to (model_name : string) : DataType :=
  mkDataType None (Some model_name) [] None false false false false false false.

Definition list_of (t : DataType) : DataType :=
  mkDataType None None [t] None false false true false false false.

Definition field (n : string) (t : DataType) : DataModelField :=
  mkDataModelField n t None.

(** The models that the code generator gives for a chassis whose data
    holds a collection of drives: the link of a member, the collection,
    the chassis. *)
Definition member_draft : CustomDataModel :=
  new_CustomDataModel "Member" [field "_odata_id" (DataType_of_type "str")] [].

Definition drives_draft : CustomDataModel :=
  new_CustomDataModel "Drives"
    [field "_odata_id" (DataType_of_type "str");
     field "_odata_type" (DataType_of_type "str");
     field "name" (DataType_of_type "str");
     field "members_odata_count" (DataType_of_type "int");
     field "members" (list_of (reference_to "Member"))]
    [].

Definition chassis_draft : CustomDataModel :=
  new_CustomDataModel "Chassis"
    [field "_odata_id" (DataType_of_type "str");
     field "_odata_type" (DataType_of_type "str");
     field "drives" (reference_to "Drives");
     field "serial_number" (DataType_of_type "str")]
    [].

Definition chassis_drafts : list CustomDataModel :=
  [member_draft; drives_draft; chassis_draft].

Definition chassis_node : scanner.RedfishData :=
  scanner.mkRedfishData "Chassis" (JDict []) "/redfish/v1/Chassis/1" None.

(** What [_get_data_models] gives for them. *)
Definition chassis_models : list CustomDataModel :=
  Eval vm_compute in
    match _get_data_models chassis_node None (Some "Main") render_type_hint
            chassis_drafts with
    | inr models => models
    | inl _ => []
    end.
End drafts.

Module services.

Import PyStr scanner processor.

Definition service (n : string) : RedfishData :=
  mkRedfishData n
    (JDict [("@odata.type", JStr ("#" ++ n ++ ".v1_0_0." ++ n)%string)])
    ("/redfish/v1/" ++ n)%string None.

(** Nine nodes, as a scan leaves them. *)
Definition nine_services : list RedfishData :=
  map service
    ["ServiceRoot"; "ChassisCollection"; "ComputerSystemCollection";
     "ManagerCollection"; "SessionService"; "AccountService"; "EventService";
     "UpdateService"; "TaskService"].

End services.

(** ** Further definitions *)

(** ** More of the scanner, the parser and the file processor *)

Module more.

Import PyStr Json scanner processor.

(** The values of the keys ['@odata.id'] anywhere in a document. *)
Fixpoint odata_ids (data_ : json) : list json :=
  match data_ with
  | JDict items =>
      flat_map (fun '(key, value) =>
                  (if String.eqb key "@odata.id" then [value] else [])
                  ++ odata_ids value)
        items
  | JList l => flat_map odata_ids l
  | _ => []
  end.

(** [u] is the value of a key ['@odata.id'] in the data that the GET of
    one of the URIs [scanned] answers. *)
Definition advertised (_get_json : string -> exn + json)
  (scanned : list string) (u : string) : Prop :=
  exists v data_,
    In v scanned /\ _get_json v = inr data_ /\ In (JStr u) (odata_ids data_).

(** Whether [s] is made of ASCII characters only: on such a str
    [str.lower] and [str.upper] are [lower] and [upper_char], letter by
    letter. *)
Definition ascii_only (s : string) : bool :=
  forallb (fun c => nat_of_ascii c <? 128) (list_ascii_of_string s).

(** [s] without the character [c]. *)
Fixpoint without (c : ascii) (s : string) : string :=
  match s with
  | EmptyString => EmptyString
  | String c' t =>
      if Ascii.eqb c' c then without c t else String c' (without c t)
  end.

(** An entry of [init_data] for a node of [datas]: the module of a node
    with its class, or the module of a collection with its class and the
    class of its element, the processing having given a result. *)
Definition entry_of (processed : RedfishData -> option RedfishData -> bool)
  (datas : list RedfishData) (entry : string * list string) : Prop :=
  (exists data_,
     In data_ datas /\ processed data_ None = true /\
     entry = (file_name data_, [full_name data_])) \/
  (exists data_ parent_,
     In data_ datas /\ category data_ = ELEMENT /\
     parent data_ = Some parent_ /\
     processed data_ None = true /\ processed parent_ (Some data_) = true /\
     entry = (file_name parent_, [full_name parent_; full_name data_])).

(** The line of [__init__.py] that imports the classes of a module. *)
Definition import_line (entry : string * list string) : string :=
  "from ." ++ fst entry ++ " import " ++ join ", " (snd entry) ++ newline.

(** What the line of names gets for the class [c]. *)
Definition quoted (c : string) : string := quote ++ c ++ quote ++ ", ".

(** [a <= b] on the tuples [(file, classes)]. *)
Definition entry_le (a b : string * list string) : Prop :=
  entry_lt b a = false.

End more.

Module width_samples.

Import PyStr Json scanner targets.

(** [positions] are the positions of the members from which the URIs are
    taken, the width being [W]: [W] different positions drawn by
    [random.sample] when there are more members than [W], the other
    members being left out; all the positions otherwise. *)
Definition taken {RNG : Type}
  (sample_positions : RNG -> nat -> nat -> list nat * RNG) (W : Z)
  (members : list json) (positions : list nat) : Prop :=
  ((W < Z.of_nat (List.length members))%Z ->
   (exists g1 g2,
       sample_positions g1 (List.length members) (Z.to_nat W)
       = (positions, g2)) /\
   NoDup positions /\
   Forall (fun i => i < List.length members) positions /\
   Z.of_nat (List.length positions) = W /\
   List.length (filter (fun i => negb (existsb (Nat.eqb i) positions))
                  (seq 0 (List.length members)))
   = List.length members - Z.to_nat W) /\
  ((Z.of_nat (List.length members) <= W)%Z ->
   positions = seq 0 (List.length members)).

(** The data of a collection of three things. *)
Definition things : json :=
  JDict [("@odata.type", JStr "#ThingCollection.ThingCollection");
         ("@odata.id", JStr "/m");
         ("Members@odata.count", JNum 3%Q);
         ("Members", JList [link "/m/1"; link "/m/2"; link "/m/3"])].

Definition thing (uri_ : string) : json :=
  JDict [("@odata.type", JStr "#Thing.v1_0_0.Thing");
         ("@odata.id", JStr uri_)].

(** A service with the collection at "/m" and its three members. *)
Definition things_get_json (u : string) : exn + json :=
  if String.eqb u "/m" then inr things
  else if String.eqb u "/m/1" then inr (thing "/m/1")
  else if String.eqb u "/m/2" then inr (thing "/m/2")
  else if String.eqb u "/m/3" then inr (thing "/m/3")
  else inl (TransportError "Not Found").

End width_samples.

Module more_samples.

Import PyStr scanner parser drafts.

(** A node whose full name the code generator writes with other capital
    letters. *)
Definition pcie_node : scanner.RedfishData :=
  scanner.mkRedfishData "PCIeDevice" (JDict [])
    "/redfish/v1/Chassis/1/PCIeDevices/1" None.

Definition pcie_draft : CustomDataModel :=
  new_CustomDataModel "PcieDevice"
    [field "_odata_id" (DataType_of_type "str");
     field "_odata_type" (DataType_of_type "str");
     field "serial_number" (DataType_of_type "str")]
    [].

(** A model with a field that names the model of the device, and the
    models that the parser gives with it. *)
Definition slot_draft : CustomDataModel :=
  new_CustomDataModel "Slot" [field "device" (reference_to "PcieDevice")] [].

Definition slot_drafts : list CustomDataModel :=
  [drives_draft; pcie_draft; slot_draft].

(** Two entries of [init_data]. *)
Definition two_entries : list (string * list string) :=
  [("common", ["DataManager"]); ("chassis", ["Chassis"])].

End more_samples.


(** ** Properties of the scanner *)

Module scanner_facts.

Import PyStr Json scanner targets.

(** Case analysis on the first match or conditional of a hypothesis. *)
Ltac split_match H :=
  match type of H with
  | context [match ?x with _ => _ end] =>
      let E := fresh "E" in destruct x eqn:E
  | context [if ?x then _ else _] =>
      let E := fresh "E" in destruct x eqn:E
  end.

Section Invariants.

Variable RNG : Type.
Variable sample_positions : RNG -> nat -> nat -> list nat * RNG.
Variable _max_models : Z.
Variable _max_collection : Z.
Variable _get_json : string -> exn + json.

Local Abbreviation scan_models :=
  (scan_models sample_positions _max_models _max_collection _get_json).
Local Abbreviation extends := (@extends RNG _get_json).

(** A call whose budget is used up returns at once and changes nothing,
    whatever the entry point. *)
Lemma scan_models_budget_reached fuel (self : Scanner RNG) entry_point parent :
  (_max_models <= Z.of_nat (List.length (_redfish self)))%Z ->
  scan_models (S fuel) self entry_point parent = Some (self, Returned).
Proof.
  intros H. simpl.
  destruct (Z.ltb_spec (Z.of_nat (List.length (_redfish self))) _max_models);
    [lia | reflexivity].
Qed.

(** A property kept by each change of the scanner is kept by a scan.  A
    [RedfishData] is registered only below the budget. *)
Section Unary.

Variable I : Scanner RNG -> Prop.
Hypothesis I_mark : forall s ep, I s -> I (mark_scanned ep s).
Hypothesis I_register : forall s m,
  (Z.of_nat (List.length (_redfish s)) < _max_models)%Z ->
  _get_json (uri m) = inr (data m) ->
  _get_model_name (data m) = inr (Some (name m)) ->
  registrable (parent m) (Some (name m)) = Some (name m) ->
  I s -> I (register m s).
Hypothesis I_random : forall s g, I s -> I (set_random_state g s).
Hypothesis I_problem : forall s ep e, I s -> I (add_problem ep e s).

Lemma scan_uris_invariant call :
  (forall s u s' o, call s u = Some (s', o) -> I s -> I s') ->
  forall uris (s : Scanner RNG) s' o,
    scan_uris call s uris = Some (s', o) -> I s -> I s'.
Proof.
  intros Hcall. induction uris as [|u rest IH]; intros s s' o H Hs; simpl in H.
  - now inversion H; subst.
  - destruct (in_strs u (_scanned_uris s)); [eauto|].
    destruct (call s u) as [[s1 [|e]]|] eqn:E; try discriminate.
    + eapply IH; eauto.
    + inversion H; subst. eauto.
Qed.

Lemma scan_models_invariant fuel :
  forall (s : Scanner RNG) entry_point parent s' o,
    scan_models fuel s entry_point parent = Some (s', o) -> I s -> I s'.
Proof.
  induction fuel as [|fuel IH]; intros s entry_point parent s' o H Hs;
    [discriminate|].
  simpl in H.
  destruct (Z.ltb_spec (Z.of_nat (List.length (_redfish s))) _max_models)
    as [Hlt|Hge]; [|now inversion H; subst].
  destruct (negb (in_strs entry_point (_scanned_uris s)));
    [|now inversion H; subst].
  destruct entry_point as [| | |ep| |]; try (now inversion H; subst).
  destruct (negb (contains "jsonschemas" (lower ep)));
    [|now inversion H; subst].
  unfold scanner.scan_body in H.
  assert (Hm : I (mark_scanned ep s)) by auto.
  assert (Hlen : (Z.of_nat (List.length (_redfish (mark_scanned ep s)))
                  < _max_models)%Z) by exact Hlt.
  revert H Hm Hlen. generalize (mark_scanned ep s). intros s1 H Hm Hlen.
  destruct (_get_json ep) as [e|data_] eqn:Eget.
  { simpl in H. inversion H; subst. auto. }
  destruct (_get_model_name data_) as [e|name_] eqn:Ename.
  { simpl in H. inversion H; subst. auto. }
  set (model := match registrable parent name_ with
                | Some n => Some (mkRedfishData n data_ ep parent)
                | None => None
                end) in *.
  set (s2 := match model with Some m => register m s1 | None => s1 end) in *.
  assert (H2 : I s2).
  { unfold s2, model. destruct (registrable parent name_) as [n|] eqn:Ereg;
      [|assumption].
    assert (name_ = Some n) as ->.
    { destruct name_ as [n'|]; [|discriminate]. simpl in Ereg.
      destruct parent as [p|]; [destruct (String.eqb (name p) n')|];
        congruence. }
    apply I_register; simpl; assumption. }
  clearbody s2 model.
  destruct (_get_uris sample_positions _max_collection data_ (random_state s2))
    as [[e|uris] g].
  { simpl in H. inversion H; subst. auto. }
  destruct (scan_uris (fun self' uri => scan_models fuel self' uri model)
              (set_random_state g s2) uris) as [[s3 [|e]]|] eqn:E;
    simpl in H; try discriminate; inversion H; subst.
  - eapply scan_uris_invariant; [| exact E | auto].
    intros ? ? ? ? Hc; cbv beta in Hc; eapply IH; eauto.
  - apply I_problem.
    eapply scan_uris_invariant; [| exact E | auto].
    intros ? ? ? ? Hc; cbv beta in Hc; eapply IH; eauto.
Qed.

End Unary.

(** *** What a scan adds *)

Lemma in_strs_In ep (l : list string) : in_strs (JStr ep) l = true <-> In ep l.
Proof.
  simpl. rewrite existsb_exists. split.
  - intros [x [Hx Heq]]. apply String.eqb_eq in Heq. now subst.
  - intros H. exists ep. split; [assumption | apply String.eqb_refl].
Qed.

Lemma in_strs_not_str u (l : list string) :
  (forall ep, u <> JStr ep) -> in_strs u l = false.
Proof. destruct u; intros H; try reflexivity. now destruct (H s). Qed.

Lemma extends_refl s : extends s s.
Proof.
  apply (@Extends RNG _get_json s s [] [] []); simpl; rewrite ?app_nil_r;
    auto using NoDup_nil, incl_nil_l; try easy.
Qed.

Lemma extends_trans a b c : extends a b -> extends b c -> extends a c.
Proof.
  intros [u1 p1 n1 Hs1 Hp1 Hr1 Hnd1 Hnew1 Hpd1 Hpi1 Hf1 Hn1]
         [u2 p2 n2 Hs2 Hp2 Hr2 Hnd2 Hnew2 Hpd2 Hpi2 Hf2 Hn2].
  assert (Hdisj : forall u, In u u1 -> ~ In u u2).
  { intros u H1 H2. apply (Hnew2 u H2). rewrite Hs1. apply in_or_app. auto. }
  apply (@Extends RNG _get_json a c (u1 ++ u2) (p1 ++ p2) (n1 ++ n2)).
  - rewrite Hs2, Hs1. now rewrite app_assoc.
  - rewrite Hp2, Hp1. now rewrite app_assoc.
  - rewrite Hr2, Hr1. now rewrite app_assoc.
  - apply NoDup_app; assumption.
  - intros u Hu Hin. apply in_app_or in Hu. destruct Hu as [Hu|Hu].
    + exact (Hnew1 u Hu Hin).
    + apply (Hnew2 u Hu). rewrite Hs1. apply in_or_app. auto.
  - rewrite map_app. apply NoDup_app; [assumption..|].
    intros x H1 H2. exact (Hdisj x (Hpi1 x H1) (Hpi2 x H2)).
  - rewrite map_app. intros x Hx. apply in_app_or in Hx. apply in_or_app.
    destruct Hx; [left; auto | right; auto].
  - intros u e Hu Hf. apply in_app_or in Hu. apply in_or_app.
    destruct Hu; [left; eauto | right; eauto].
  - apply Forall_app. split.
    + eapply Forall_impl; [|exact Hn1]. intros n Hn. apply in_or_app. auto.
    + eapply Forall_impl; [|exact Hn2]. intros n Hn. apply in_or_app. auto.
Qed.

(** [extends] looks at the three lists only. *)
Lemma extends_same a a' b b' :
  _scanned_uris a' = _scanned_uris a -> _problems a' = _problems a ->
  _redfish a' = _redfish a ->
  _scanned_uris b' = _scanned_uris b -> _problems b' = _problems b ->
  _redfish b' = _redfish b ->
  extends a b -> extends a' b'.
Proof.
  intros Ea1 Ea2 Ea3 Eb1 Eb2 Eb3 [u p n]. apply (@Extends RNG _get_json a' b' u p n);
    rewrite ?Ea1, ?Ea2, ?Ea3, ?Eb1, ?Eb2, ?Eb3; assumption.
Qed.

(** The frame of one entry point [ep]: it is marked, at most one node is
    registered for it, the children are scanned, and at most one problem is
    recorded for it at the end, one for sure when its GET fails. *)
Lemma extends_frame s ep nodes0 base s3 final tail :
  ~ In ep (_scanned_uris s) ->
  _scanned_uris base = _scanned_uris s ++ [ep] ->
  _problems base = _problems s ->
  _redfish base = _redfish s ++ nodes0 ->
  Forall (fun n => uri n = ep) nodes0 ->
  extends base s3 ->
  _scanned_uris final = _scanned_uris s3 ->
  _redfish final = _redfish s3 ->
  _problems final = _problems s3 ++ tail ->
  (tail = [] \/ exists e, tail = [mkProblem ep e]) ->
  (forall e, _get_json ep = inl e -> tail = [mkProblem ep e]) ->
  extends s final.
Proof.
  intros Hnew Hb1 Hb2 Hb3 Hn0 [u p n Hs Hp Hr Hnd Hnw Hpd Hpi Hf Hn]
    Hf1 Hf2 Hf3 Htail Hfail.
  assert (Hep : ~ In ep u).
  { intros Hin. apply (Hnw ep Hin). rewrite Hb1. apply in_or_app.
    right; simpl; auto. }
  apply (@Extends RNG _get_json s final (ep :: u) (p ++ tail) (nodes0 ++ n)).
  - rewrite Hf1, Hs, Hb1, <- app_assoc. reflexivity.
  - rewrite Hf3, Hp, Hb2, app_assoc. reflexivity.
  - rewrite Hf2, Hr, Hb3, app_assoc. reflexivity.
  - constructor; assumption.
  - intros x [Hx|Hx]; [now subst|].
    intros Hin. apply (Hnw x Hx). rewrite Hb1. apply in_or_app. auto.
  - rewrite map_app. destruct Htail as [->|[e ->]]; simpl.
    + now rewrite app_nil_r.
    + apply NoDup_app; [assumption | repeat constructor; easy |].
      intros a Ha [<-|[]]. apply Hep, Hpi, Ha.
  - rewrite map_app. intros x Hx. apply in_app_or in Hx. destruct Hx as [Hx|Hx].
    + right. apply Hpi. assumption.
    + destruct Htail as [->|[e ->]]; simpl in Hx; [easy|].
      destruct Hx as [<-|[]]. left. reflexivity.
  - intros x e [<-|Hx] Hg; apply in_or_app.
    + right. rewrite (Hfail e Hg). simpl; auto.
    + left. eauto.
  - apply Forall_app. split.
    + eapply Forall_impl; [|exact Hn0]. intros x ->. simpl; auto.
    + eapply Forall_impl; [|exact Hn]. intros x Hx. simpl; auto.
Qed.

Lemma except_Exception_returns ep r (s' : Scanner RNG) o :
  except_Exception ep r = Some (s', o) -> o = Returned.
Proof.
  destruct r as [[s1 [|e]]|]; simpl; intros H; try discriminate;
    now inversion H.
Qed.

(** Only an entry point that is not a [str] makes [scan_models] raise,
    and nothing has changed then. *)
Lemma scan_models_raised fuel (s : Scanner RNG) entry_point parent s' e :
  scan_models fuel s entry_point parent = Some (s', Raised e) ->
  (forall ep, entry_point <> JStr ep) /\ s' = s /\ e = AttributeError.
Proof.
  destruct fuel as [|fuel]; [discriminate|]. simpl. intros H.
  repeat (split_match H; try discriminate);
    try (apply except_Exception_returns in H; discriminate);
    inversion H; subst; repeat split; intros ep' Hep'; discriminate.
Qed.

Lemma scan_uris_extends call :
  (forall s u s' o, call s u = Some (s', o) -> extends s s') ->
  forall uris (s : Scanner RNG) s' o,
    scan_uris call s uris = Some (s', o) -> extends s s'.
Proof.
  intros Hcall. induction uris as [|u rest IH]; intros s s' o H; simpl in H.
  - inversion H; subst. apply extends_refl.
  - destruct (in_strs u (_scanned_uris s)); [eauto|].
    destruct (call s u) as [[s1 [|e]]|] eqn:E; try discriminate.
    + eapply extends_trans; eauto.
    + inversion H; subst. eauto.
Qed.

Lemma scan_models_extends fuel :
  forall (s : Scanner RNG) entry_point parent s' o,
    scan_models fuel s entry_point parent = Some (s', o) -> extends s s'.
Proof.
  induction fuel as [|fuel IH]; intros s entry_point parent s' o H;
    [discriminate|].
  simpl in H.
  destruct (Z.ltb (Z.of_nat (List.length (_redfish s))) _max_models);
    [|inversion H; subst; apply extends_refl].
  destruct (in_strs entry_point (_scanned_uris s)) eqn:Hin; simpl in H;
    [inversion H; subst; apply extends_refl|].
  destruct entry_point as [| | |ep| |];
    try (inversion H; subst; apply extends_refl).
  destruct (negb (contains "jsonschemas" (lower ep)));
    [|inversion H; subst; apply extends_refl].
  assert (Hnew : ~ In ep (_scanned_uris s)).
  { intros Hc. apply in_strs_In in Hc. congruence. }
  unfold scan_body in H.
  destruct (_get_json ep) as [e|data_] eqn:Eget.
  { simpl in H. inversion H; subst.
    apply (@extends_frame s ep [] (mark_scanned ep s) (mark_scanned ep s)
             _ [mkProblem ep e]);
      simpl; rewrite ?app_nil_r; eauto using extends_refl.
    intros e' He'. congruence. }
  destruct (_get_model_name data_) as [e|name_].
  { simpl in H. inversion H; subst.
    apply (@extends_frame s ep [] (mark_scanned ep s) (mark_scanned ep s)
             _ [mkProblem ep e]);
      simpl; rewrite ?app_nil_r; eauto using extends_refl.
    intros e' He'. congruence. }
  set (model := match registrable parent name_ with
                | Some n => Some (mkRedfishData n data_ ep parent)
                | None => None
                end) in *.
  set (s2 := match model with
             | Some m => register m (mark_scanned ep s)
             | None => mark_scanned ep s
             end) in *.
  assert (H2 : exists nodes0,
             _scanned_uris s2 = _scanned_uris s ++ [ep] /\
             _problems s2 = _problems s /\
             _redfish s2 = _redfish s ++ nodes0 /\
             Forall (fun n => uri n = ep) nodes0).
  { unfold s2, model. destruct (registrable parent name_) as [n|]; simpl.
    - destruct (model_in _ (_redfish s)).
      + exists []. rewrite app_nil_r. auto.
      + eexists [_]. repeat split. repeat constructor.
    - exists []. rewrite app_nil_r. auto. }
  destruct H2 as [nodes0 [Hb1 [Hb2 [Hb3 Hn0]]]].
  clearbody s2 model.
  destruct (_get_uris sample_positions _max_collection data_ (random_state s2))
    as [[e|uris] g].
  { simpl in H. inversion H; subst.
    apply (@extends_frame s ep nodes0 s2 s2 _ [mkProblem ep e]);
      simpl; eauto using extends_refl.
    intros e' He'. congruence. }
  destruct (scan_uris (fun self' uri => scan_models fuel self' uri model)
              (set_random_state g s2) uris) as [[s3 [|e]]|] eqn:E;
    simpl in H; try discriminate; inversion H; subst.
  - apply (@extends_frame s ep nodes0 s2 s' s' []);
      rewrite ?app_nil_r; eauto; try (intros; congruence).
    eapply scan_uris_extends in E.
    + eapply extends_same; [..|exact E]; reflexivity.
    + intros ? ? ? ? Hc; cbv beta in Hc; eapply IH; eauto.
  - apply (@extends_frame s ep nodes0 s2 s3 _ [mkProblem ep e]);
      simpl; eauto; try (intros; congruence).
    eapply scan_uris_extends in E.
    + eapply extends_same; [..|exact E]; reflexivity.
    + intros ? ? ? ? Hc; cbv beta in Hc; eapply IH; eauto.
Qed.

(** *** More depth changes nothing *)

Lemma scan_uris_more call call' :
  (forall (s : Scanner RNG) u r, call s u = Some r -> call' s u = Some r) ->
  forall uris s r,
    scan_uris call s uris = Some r -> scan_uris call' s uris = Some r.
Proof.
  intros Hcall. induction uris as [|u rest IH]; intros s r H; simpl in *;
    [assumption|].
  destruct (in_strs u (_scanned_uris s)); [auto|].
  destruct (call s u) as [[s1 o]|] eqn:E; [|discriminate].
  rewrite (Hcall _ _ _ E). destruct o; auto.
Qed.

Lemma scan_models_more_fuel fuel :
  forall (s : Scanner RNG) entry_point parent r,
    scan_models fuel s entry_point parent = Some r ->
    scan_models (S fuel) s entry_point parent = Some r.
Proof.
  induction fuel as [|fuel IH]; intros s entry_point parent r H;
    [discriminate|].
  cbn [scanner.scan_models] in H |- *.
  destruct (Z.ltb (Z.of_nat (List.length (_redfish s))) _max_models);
    [|assumption].
  destruct (negb (in_strs entry_point (_scanned_uris s))); [|assumption].
  destruct entry_point as [| | |ep| |]; try assumption.
  destruct (negb (contains "jsonschemas" (lower ep))); [|assumption].
  unfold scan_body in H |- *.
  destruct (_get_json ep) as [e|data_]; [assumption|].
  destruct (_get_model_name data_) as [e|name_]; [assumption|].
  cbv zeta in H |- *.
  destruct (_get_uris sample_positions _max_collection data_ _)
    as [[e|uris] g]; [assumption|].
  match type of H with
  | except_Exception _ ?x = _ => destruct x as [r1|] eqn:E; [|discriminate]
  end.
  erewrite scan_uris_more; [exact H | | exact E].
  intros s1 u r2 Hc. cbv beta in Hc |- *. now apply IH.
Qed.

(** *** The node budget *)

Lemma scan_models_size fuel (s : Scanner RNG) entry_point parent s' o :
  scan_models fuel s entry_point parent = Some (s', o) ->
  (Z.of_nat (List.length (_redfish s'))
   <= Z.max (Z.of_nat (List.length (_redfish s))) _max_models)%Z.
Proof.
  intros H.
  pose (bound := Z.max (Z.of_nat (List.length (_redfish s))) _max_models).
  apply (@scan_models_invariant
           (fun x => (Z.of_nat (List.length (_redfish x)) <= bound)%Z))
    with (5 := H); simpl; auto.
  - intros x m Hlt _ _ _ _. destruct (model_in m (_redfish x)); [lia|].
    rewrite length_app. simpl. lia.
  - lia.
Qed.

(** *** Termination on a target with finitely many resources *)

Section Finite.

(** Every URL that the target answers is in [universe]. *)
Variable universe : list string.
Hypothesis answered_in_universe :
  forall u data_, _get_json u = inr data_ -> In u universe.

Local Abbreviation unscanned := (@unscanned RNG).
Local Abbreviation remaining := (@remaining RNG universe).

Lemma filter_length_le {A} (f g : A -> bool) l :
  (forall x, g x = true -> f x = true) ->
  List.length (filter g l) <= List.length (filter f l).
Proof.
  intros Hgf. induction l as [|a l IH]; simpl; [lia|].
  destruct (g a) eqn:Eg.
  - rewrite (Hgf a Eg). simpl. lia.
  - destruct (f a); simpl; lia.
Qed.

Lemma filter_length_lt {A} (f g : A -> bool) l x :
  (forall y, g y = true -> f y = true) ->
  In x l -> f x = true -> g x = false ->
  List.length (filter g l) < List.length (filter f l).
Proof.
  intros Hgf. induction l as [|a l IH]; simpl; [easy|].
  intros [->|Hin] Hf Hg.
  - rewrite Hf, Hg. simpl.
    pose proof (filter_length_le f g l Hgf). lia.
  - specialize (IH Hin Hf Hg). destruct (g a) eqn:Eg.
    + rewrite (Hgf a Eg). simpl. lia.
    + destruct (f a); simpl; lia.
Qed.

Lemma unscanned_incl s s' u :
  incl (_scanned_uris s) (_scanned_uris s') ->
  unscanned s' u = true -> unscanned s u = true.
Proof.
  unfold scanner.unscanned. intros Hincl H.
  apply negb_true_iff in H. apply negb_true_iff.
  destruct (existsb (String.eqb u) (_scanned_uris s)) eqn:E; [|reflexivity].
  apply existsb_exists in E. destruct E as [x [Hx Hux]].
  rewrite <- H. symmetry. apply existsb_exists. exists x. auto.
Qed.

Lemma remaining_extends s s' : extends s s' -> remaining s' <= remaining s.
Proof.
  intros [u p n Hs _ _ _ _ _ _ _ _]. apply filter_length_le.
  intros x. apply unscanned_incl. rewrite Hs. apply incl_appl, incl_refl.
Qed.

Lemma remaining_mark s ep :
  In ep universe -> ~ In ep (_scanned_uris s) ->
  remaining (mark_scanned ep s) < remaining s.
Proof.
  intros Hu Hnew. apply filter_length_lt with (x := ep); auto.
  - intros y. apply unscanned_incl. simpl. apply incl_appl, incl_refl.
  - unfold scanner.unscanned. apply negb_true_iff.
    destruct (existsb (String.eqb ep) (_scanned_uris s)) eqn:E; [|reflexivity].
    destruct Hnew. now apply in_strs_In.
  - unfold scanner.unscanned. apply negb_false_iff. simpl.
    rewrite existsb_app. simpl. rewrite String.eqb_refl.
    now rewrite orb_true_r.
Qed.

Lemma scan_uris_terminates call fuel :
  (forall s u, remaining s < fuel -> exists r, call s u = Some r) ->
  (forall s u s' o, call s u = Some (s', o) -> extends s s') ->
  forall uris (s : Scanner RNG),
    remaining s < fuel -> exists r, scan_uris call s uris = Some r.
Proof.
  intros Hterm Hext. induction uris as [|u rest IH]; intros s Hs; simpl.
  - eauto.
  - destruct (in_strs u (_scanned_uris s)); [auto|].
    destruct (Hterm s u Hs) as [[s1 [|e]] Hr]; rewrite Hr; [|eauto].
    apply IH. pose proof (@remaining_extends _ _ (Hext _ _ _ _ Hr)). lia.
Qed.

Lemma scan_models_terminates fuel :
  forall (s : Scanner RNG) entry_point parent,
    remaining s < fuel ->
    exists r, scan_models fuel s entry_point parent = Some r.
Proof.
  induction fuel as [|fuel IH]; intros s entry_point parent Hs; [lia|].
  simpl.
  destruct (Z.ltb (Z.of_nat (List.length (_redfish s))) _max_models); [|eauto].
  destruct (in_strs entry_point (_scanned_uris s)) eqn:Hin; simpl; [eauto|].
  destruct entry_point as [| | |ep| |]; eauto.
  destruct (negb (contains "jsonschemas" (lower ep))); [|eauto].
  assert (Hnew : ~ In ep (_scanned_uris s)).
  { intros Hc. apply in_strs_In in Hc. congruence. }
  unfold scan_body.
  destruct (_get_json ep) as [e|data_] eqn:Eget; [simpl; eauto|].
  pose proof (@remaining_mark s ep (@answered_in_universe _ _ Eget) Hnew) as Hlt.
  destruct (_get_model_name data_) as [e|name_]; [simpl; eauto|].
  set (model := match registrable parent name_ with
                | Some n => Some (mkRedfishData n data_ ep parent)
                | None => None
                end).
  set (s2 := match model with
             | Some m => register m (mark_scanned ep s)
             | None => mark_scanned ep s
             end).
  assert (H2 : remaining s2 = remaining (mark_scanned ep s))
    by (unfold s2; destruct model; reflexivity).
  clearbody s2 model.
  destruct (_get_uris sample_positions _max_collection data_ (random_state s2))
    as [[e|uris] g]; [simpl; eauto|].
  destruct (@scan_uris_terminates
              (fun self' uri => scan_models fuel self' uri model) fuel)
    with (uris := uris) (s := set_random_state g s2) as [[s3 [|e]] Hr].
  - intros; apply IH; assumption.
  - intros ? ? ? ? Hc; eapply scan_models_extends; exact Hc.
  - change (remaining (set_random_state g s2)) with (remaining s2). lia.
  - rewrite Hr. simpl. eauto.
  - rewrite Hr. simpl. eauto.
Qed.

Lemma remaining_le_universe s : remaining s <= List.length universe.
Proof.
  unfold scanner.remaining.
  pose proof (filter_length (unscanned s) universe). lia.
Qed.


End Finite.


End Invariants.

(** *** First come, first kept *)

Lemma __eq___full_name A B : __eq__ A B = true <-> full_name A = full_name B.
Proof.
  unfold __eq__. rewrite String.eqb_eq. split; congruence.
Qed.

Lemma model_in_iff m kept :
  model_in m kept = true <->
  exists B, In B kept /\ full_name B = full_name m.
Proof.
  unfold model_in. rewrite existsb_exists. split.
  - intros [B [HB He]]. apply __eq___full_name in He. eauto.
  - intros [B [HB He]]. exists B. split; [assumption|].
    apply __eq___full_name. congruence.
Qed.

Lemma keep_first_snoc l m :
  keep_first (l ++ [m]) =
  if model_in m (keep_first l) then keep_first l else keep_first l ++ [m].
Proof. unfold keep_first. now rewrite fold_left_app. Qed.

Lemma keep_first_incl l : incl (keep_first l) l.
Proof.
  induction l as [|m l IH] using rev_ind; [easy|].
  rewrite keep_first_snoc. destruct (model_in m (keep_first l)).
  - apply incl_appl. assumption.
  - apply incl_app; [apply incl_appl; assumption | apply incl_appr, incl_refl].
Qed.

Lemma keep_first_NoDup l : NoDup (map full_name (keep_first l)).
Proof.
  induction l as [|m l IH] using rev_ind; [constructor|].
  rewrite keep_first_snoc. destruct (model_in m (keep_first l)) eqn:E;
    [assumption|].
  rewrite map_app. apply NoDup_app; [assumption | repeat constructor; easy|].
  intros x Hx [<-|[]]. apply in_map_iff in Hx. destruct Hx as [B [HB Hin]].
  assert (model_in m (keep_first l) = true) by (apply model_in_iff; eauto).
  congruence.
Qed.

(** Every [RedfishData] built has its full name kept, by the first one
    built with that full name. *)
Lemma keep_first_first l :
  forall A, In A l ->
  exists B before after,
    l = before ++ B :: after /\
    full_name B = full_name A /\
    (forall C, In C before -> full_name C <> full_name A) /\
    In B (keep_first l).
Proof.
  induction l as [|m l IH] using rev_ind; [easy|].
  intros A HA. rewrite keep_first_snoc.
  assert (Hold : forall A', In A' l ->
            exists B before after,
              l ++ [m] = before ++ B :: after /\
              full_name B = full_name A' /\
              (forall C, In C before -> full_name C <> full_name A') /\
              In B (if model_in m (keep_first l) then keep_first l
                    else keep_first l ++ [m])).
  { intros A' HA'. destruct (IH A' HA') as [B [before [after [El [Hn [Hb HB]]]]]].
    exists B, before, (after ++ [m]). repeat split; auto.
    - rewrite El, <- app_assoc. reflexivity.
    - destruct (model_in m (keep_first l)); [assumption|].
      apply in_or_app. auto. }
  apply in_app_or in HA. destruct HA as [HA|[<-|[]]]; [auto|].
  destruct (model_in m (keep_first l)) eqn:E.
  - apply model_in_iff in E. destruct E as [B' [HB' Hn']].
    destruct (Hold B' (@keep_first_incl l B' HB')) as [B [before [after H]]].
    exists B, before, after. rewrite <- Hn'. exact H.
  - exists m, l, []. repeat split; auto.
    + intros C HC Hn. destruct (IH C HC) as [B [_ [_ [_ [HnB [_ HB]]]]]].
      assert (model_in m (keep_first l) = true)
        by (apply model_in_iff; exists B; split; congruence).
      congruence.
    + apply in_or_app. right. simpl. auto.
Qed.

Section Dedup.

Variable RNG : Type.
Variable sample_positions : RNG -> nat -> nat -> list nat * RNG.
Variable _max_models : Z.
Variable _max_collection : Z.
Variable _get_json : string -> exn + json.

Lemma scan_models_keep_first fuel (s : Scanner RNG) entry_point parent s' o :
  scanner.scan_models sample_positions _max_models _max_collection _get_json
    fuel s entry_point parent = Some (s', o) ->
  _redfish s = keep_first (constructed s) ->
  _redfish s' = keep_first (constructed s').
Proof.
  intros H.
  apply (@scan_models_invariant RNG sample_positions _max_models
           _max_collection _get_json
           (fun x => _redfish x = keep_first (constructed x)))
    with (5 := H); simpl; auto.
  intros x m _ _ _ _ Hx. rewrite keep_first_snoc, <- Hx. reflexivity.
Qed.

(** C2.  In the collection that a scan discovers, no two nodes have the
    same full name; every [RedfishData] that the scan builds has its full
    name in the collection, held by the first one built with that full
    name; and two [RedfishData] are equal exactly when their full names
    are, whatever their data, URIs and places in the traversal. *)
Theorem discovered_collection_keeps_first fuel (g : RNG) entry_point parent s' o :
  scanner.scan_models sample_positions _max_models _max_collection _get_json
    fuel (new_Scanner g) entry_point parent = Some (s', o) ->
  (forall A B, __eq__ A B = true <-> full_name A = full_name B) /\
  NoDup (map full_name (_redfish s')) /\
  incl (_redfish s') (constructed s') /\
  (forall A, In A (constructed s') ->
     exists B before after,
       constructed s' = before ++ B :: after /\
       full_name B = full_name A /\
       (forall C, In C before -> full_name C <> full_name A) /\
       In B (_redfish s')).
Proof.
  intros H. apply scan_models_keep_first in H; [|reflexivity].
  split; [exact __eq___full_name|]. rewrite H.
  split; [apply keep_first_NoDup|].
  split; [apply keep_first_incl|].
  intros A HA. apply keep_first_first. assumption.
Qed.

End Dedup.

(** *** Failures and unregistered nodes *)

Lemma filter_url_unique (problems : list Problem) p :
  NoDup (map url problems) -> In p problems ->
  filter (fun q => String.eqb (url q) (url p)) problems = [p].
Proof.
  induction problems as [|q l IH]; [easy|].
  simpl. intros Hnd Hin. inversion Hnd as [|? ? Hq Hl]; subst.
  destruct Hin as [->|Hin].
  - rewrite String.eqb_refl. f_equal. clear IH Hnd Hl.
    induction l as [|x l IHl]; [reflexivity|]. simpl in *.
    destruct (String.eqb_spec (url x) (url p)) as [He|_]; [tauto|].
    apply IHl. tauto.
  - destruct (String.eqb_spec (url q) (url p)) as [He|_]; [|auto].
    destruct Hq. rewrite He. now apply in_map.
Qed.

Section Branches.

Variable RNG : Type.
Variable sample_positions : RNG -> nat -> nat -> list nat * RNG.
Variable _max_models : Z.
Variable _max_collection : Z.
Variable _get_json : string -> exn + json.

Local Abbreviation scan_models :=
  (scanner.scan_models sample_positions _max_models _max_collection _get_json).
Local Abbreviation extends := (@extends RNG _get_json).

(** The frame of an entry point that is scanned. *)
Lemma scan_models_frame fuel (s : Scanner RNG) ep parent :
  (Z.of_nat (List.length (_redfish s)) < _max_models)%Z ->
  ~ In ep (_scanned_uris s) ->
  contains "jsonschemas" (lower ep) = false ->
  scan_models (S fuel) s (JStr ep) parent =
  except_Exception ep
    (scan_body sample_positions _max_collection _get_json
       (fun model self' uri => scan_models fuel self' uri model)
       (mark_scanned ep s) ep parent).
Proof.
  intros Hlt Hnew Hex. cbn [scanner.scan_models].
  apply Z.ltb_lt in Hlt. rewrite Hlt.
  destruct (in_strs (JStr ep) (_scanned_uris s)) eqn:E.
  - apply in_strs_In in E. contradiction.
  - rewrite Hex. reflexivity.
Qed.

(** C6.  When the GET of a URI fails, the call for that URI marks it,
    appends one problem that records it, and returns, so that the loop of
    the caller goes on with the next URI.  In a whole scan, a call for a
    str returns and raises nothing, and every URI scanned whose GET fails
    has exactly one problem among those the scan appended. *)
Theorem failed_fetch_is_one_problem :
  (forall fuel (s : Scanner RNG) ep parent e,
      (Z.of_nat (List.length (_redfish s)) < _max_models)%Z ->
      ~ In ep (_scanned_uris s) ->
      contains "jsonschemas" (lower ep) = false ->
      _get_json ep = inl e ->
      scan_models (S fuel) s (JStr ep) parent
      = Some (add_problem ep e (mark_scanned ep s), Returned)) /\
  (forall call (s s1 : Scanner RNG) uri rest,
      in_strs uri (_scanned_uris s) = false ->
      call s uri = Some (s1, Returned) ->
      scan_uris call s (uri :: rest) = scan_uris call s1 rest) /\
  (forall fuel (s : Scanner RNG) ep parent s' o,
      scan_models fuel s (JStr ep) parent = Some (s', o) ->
      o = Returned /\
      exists uris problems,
        _scanned_uris s' = _scanned_uris s ++ uris /\
        _problems s' = _problems s ++ problems /\
        forall u e, In u uris -> _get_json u = inl e ->
          filter (fun p => String.eqb (url p) u) problems = [mkProblem u e]).
Proof.
  split; [|split].
  - intros fuel s ep parent e Hlt Hnew Hex Hget.
    rewrite scan_models_frame by assumption.
    unfold scan_body. rewrite Hget. reflexivity.
  - intros call s s1 uri rest Hin Hcall. simpl. now rewrite Hin, Hcall.
  - intros fuel s ep parent s' o H. split.
    + destruct o as [|e]; [reflexivity|].
      apply scan_models_raised in H as [Hne _]. now destruct (Hne ep).
    + apply scan_models_extends in H
        as [u p n Hs Hp _ _ _ Hpd _ Hf _].
      exists u, p. repeat split; try assumption.
      intros x e Hx Hget.
      exact (@filter_url_unique p (mkProblem x e) Hpd (Hf x e Hx Hget)).
Qed.

(** C7.  When the name got from the data of a URI is the name of the
    parent that led to it, or when no name is got, the call for that URI
    goes straight from marking the URI to the URIs of its data, which it
    scans with no parent; no node found by this call has that URI.  In the
    collection that a scan discovers no node has the name of its parent. *)
Theorem unregistered_node_children_scanned :
  (forall fuel (s : Scanner RNG) ep parent data_ name_,
      (Z.of_nat (List.length (_redfish s)) < _max_models)%Z ->
      ~ In ep (_scanned_uris s) ->
      contains "jsonschemas" (lower ep) = false ->
      _get_json ep = inr data_ ->
      _get_model_name data_ = inr name_ ->
      (name_ = None \/ exists p, parent = Some p /\ name_ = Some (name p)) ->
      scan_models (S fuel) s (JStr ep) parent
      = except_Exception ep
          (match _get_uris sample_positions _max_collection data_
                   (random_state s) with
           | (inl e, g) =>
               Some (set_random_state g (mark_scanned ep s), Raised e)
           | (inr uris, g) =>
               scan_uris (fun self' uri => scan_models fuel self' uri None)
                 (set_random_state g (mark_scanned ep s)) uris
           end) /\
      forall s' o,
        scan_models (S fuel) s (JStr ep) parent = Some (s', o) ->
        exists nodes,
          _redfish s' = _redfish s ++ nodes /\
          Forall (fun n => uri n <> ep) nodes) /\
  (forall fuel (g : RNG) entry_point parent s' o,
      scan_models fuel (new_Scanner g) entry_point parent = Some (s', o) ->
      Forall (fun n => forall p, scanner.parent n = Some p -> name p <> name n)
        (_redfish s')).
Proof.
  split.
  - intros fuel s ep parent data_ name_ Hlt Hnew Hex Hget Hname Hun.
    assert (Hreg : registrable parent name_ = None).
    { destruct Hun as [->|[p [-> ->]]]; simpl; [reflexivity|].
      now rewrite String.eqb_refl. }
    assert (Heq : scan_models (S fuel) s (JStr ep) parent
      = except_Exception ep
          (match _get_uris sample_positions _max_collection data_
                   (random_state s) with
           | (inl e, g) =>
               Some (set_random_state g (mark_scanned ep s), Raised e)
           | (inr uris, g) =>
               scan_uris (fun self' uri => scan_models fuel self' uri None)
                 (set_random_state g (mark_scanned ep s)) uris
           end)).
    { rewrite scan_models_frame by assumption.
      unfold scan_body. rewrite Hget, Hname, Hreg. reflexivity. }
    split; [exact Heq|].
    intros s' o H. rewrite Heq in H.
    destruct (_get_uris sample_positions _max_collection data_ (random_state s))
      as [[e|uris] g0].
    { simpl in H. inversion H; subst. exists []. simpl.
      now rewrite app_nil_r. }
    destruct (scan_uris (fun self' uri => scan_models fuel self' uri None)
                (set_random_state g0 (mark_scanned ep s)) uris)
      as [[s3 o3]|] eqn:E; [|discriminate].
    assert (Hext : extends (set_random_state g0 (mark_scanned ep s)) s3).
    { eapply scan_uris_extends; [|exact E].
      intros ? ? ? ? Hc; cbv beta in Hc.
      eapply scan_models_extends; exact Hc. }
    destruct Hext as [u p n Hs _ Hr _ Hnw _ _ _ Hn].
    exists n. split.
    + destruct o3; simpl in H; inversion H; subst; exact Hr.
    + eapply Forall_impl; [|exact Hn]. intros x Hx He. cbv beta in Hx. rewrite He in Hx.
      apply (Hnw ep Hx). simpl. apply in_or_app. right. simpl. auto.
  - intros fuel g entry_point parent s' o H.
    apply (@scan_models_invariant RNG sample_positions _max_models
             _max_collection _get_json
             (fun x =>
                Forall (fun n => forall p, scanner.parent n = Some p ->
                                           name p <> name n) (_redfish x)))
      with (5 := H); simpl; auto.
    intros x m _ _ _ Hreg Hx.
    destruct (model_in m (_redfish x)); [assumption|].
    apply Forall_app. split; [assumption|]. repeat constructor.
    intros p Hp He. rewrite Hp in Hreg. simpl in Hreg.
    rewrite He, String.eqb_refl in Hreg. discriminate.
Qed.

End Branches.

(** *** The width of a collection *)

Lemma select_map {A B} (f : A -> B) l positions :
  select (map f l) positions = map f (select l positions).
Proof.
  unfold select. induction positions as [|i rest IH]; [reflexivity|].
  simpl. rewrite map_app, IH, nth_error_map.
  now destruct (nth_error l i).
Qed.

Lemma select_length {A} (l : list A) positions :
  Forall (fun i => i < List.length l) positions ->
  List.length (select l positions) = List.length positions.
Proof.
  unfold select. induction 1 as [|i rest Hi _ IH]; [reflexivity|].
  simpl. rewrite length_app, IH.
  destruct (nth_error l i) eqn:E; [reflexivity|].
  apply nth_error_None in E. lia.
Qed.

(** Of [n] positions, those outside [k] different ones are [n - k]. *)
Lemma positions_left n positions :
  NoDup positions -> Forall (fun i => i < n) positions ->
  List.length (filter (fun i => negb (existsb (Nat.eqb i) positions)) (seq 0 n))
  = n - List.length positions.
Proof.
  intros Hnd Hlt.
  pose proof (filter_length (fun i => existsb (Nat.eqb i) positions) (seq 0 n))
    as Hsum.
  rewrite length_seq in Hsum.
  assert (Hin : forall i,
             In i (filter (fun i => existsb (Nat.eqb i) positions) (seq 0 n))
             <-> In i positions).
  { intros i. rewrite filter_In, in_seq, existsb_exists. split.
    - intros [_ [x [Hx He]]]. apply Nat.eqb_eq in He. now subst.
    - intros Hi. split.
      + rewrite Forall_forall in Hlt. specialize (Hlt i Hi). lia.
      + exists i. split; [assumption | apply Nat.eqb_refl]. }
  assert (Hlen : List.length
                   (filter (fun i => existsb (Nat.eqb i) positions) (seq 0 n))
                 = List.length positions).
  { apply Nat.le_antisymm; apply NoDup_incl_length.
    - apply NoDup_filter, seq_NoDup.
    - intros i Hi. now apply Hin.
    - assumption.
    - intros i Hi. now apply Hin. }
  lia.
Qed.

Section Width.

Variable RNG : Type.
Variable sample_positions : RNG -> nat -> nat -> list nat * RNG.
Variable _max_collection : Z.

Hypothesis sample_contract : draws_without_replacement sample_positions.
Hypothesis width_not_negative : (0 <= _max_collection)%Z.

Local Abbreviation _get_uris := (_get_uris sample_positions _max_collection).

(** At the key ['Members'] of the data of a node, with a list of [M]
    members and a width [W]: when [M > W], the URIs are taken from the
    members at [W] positions drawn by [random.sample], all different and
    within the list, so from exactly [W] members, the [M - W] others being
    left out; when [M <= W], they are taken from every member. *)
Lemma members_sampled members :
  (forall rest result,
      visit_items sample_positions _max_collection _get_uris
        (("Members", JList members) :: rest) result
      = bind (extend_with_members sample_positions _max_collection _get_uris
                (JList members) result)
          (fun result' =>
             visit_items sample_positions _max_collection _get_uris
               rest result')) /\
  ((_max_collection < Z.of_nat (List.length members))%Z ->
   forall result g,
   exists positions g',
     sample_positions g (List.length members) (Z.to_nat _max_collection)
     = (positions, g') /\
     NoDup positions /\
     Forall (fun i => i < List.length members) positions /\
     Z.of_nat (List.length (select members positions)) = _max_collection /\
     List.length (filter (fun i => negb (existsb (Nat.eqb i) positions))
                    (seq 0 (List.length members)))
     = List.length members - Z.to_nat _max_collection /\
     extend_with_members sample_positions _max_collection _get_uris
       (JList members) result g
     = extend_all (map _get_uris (select members positions)) result g') /\
  ((Z.of_nat (List.length members) <= _max_collection)%Z ->
   forall result g,
     extend_with_members sample_positions _max_collection _get_uris
       (JList members) result g
     = extend_all (map _get_uris members) result g).
Proof.
  split; [|split].
  - intros rest result. reflexivity.
  - intros Hlt result g.
    destruct (sample_positions g (List.length members)
                (Z.to_nat _max_collection)) as [positions g'] eqn:E.
    destruct (sample_contract g (n := List.length members)
                (k := Z.to_nat _max_collection)) as [Hlen [Hnd Hin]]; [lia|].
    rewrite E in Hlen, Hnd, Hin. simpl in Hlen, Hnd, Hin.
    exists positions, g'. split; [reflexivity|].
    split; [assumption|]. split; [assumption|].
    split; [rewrite select_length by assumption; lia|].
    split; [rewrite positions_left by assumption; lia|].
    unfold extend_with_members, entry_calls. rewrite length_map.
    apply Z.ltb_lt in Hlt. rewrite Hlt.
    unfold bind, random_sample. cbn [negb].
    replace (_max_collection <? 0)%Z with false
      by (symmetry; apply Z.ltb_ge; lia).
    rewrite length_map.
    replace (Z.of_nat (List.length members) <? _max_collection)%Z with false
      by (symmetry; apply Z.ltb_ge; apply Z.ltb_lt in Hlt; lia).
    cbn [orb]. rewrite E, select_map. reflexivity.
  - intros Hle result g.
    unfold extend_with_members, entry_calls. rewrite length_map.
    replace (_max_collection <? Z.of_nat (List.length members))%Z with false
      by (symmetry; apply Z.ltb_ge; lia).
    reflexivity.
Qed.

(** The calls that [entry_calls] lists are the calls of [_get_uris] on
    what iterating over the members yields. *)
Lemma entry_calls_are_calls members :
  entry_calls _get_uris members =
  match members with
  | JList l => inr (true, map _get_uris l)
  | JStr s_ => inr (true, map _get_uris (map JStr (chars s_)))
  | JDict d => inr (false, map _get_uris (map (fun kv => JStr (fst kv)) d))
  | _ => inl TypeError
  end.
Proof.
  destruct members; try reflexivity; simpl; rewrite map_map; reflexivity.
Qed.

End Width.

(** *** The category of a node *)

(** C3 (as amended).  The category of a node is defined for every node:
    it is Collection when the name contains "collection", whatever the
    case of its letters; otherwise Element when the parent is a Collection
    and the name is part of the name of the parent; otherwise Resource,
    whatever fields the data has.  It is never Unknown. *)
Theorem category_cases (n : RedfishData) :
  (contains "collection" (lower (name n)) = true ->
   category n = COLLECTION) /\
  (contains "collection" (lower (name n)) = false ->
   forall p, parent n = Some p ->
   category p = COLLECTION -> contains (name n) (name p) = true ->
   category n = ELEMENT) /\
  (contains "collection" (lower (name n)) = false ->
   (forall p, parent n = Some p ->
      category p <> COLLECTION \/ contains (name n) (name p) = false) ->
   category n = RESOURCE) /\
  category n <> UNKNOWN.
Proof.
  destruct n as [nm d u par]. cbn [category name parent].
  destruct (contains "collection" (lower nm)) eqn:Ec.
  - repeat split; try discriminate; reflexivity.
  - split; [discriminate|]. split; [|split].
    + intros _ p -> Hp Hin. now rewrite Hp, Hin.
    + intros _ Hno. destruct par as [p|]; [|reflexivity].
      destruct (Hno p eq_refl) as [Hc|Hc].
      * destruct (category p); try reflexivity. now destruct Hc.
      * now rewrite Hc, andb_false_r.
    + destruct par as [p|]; [|discriminate].
      destruct (RedfishCategory_eqb (category p) COLLECTION
                && contains nm (name p)); discriminate.
Qed.

(** C3, the claim as stated fails: a node that is no Collection, no
    Element and has not both the identity and the type field is a
    Resource, not Unknown. *)
Lemma bare_node_is_resource :
  _get_model_name (data bare_node) = inr (Some (name bare_node)) /\
  contains "collection" (lower (name bare_node)) = false /\
  parent bare_node = None /\
  has_identity_and_type (data bare_node) = false /\
  category bare_node = RESOURCE /\
  category bare_node <> UNKNOWN.
Proof. repeat split; discriminate. Qed.

(** *** One chassis *)

Section Chassis.

Variable RNG : Type.
Variable sample_positions : RNG -> nat -> nat -> list nat * RNG.
Variable _max_models : Z.
Variable _max_collection : Z.
Variable _get_json : string -> exn + json.

(** C9 (as amended).  The chassis instance gives the name "Chassis" and
    exactly one URI, its own identity "/c/1".  A node built from it at the
    entry point has full name "Chassis" and category Resource.  When the
    entry point is "/c/1" itself and the budget is not zero, the scan
    registers this node only, scans no other URI and meets no problem. *)
Theorem chassis_scenario :
  (0 < _max_models)%Z ->
  _get_json "/c/1" = inr chassis_instance ->
  _get_model_name chassis_instance = inr (Some "Chassis") /\
  (forall g, _get_uris sample_positions _max_collection chassis_instance g
             = (inr [JStr "/c/1"], g)) /\
  (forall entry_point,
      let node := mkRedfishData "Chassis" chassis_instance entry_point None in
      full_name node = "Chassis" /\ category node = RESOURCE) /\
  (forall fuel g,
      scan_models sample_positions _max_models _max_collection _get_json
        (S fuel) (new_Scanner g) (JStr "/c/1") None
      = Some (mkScanner
                [mkRedfishData "Chassis" chassis_instance "/c/1" None]
                ["/c/1"] [] g
                [mkRedfishData "Chassis" chassis_instance "/c/1" None],
              Returned)).
Proof.
  intros Hbudget Hget.
  split; [reflexivity|]. split; [reflexivity|]. split; [split; reflexivity|].
  intros fuel g. cbn [scan_models new_Scanner _redfish List.length].
  apply Z.ltb_lt in Hbudget. cbn [Z.of_nat]. rewrite Hbudget.
  cbn. unfold scan_body. rewrite Hget. reflexivity.
Qed.

End Chassis.

End scanner_facts.


(** ** The claims about the scanner *)

Module scanner_claims.

Import PyStr Json scanner scanner_facts targets.

(** *** The endless service is scanned for ever *)

Lemma plain_not_excluded u :
  plain u = true -> contains "jsonschemas" (lower u) = false.
Proof.
  induction u as [|c t IH]; [reflexivity|].
  simpl plain. intros H. apply andb_true_iff in H. destruct H as [Hc Ht].
  specialize (IH Ht). apply orb_true_iff in Hc.
  destruct Hc as [Hc|Hc]; apply Ascii.eqb_eq in Hc; subst c;
    simpl; exact IH.
Qed.

Lemma plain_next u : plain u = true -> plain (u ++ "/1") = true.
Proof.
  induction u as [|c t IH]; [reflexivity|].
  simpl. intros H. apply andb_true_iff in H. destruct H as [Hc Ht].
  rewrite Hc. simpl. auto.
Qed.

Lemma length_next u : String.length (u ++ "/1") = String.length u + 2.
Proof. induction u as [|c t IH]; simpl; [reflexivity | now rewrite IH]. Qed.

Lemma shorter_not_in u (l : list string) :
  Forall (fun x => String.length x < String.length u) l ->
  existsb (String.eqb u) l = false.
Proof.
  induction 1 as [|x l Hx _ IH]; [reflexivity|]. simpl. rewrite IH.
  destruct (String.eqb_spec u x) as [->|_]; [lia | reflexivity].
Qed.

Lemma chain_never_ends fuel :
  forall (s : Scanner unit) ep parent,
    plain ep = true ->
    Forall (fun x => String.length x < String.length ep) (_scanned_uris s) ->
    List.length (_redfish s) <= 1 ->
    Forall (fun n => full_name n = "Entry") (_redfish s) ->
    (parent = None \/ exists p, parent = Some p /\ name p = "Entry") ->
    scan_models first_positions 500 50 chain_get_json fuel s (JStr ep) parent
    = None.
Proof.
  induction fuel as [|fuel IH]; intros s ep parent Hplain Hshort Hlen Hall Hpar;
    [reflexivity|].
  cbn [scan_models].
  replace (Z.of_nat (List.length (_redfish s)) <? 500)%Z with true
    by (symmetry; apply Z.ltb_lt; lia).
  cbn [in_strs]. rewrite (shorter_not_in _ Hshort).
  rewrite (plain_not_excluded _ Hplain). cbn [negb].
  unfold scan_body, chain_get_json. cbv beta iota zeta.
  change (_get_model_name _) with (@inr exn _ (Some "Entry")).
  cbv beta iota zeta.
  set (data_ := JDict _).
  assert (Huris : forall g, _get_uris first_positions 50 data_ g
                            = (inr [JStr ep; JStr (ep ++ "/1")], g))
    by reflexivity.
  set (model := match registrable parent (Some "Entry") with
                | Some n => Some (mkRedfishData n data_ ep parent)
                | None => None
                end).
  set (s2 := match model with
             | Some m => register m (mark_scanned ep s)
             | None => mark_scanned ep s
             end).
  assert (H2 : _scanned_uris s2 = _scanned_uris s ++ [ep] /\
               List.length (_redfish s2) <= 1 /\
               Forall (fun n => full_name n = "Entry") (_redfish s2) /\
               (model = None \/ exists p, model = Some p /\ name p = "Entry")).
  { unfold s2, model.
    destruct Hpar as [->|[p [-> Hp]]]; simpl.
    - split; [reflexivity|].
      destruct (_redfish s) as [|n [|n' rest]] eqn:Er; simpl in *.
      + repeat split; eauto.
      + inversion Hall as [|? ? Hn _]; subst. unfold __eq__.
        rewrite Hn. simpl. repeat split; eauto.
      + lia.
    - rewrite Hp. simpl. repeat split; auto. }
  destruct H2 as [Hs2 [Hl2 [Ha2 Hm2]]]. clearbody s2 model.
  rewrite Huris. cbn [scan_uris set_random_state _scanned_uris in_strs].
  rewrite Hs2, existsb_app. cbn [existsb]. rewrite String.eqb_refl.
  rewrite orb_true_r.
  rewrite existsb_app. cbn [existsb].
  assert (Hnext : Forall (fun x => String.length x < String.length (ep ++ "/1"))
                    (_scanned_uris s ++ [ep])).
  { apply Forall_app. split.
    - eapply Forall_impl; [|exact Hshort]. intros x Hx. cbv beta in *.
      rewrite length_next. lia.
    - repeat constructor. rewrite length_next. lia. }
  pose proof (shorter_not_in _ Hnext) as Hn.
  rewrite existsb_app in Hn. cbn [existsb] in Hn. rewrite Hn.
  rewrite IH; [reflexivity | | | | |]; cbn [_scanned_uris _redfish];
    auto using plain_next.
  simpl. rewrite Hs2. exact Hnext.
Qed.


(** *** The claims at the small service *)

(** The small service answers the URLs of its universe only. *)
Lemma lab_answered_in_universe u data_ :
  lab_get_json u = inr data_ -> In u lab_universe.
Proof.
  unfold lab_get_json, lab_universe.
  repeat match goal with
         | |- context [String.eqb u ?x] =>
             destruct (String.eqb_spec u x) as [->|_];
             [intros _; simpl; auto 10|]
         end.
  intros H; discriminate H.
Qed.


Lemma first_positions_draws : draws_without_replacement first_positions.
Proof.
  intros g n k Hk. simpl. rewrite length_seq.
  split; [reflexivity|]. split; [apply seq_NoDup|].
  apply Forall_forall. intros i Hi. apply in_seq in Hi. lia.
Qed.

(** C2 at the small service: the two chassis have one full name, the
    first is kept. *)
Lemma discovered_collection_keeps_first_witness :
  lab_scan 10 "/redfish/v1/" = Some (lab_result, Returned) /\
  map full_name (constructed lab_result)
  = ["ServiceRoot"; "ServiceRootChassisCollection";
     "ChassisCollectionChassis"; "Thermal"; "ChassisCollectionChassis"] /\
  NoDup (map full_name (_redfish lab_result)) /\
  incl (_redfish lab_result) (constructed lab_result).
Proof.
  assert (H : lab_scan 10 "/redfish/v1/" = Some (lab_result, Returned))
    by (vm_compute; reflexivity).
  split; [exact H|]. split; [vm_compute; reflexivity|].
  destruct (discovered_collection_keeps_first first_positions 500 50
              lab_get_json 10 tt (JStr "/redfish/v1/") None H)
    as [_ [Hnd [Hincl _]]].
  split; assumption.
Defined.

(** C6 at the small service: the link that cannot be fetched has one
    problem, and the scan returns. *)
Lemma failed_fetch_is_one_problem_witness :
  lab_scan 10 "/redfish/v1/" = Some (lab_result, Returned) /\
  filter (fun p => String.eqb (url p) "/redfish/v1/Broken")
    (_problems lab_result)
  = [mkProblem "/redfish/v1/Broken" (TransportError "Not Found")].
Proof.
  assert (H : lab_scan 10 "/redfish/v1/" = Some (lab_result, Returned))
    by (vm_compute; reflexivity).
  split; [exact H|].
  destruct (failed_fetch_is_one_problem first_positions 500 50 lab_get_json)
    as [_ [_ Hall]].
  destruct (Hall 10 (new_Scanner tt) "/redfish/v1/" None lab_result Returned H)
    as [_ [uris [problems [Hs [Hp Hone]]]]].
  cbn [new_Scanner _scanned_uris _problems app] in Hs, Hp.
  rewrite Hp. apply Hone; [|reflexivity].
  rewrite <- Hs. simpl. auto 10.
Defined.

(** C7 at the small service: the alias of the first chassis repeats the
    name of its parent; no node is registered for it, and the thermal
    resource below it is found. *)
Lemma unregistered_node_children_scanned_witness :
  scan_models first_positions 500 50 lab_get_json 3 (new_Scanner tt)
    (JStr alias_uri) (Some first_chassis) = Some (alias_result, Returned) /\
  map uri (_redfish alias_result) = ["/redfish/v1/Chassis/1/Thermal"] /\
  Forall (fun n => uri n <> alias_uri) (_redfish alias_result).
Proof.
  assert (H : scan_models first_positions 500 50 lab_get_json 3 (new_Scanner tt)
                (JStr alias_uri) (Some first_chassis)
              = Some (alias_result, Returned)) by (vm_compute; reflexivity).
  split; [exact H|]. split; [vm_compute; reflexivity|].
  destruct (unregistered_node_children_scanned first_positions 500 50
              lab_get_json) as [Hframe _].
  destruct (Hframe 2 (new_Scanner tt) alias_uri (Some first_chassis)
              (JDict [("@odata.type", JStr "#Chassis.v1_0_0.Chassis");
                      ("@odata.id", JStr alias_uri);
                      ("Thermal", link "/redfish/v1/Chassis/1/Thermal")])
              (Some "Chassis")) as [_ Hnodes].
  - simpl. lia.
  - simpl. tauto.
  - reflexivity.
  - reflexivity.
  - reflexivity.
  - right. exists first_chassis. split; reflexivity.
  - destruct (Hnodes alias_result Returned H) as [nodes [Hr Hall]].
    cbn [new_Scanner _redfish app] in Hr. rewrite Hr. exact Hall.
Defined.

(** C3 at a collection of drives and one of its drives. *)
Lemma category_cases_witness :
  category drive_collection = COLLECTION /\ category drive = ELEMENT.
Proof.
  split.
  - apply (proj1 (category_cases drive_collection)). reflexivity.
  - apply (proj1 (proj2 (category_cases drive))) with (p := drive_collection);
      reflexivity.
Defined.

(** C9 at the service with the chassis only. *)
Lemma chassis_scenario_witness :
  scan_models first_positions 500 50 chassis_get_json 1 (new_Scanner tt)
    (JStr "/c/1") None
  = Some (mkScanner
            [mkRedfishData "Chassis" chassis_instance "/c/1" None]
            ["/c/1"] [] tt
            [mkRedfishData "Chassis" chassis_instance "/c/1" None],
          Returned).
Proof.
  apply (chassis_scenario first_positions (_max_models := 500) 50
           chassis_get_json); [lia | reflexivity].
Defined.

(** C9, the claim as stated fails: the chassis instance yields one URI,
    not none, and when it is fetched at another entry point that URI is
    scanned and a second node is registered. *)
Lemma chassis_instance_yields_its_uri :
  fst (_get_uris first_positions 50 chassis_instance tt) = inr [JStr "/c/1"] /\
  fst (_get_uris first_positions 50 chassis_instance tt) <> inr [] /\
  moved_get_json "/redfish/v1/Chassis/1" = inr chassis_instance /\
  exists s',
    scan_models first_positions 500 50 moved_get_json 3 (new_Scanner tt)
      (JStr "/redfish/v1/Chassis/1") None = Some (s', Returned) /\
    map full_name (_redfish s') = ["Chassis"; "ChassisPower"] /\
    _scanned_uris s' = ["/redfish/v1/Chassis/1"; "/c/1"].
Proof.
  split; [reflexivity|]. split; [discriminate|]. split; [reflexivity|].
  eexists. split; [vm_compute; reflexivity|]. split; reflexivity.
Qed.

End scanner_claims.

(** ** Properties of the parser *)

Module parser_facts.

Import PyStr parser.

Lemma last_cons {A} (x : A) l d : last (x :: l) d = last l x.
Proof.
  revert x d. induction l as [|y l IH]; intros x d; [reflexivity|].
  change (last (x :: y :: l) d) with (last (y :: l) d).
  rewrite !IH. reflexivity.
Qed.

(** A loop that keeps the last item that passes a test. *)
Lemma fold_left_last_match {A B} (test : A -> bool) (f : A -> B) l init :
  fold_left (fun kept item => if test item then f item else kept) l init
  = last (map f (filter test l)) init.
Proof.
  revert init. induction l as [|a l IH]; intros init; [reflexivity|].
  simpl. rewrite IH. destruct (test a); [|reflexivity].
  simpl map. now rewrite last_cons.
Qed.

Lemma in_names_In x l : in_names x l = true <-> In x l.
Proof.
  unfold in_names. rewrite existsb_exists. split.
  - intros [y [Hy He]]. apply String.eqb_eq in He. now subst.
  - intros H. exists x. split; [assumption | apply String.eqb_refl].
Qed.

Lemma _fields_are_present_iff m names :
  _fields_are_present m names = true <->
  forall n, In n names -> In n (map field_name (fields m)).
Proof.
  unfold _fields_are_present. rewrite forallb_forall.
  split; intros H n Hn.
  - apply (in_names_In n). apply H. assumption.
  - apply (in_names_In n). apply H. assumption.
Qed.

(** C10.  The categories are tried in the order Link, Action, Resource,
    Collection, and the category of a model is the last of them whose
    fields the model all has, Unknown when there is none.  A model with
    the fields [odata_id], [odata_type], [members_odata_count] and
    [members] has the fields of Link and of Resource too, and its category
    is Collection. *)
Theorem category_is_last_match (m : CustomDataModel) :
  map fst category_fields = [LINK; ACTION; RESOURCE; COLLECTION] /\
  category m
  = last (map fst
            (filter (fun item => _fields_are_present m (snd item))
               category_fields))
      UNKNOWN /\
  (In "odata_id" (map field_name (fields m)) ->
   In "odata_type" (map field_name (fields m)) ->
   In "members_odata_count" (map field_name (fields m)) ->
   In "members" (map field_name (fields m)) ->
   get category_fields LINK = Some ["odata_id"] /\
   _fields_are_present m ["odata_id"] = true /\
   get category_fields RESOURCE = Some ["odata_id"; "odata_type"] /\
   _fields_are_present m ["odata_id"; "odata_type"] = true /\
   category m = COLLECTION).
Proof.
  split; [reflexivity|]. split.
  - unfold category. apply fold_left_last_match.
  - intros H1 H2 H3 H4.
    assert (Hall : _fields_are_present m
              ["odata_id"; "odata_type"; "members_odata_count"; "members"]
            = true).
    { apply _fields_are_present_iff. simpl.
      intros n [<-|[<-|[<-|[<-|[]]]]]; assumption. }
    split; [reflexivity|]. split.
    { apply _fields_are_present_iff. simpl. intros n [<-|[]]. assumption. }
    split; [reflexivity|]. split.
    { apply _fields_are_present_iff. simpl.
      intros n [<-|[<-|[]]]; assumption. }
    unfold category, category_fields. cbn [fold_left fst snd].
    rewrite Hall. reflexivity.
Qed.

(** *** Through the stages of [_get_data_models] *)

Lemma category_same_names m m' :
  map field_name (fields m') = map field_name (fields m) ->
  category m' = category m.
Proof.
  intros H. unfold category, _fields_are_present. rewrite H. reflexivity.
Qed.

Lemma set_fields_same m : set_fields (fields m) m = m.
Proof. now destruct m. Qed.

Lemma filter_none_all {A} (f : A -> bool) l :
  filter f l = [] -> filter (fun x => negb (f x)) l = l.
Proof.
  induction l as [|a l IH]; [reflexivity|]. simpl.
  destruct (f a); [discriminate|]. simpl. intros H. now rewrite IH.
Qed.

Lemma in_names_map_false {A} (g : A -> string) x (l : list A) :
  (forall t, In t l -> x <> g t) -> in_names x (map g l) = false.
Proof.
  intros H. destruct (in_names x (map g l)) eqn:E; [|reflexivity].
  apply in_names_In in E. apply in_map_iff in E.
  destruct E as [t [Ht Hin]]. now destruct (H t Hin).
Qed.

Section Stages.

Variable _redfish_data : scanner.RedfishData.
Variable _child_data : option scanner.RedfishData.
Variable redfish_description : option string.
Variable type_hint : DataModelField -> string.

Local Abbreviation _update_collection_methods :=
  (_update_collection_methods _redfish_data _child_data).
Local Abbreviation _clean_up_models := (_clean_up_models type_hint).
Local Abbreviation _get_data_models :=
  (_get_data_models _redfish_data _child_data redfish_description type_hint).
Local Abbreviation clean_up_model := (clean_up_model type_hint).
Local Abbreviation url_field := (url_field _redfish_data).

Lemma clean_up_field_name category_ a b c d f :
  field_name (clean_up_field type_hint category_ a b c d f) = field_name f.
Proof.
  unfold clean_up_field.
  repeat match goal with
         | |- context [if ?x then _ else _] => destruct x
         end; reflexivity.
Qed.

Lemma clean_up_field_avoids category_ targets f :
  (forall t, In t targets -> hint_avoids (type_hint f) t) ->
  clean_up_field type_hint category_ (map name targets)
    (map (fun t => ("List[" ++ name t ++ "]")%string) targets)
    (map (fun t => ("Dict[" ++ name t ++ "]")%string) targets)
    (map (fun t => ("Optional[" ++ name t ++ "]")%string) targets) f
  = f.
Proof.
  intros H.
  assert (E1 : in_names (type_hint f) (map name targets) = false)
    by (apply in_names_map_false; intros t Ht; apply (H t Ht)).
  assert (E2 : in_names (type_hint f)
                 (map (fun t => ("List[" ++ name t ++ "]")%string) targets)
               = false)
    by (apply in_names_map_false; intros t Ht; apply (H t Ht)).
  assert (E3 : in_names (type_hint f)
                 (map (fun t => ("Dict[" ++ name t ++ "]")%string) targets)
               = false)
    by (apply in_names_map_false; intros t Ht; apply (H t Ht)).
  assert (E4 : in_names (type_hint f)
                 (map (fun t => ("Optional[" ++ name t ++ "]")%string) targets)
               = false)
    by (apply in_names_map_false; intros t Ht; apply (H t Ht)).
  unfold clean_up_field. cbv zeta.
  rewrite E1. cbv iota. rewrite E2. cbv iota. rewrite E3. cbv iota.
  rewrite E4. reflexivity.
Qed.

Lemma clean_up_model_shape category_ targets m :
  name (clean_up_model category_ targets m) = name m /\
  map field_name (fields (clean_up_model category_ targets m))
  = map field_name (fields m) /\
  base_classes (clean_up_model category_ targets m) = base_classes m.
Proof.
  unfold parser.clean_up_model. simpl. repeat split.
  rewrite map_map. apply map_ext. intros f. apply clean_up_field_name.
Qed.

Lemma _clean_up_models_map models category_ :
  _clean_up_models models category_
  = map (clean_up_model category_ (filter (is_target category_) models))
      (filter (fun m => negb (is_target category_ m)) models).
Proof.
  unfold parser._clean_up_models.
  destruct (filter (is_target category_) models) as [|t ts] eqn:E;
    [|reflexivity].
  rewrite (filter_none_all _ _ E).
  rewrite <- (map_id models) at 1. apply map_ext. intros m.
  unfold parser.clean_up_model. simpl.
  rewrite <- (set_fields_same m) at 1. f_equal.
  rewrite <- (map_id (fields m)) at 1. apply map_ext. intros f. reflexivity.
Qed.

(** What [_update_collection_methods] does to a model. *)
Lemma _update_collection_methods_shape models m' :
  In m' (_update_collection_methods models) ->
  exists m, In m models /\
    name m' = name m /\ fields m' = fields m /\
    base_classes m' = base_classes m.
Proof.
  unfold parser._update_collection_methods. intros H.
  apply in_map_iff in H. destruct H as [m [<- Hm]]. exists m.
  split; [assumption|].
  destruct _child_data; [|auto].
  destruct (DataModelCategory_eqb (category m) COLLECTION
            && String.eqb (name m) (scanner.full_name _redfish_data)); auto.
Qed.

Lemma _update_collection_methods_keeps models m :
  In m models ->
  exists m', In m' (_update_collection_methods models) /\
    name m' = name m /\ fields m' = fields m /\
    base_classes m' = base_classes m.
Proof.
  intros H. unfold parser._update_collection_methods.
  eexists. split; [apply in_map; exact H|].
  destruct _child_data; [|auto].
  destruct (DataModelCategory_eqb (category m) COLLECTION
            && String.eqb (name m) (scanner.full_name _redfish_data)); auto.
Qed.

Lemma is_target_iff category_ m :
  is_target category_ m = true <-> category m = category_.
Proof.
  unfold is_target. destruct (category m), category_; simpl;
    split; congruence.
Qed.

(** A model that [_clean_up_models] gives comes from one that it was
    given, of the same name and category. *)
Lemma _clean_up_models_shape models category_ m' :
  In m' (_clean_up_models models category_) ->
  exists m, In m models /\ name m' = name m /\ category m' = category m.
Proof.
  rewrite _clean_up_models_map. intros H. apply in_map_iff in H.
  destruct H as [m [<- Hm]]. apply filter_In in Hm. exists m.
  destruct (clean_up_model_shape category_
              (filter (is_target category_) models) m) as [Hr [Hf _]].
  split; [tauto|].
  split; [assumption | now apply category_same_names].
Qed.

(** A model of another category goes through [_clean_up_models]: its
    name, the names of its fields and its base classes stay, and so does
    every field whose type hint names none of the models of the
    category. *)
Lemma _clean_up_models_keeps models category_ m :
  In m models -> category m <> category_ ->
  exists m', In m' (_clean_up_models models category_) /\
    name m' = name m /\
    map field_name (fields m') = map field_name (fields m) /\
    base_classes m' = base_classes m /\
    forall f, In f (fields m) ->
      (forall t, In t models -> category t = category_ ->
                 hint_avoids (type_hint f) t) ->
      In f (fields m').
Proof.
  intros Hm Hc. rewrite _clean_up_models_map.
  exists (clean_up_model category_ (filter (is_target category_) models) m).
  split.
  { apply in_map. apply filter_In. split; [assumption|].
    apply negb_true_iff. destruct (is_target category_ m) eqn:E;
      [|reflexivity].
    apply is_target_iff in E. contradiction. }
  destruct (clean_up_model_shape category_
              (filter (is_target category_) models) m) as [Hr [Hf Hb]].
  repeat split; try assumption.
  intros f Hin Havoid. unfold parser.clean_up_model. simpl.
  apply in_map_iff. exists f. split; [|assumption].
  apply clean_up_field_avoids. intros t Ht. apply filter_In in Ht.
  destruct Ht as [Ht Hcat]. apply is_target_iff in Hcat. auto.
Qed.

Lemma _update_classes_map models category_ required optional :
  get category_fields category_ = Some required ->
  get optional_fields category_ = Some optional ->
  _update_classes models category_
  = inr (map (fun m => if is_target category_ m
                       then update_class category_ (required ++ optional) m
                       else m)
           models).
Proof.
  intros Hr Ho. unfold _update_classes. rewrite Hr, Ho.
  destruct (filter (is_target category_) models) as [|t ts] eqn:E;
    [|reflexivity].
  f_equal. rewrite <- (map_id models) at 1. apply map_ext_in.
  intros m Hm. destruct (is_target category_ m) eqn:Et; [|reflexivity].
  assert (Hin : In m (filter (is_target category_) models))
    by (apply filter_In; auto).
  rewrite E in Hin. destruct Hin.
Qed.

Lemma map_filter_names (test : string -> bool) (l : list DataModelField) :
  map field_name (filter (fun f => test (field_name f)) l)
  = filter test (map field_name l).
Proof.
  induction l as [|f l IH]; [reflexivity|]. simpl.
  destruct (test (field_name f)); simpl; now rewrite IH.
Qed.

Lemma _get_data_models_stages results :
  _get_data_models results
  = inr (_update_root_model_name _redfish_data
           (_update_url _redfish_data
              (_update_description _redfish_data redfish_description
                 (map (fun m => if is_target COLLECTION m
                                then update_class COLLECTION
                                       collection_fields_to_remove m
                                else m)
                    (map (fun m => if is_target RESOURCE m
                                   then update_class RESOURCE
                                          resource_fields_to_remove m
                                   else m)
                       (_clean_up_models
                          (_clean_up_models
                             (_update_collection_methods results) LINK)
                          ACTION)))))).
Proof.
  unfold parser._get_data_models.
  rewrite (@_update_classes_map _ RESOURCE ["odata_id"; "odata_type"]
             ["id"; "odata_context"; "description"; "name"])
    by reflexivity.
  rewrite (@_update_classes_map _ COLLECTION
             ["odata_id"; "odata_type"; "members_odata_count"; "members"]
             ["id"; "odata_context"; "description"; "name";
              "members_odata_next_link"])
    by reflexivity.
  reflexivity.
Qed.

End Stages.

End parser_facts.

(** ** The claims about the parser and the file processor, on examples *)

Module parser_claims.

Import PyStr parser parser_facts drafts.

(** C10 at the collection of drives. *)
Lemma category_is_last_match_witness :
  _fields_are_present drives_draft ["odata_id"] = true /\
  _fields_are_present drives_draft ["odata_id"; "odata_type"] = true /\
  category drives_draft = COLLECTION.
Proof.
  destruct (category_is_last_match drives_draft) as [_ [_ H]].
  assert (Hin : forall n,
             In n ["odata_id"; "odata_type"; "members_odata_count"; "members"]
             -> In n (map field_name (fields drives_draft))).
  { simpl. intros n [<-|[<-|[<-|[<-|[]]]]]; auto 10. }
  destruct H as [_ [H1 [_ [H2 H3]]]]; try (apply Hin; simpl; tauto).
  repeat split; assumption.
Defined.

End parser_claims.

Module processor_claims.

Import PyStr scanner processor services.

(** C8, on nine nodes that are all processed and saved: the module
    [service_root] is saved and imported by the index, but its class
    [ServiceRoot] is not in the list [__all__] of the index: it came when
    the line was full, and was dropped with the line break. *)
Theorem index_drops_name_at_line_break :
  let '(saved, init_data, index) :=
    generate_lib (fun _ _ => true) nine_services in
  In "service_root" saved /\
  In ("service_root", ["ServiceRoot"]) init_data /\
  contains "from .service_root import ServiceRoot" index = true /\
  contains (quote ++ "ServiceRoot" ++ quote)%string index = false /\
  contains (quote ++ "SessionService" ++ quote)%string index = true.
Proof. vm_compute. repeat split; auto 20. Qed.

End processor_claims.

(** ** More about the scanner *)

Module scanner_more.

Import PyStr Json scanner scanner_facts targets.

Section Scan.

Variable RNG : Type.
Variable sample_positions : RNG -> nat -> nat -> list nat * RNG.
Variable _max_models : Z.
Variable _max_collection : Z.
Variable _get_json : string -> exn + json.

Local Abbreviation scan_models :=
  (scanner.scan_models sample_positions _max_models _max_collection _get_json).

(** A property of the scanned URIs that holds of each URI when it is
    marked holds of all of them after a scan. *)
Section Marked.

Variable P : string -> Prop.
Hypothesis P_marked : forall ep,
  contains "jsonschemas" (lower ep) = false -> P ep.

Lemma scan_uris_marked call :
  (forall s u s' o, call s u = Some (s', o) ->
     Forall P (_scanned_uris s) -> Forall P (_scanned_uris s')) ->
  forall uris (s : Scanner RNG) s' o,
    scan_uris call s uris = Some (s', o) ->
    Forall P (_scanned_uris s) -> Forall P (_scanned_uris s').
Proof.
  intros Hcall. induction uris as [|u rest IH]; intros s s' o H Hs; simpl in H.
  - now inversion H; subst.
  - destruct (in_strs u (_scanned_uris s)); [eauto|].
    destruct (call s u) as [[s1 [|e]]|] eqn:E; try discriminate.
    + eapply IH; eauto.
    + inversion H; subst. eauto.
Qed.

Lemma scan_models_marked fuel :
  forall (s : Scanner RNG) entry_point parent s' o,
    scan_models fuel s entry_point parent = Some (s', o) ->
    Forall P (_scanned_uris s) -> Forall P (_scanned_uris s').
Proof.
  induction fuel as [|fuel IH]; intros s entry_point parent s' o H Hs;
    [discriminate|].
  simpl in H.
  destruct (Z.ltb (Z.of_nat (List.length (_redfish s))) _max_models);
    [|now inversion H; subst].
  destruct (negb (in_strs entry_point (_scanned_uris s)));
    [|now inversion H; subst].
  destruct entry_point as [| | |ep| |]; try (now inversion H; subst).
  destruct (contains "jsonschemas" (lower ep)) eqn:Hex; simpl in H;
    [now inversion H; subst|].
  assert (Hm : Forall P (_scanned_uris (mark_scanned ep s))).
  { simpl. apply Forall_app. split; [assumption|]. repeat constructor.
    now apply P_marked. }
  unfold scan_body in H. revert H Hm. generalize (mark_scanned ep s).
  intros s1 H Hm.
  destruct (_get_json ep) as [e|data_].
  { simpl in H. inversion H; subst. exact Hm. }
  destruct (_get_model_name data_) as [e|name_].
  { simpl in H. inversion H; subst. exact Hm. }
  set (model := match registrable parent name_ with
                | Some n => Some (mkRedfishData n data_ ep parent)
                | None => None
                end) in *.
  set (s2 := match model with Some m => register m s1 | None => s1 end) in *.
  assert (H2 : Forall P (_scanned_uris s2))
    by (unfold s2; destruct model; exact Hm).
  clearbody s2 model.
  destruct (_get_uris sample_positions _max_collection data_ (random_state s2))
    as [[e|uris] g].
  { simpl in H. inversion H; subst. exact H2. }
  destruct (scan_uris (fun self' uri => scan_models fuel self' uri model)
              (set_random_state g s2) uris) as [[s3 [|e]]|] eqn:E;
    simpl in H; try discriminate; inversion H; subst.
  - eapply scan_uris_marked; [| exact E | exact H2].
    intros ? ? ? ? Hc; cbv beta in Hc; eapply IH; eauto.
  - change (Forall P (_scanned_uris s3)).
    eapply scan_uris_marked; [| exact E | exact H2].
    intros ? ? ? ? Hc; cbv beta in Hc; eapply IH; eauto.
Qed.

End Marked.

(** X1.  After a scan by a new scanner no URI is in the list of scanned
    URIs twice, and none of them contains "jsonschemas", whatever the case
    of its letters. *)
Theorem scanned_once_and_never_schemas fuel (g : RNG) entry_point parent s' o :
  scan_models fuel (new_Scanner g) entry_point parent = Some (s', o) ->
  NoDup (_scanned_uris s') /\
  Forall (fun u => contains "jsonschemas" (lower u) = false)
    (_scanned_uris s').
Proof.
  intros H. split.
  - apply scan_models_extends in H. destruct H as [u p n Hs _ _ Hnd _ _ _ _ _].
    simpl in Hs. now rewrite Hs.
  - eapply scan_models_marked with (P := fun u =>
      contains "jsonschemas" (lower u) = false) in H; auto.
Qed.

(** X2.  After a scan by a new scanner every problem is about a scanned
    URI and no URI has two problems; so there are at most as many problems
    as scanned URIs. *)
Theorem problems_are_about_scanned_uris fuel (g : RNG) entry_point parent s' o :
  scan_models fuel (new_Scanner g) entry_point parent = Some (s', o) ->
  incl (map url (_problems s')) (_scanned_uris s') /\
  NoDup (map url (_problems s')) /\
  List.length (_problems s') <= List.length (_scanned_uris s').
Proof.
  intros H. apply scan_models_extends in H.
  destruct H as [u p n Hs Hp _ _ _ Hnd Hincl _ _].
  simpl in Hs, Hp. rewrite Hs, Hp.
  split; [assumption|]. split; [assumption|].
  rewrite <- (length_map url p). now apply NoDup_incl_length.
Qed.

(** X3.  After a scan by a new scanner every node of the collection has a
    scanned URI, holds the data that the GET of this URI answered, and
    bears the name that [_get_model_name] gives for this data. *)
Theorem nodes_hold_what_was_fetched fuel (g : RNG) entry_point parent s' o :
  scan_models fuel (new_Scanner g) entry_point parent = Some (s', o) ->
  Forall (fun n =>
            In (uri n) (_scanned_uris s') /\
            _get_json (uri n) = inr (data n) /\
            _get_model_name (data n) = inr (Some (name n)))
    (_redfish s').
Proof.
  intros H.
  assert (Hdata : Forall (fun n =>
            _get_json (uri n) = inr (data n) /\
            _get_model_name (data n) = inr (Some (name n))) (_redfish s')).
  { apply (@scan_models_invariant RNG sample_positions _max_models
             _max_collection _get_json
             (fun x => Forall (fun n =>
                _get_json (uri n) = inr (data n) /\
                _get_model_name (data n) = inr (Some (name n))) (_redfish x)))
      with (5 := H); simpl; auto.
    intros x m _ Hg Hn _ Hx. destruct (model_in m (_redfish x)); [assumption|].
    apply Forall_app. split; [assumption|]. repeat constructor; assumption. }
  apply scan_models_extends in H. destruct H as [u p n Hs _ Hr _ _ _ _ _ Hn].
  simpl in Hs, Hr. rewrite Hs. rewrite Hr in Hdata |- *.
  apply Forall_forall. intros x Hx. rewrite Forall_forall in Hdata, Hn.
  split; [now apply Hn | now apply Hdata].
Qed.

End Scan.

End scanner_more.

(** ** More about the names and the URIs got from the data *)

Module names_more.

Import PyStr Json scanner more.

Lemma contains_dot_cons c t :
  contains "." (String c t) = Ascii.eqb "." c || contains "." t.
Proof.
  change (contains "." (String c t))
    with (prefix "." (String c t) || contains "." t).
  f_equal.
  change (prefix "." (String c t))
    with (if ascii_dec "." c then prefix EmptyString t else false).
  destruct (ascii_dec "." c) as [<-|Hne].
  - rewrite Ascii.eqb_refl. now destruct t.
  - symmetry. now apply Ascii.eqb_neq.
Qed.

Lemma contains_dot_app a b :
  contains "." (a ++ b) = contains "." a || contains "." b.
Proof.
  induction a as [|c a IH].
  - simpl. now destruct b.
  - change (String c a ++ b)%string with (String c (a ++ b)).
    rewrite !contains_dot_cons, IH. now rewrite orb_assoc.
Qed.

Lemma split_from_not_nil sep cur s : split_from sep cur s <> [].
Proof.
  revert cur. induction s as [|c t IH]; intros cur; simpl; [discriminate|].
  destruct (Ascii.eqb c sep); [discriminate | apply IH].
Qed.

Lemma last_skip {A} (x : A) l d : l <> [] -> last (x :: l) d = last l d.
Proof. destruct l; [contradiction | reflexivity]. Qed.

Lemma last_split_no_dot s :
  forall cur, contains "." cur = false ->
    contains "." (last (split_from "." cur s) EmptyString) = false.
Proof.
  induction s as [|c t IH]; intros cur Hcur; [exact Hcur|].
  simpl. destruct (Ascii.eqb_spec c ".") as [->|Hne].
  - rewrite last_skip by apply split_from_not_nil. now apply IH.
  - apply IH. rewrite contains_dot_app, Hcur, contains_dot_cons.
    destruct (Ascii.eqb_spec "." c) as [<-|_]; [contradiction | reflexivity].
Qed.

Lemma append_dot_not_empty p : (p ++ ".")%string <> EmptyString.
Proof. destruct p; discriminate. Qed.

(** The piece after the last dot is empty for the empty string and for a
    string that ends with a dot only. *)
Lemma last_split_empty s :
  forall cur,
    last (split_from "." cur s) EmptyString = EmptyString <->
    (s = EmptyString /\ cur = EmptyString) \/
    (exists p, s = (p ++ ".")%string).
Proof.
  induction s as [|c t IH]; intros cur.
  - simpl. split.
    + intros ->. auto.
    + intros [[_ H]|[p H]]; [assumption|].
      symmetry in H. now apply append_dot_not_empty in H.
  - simpl. destruct (Ascii.eqb_spec c ".") as [->|Hne].
    + rewrite last_skip by apply split_from_not_nil. rewrite IH. split.
      * intros [[-> _]|[p ->]]; right.
        -- now exists EmptyString.
        -- now exists (String "." p).
      * intros [[H _]|[p H]]; [discriminate|].
        destruct p as [|c p]; simpl in H; inversion H; subst; eauto.
    + rewrite IH. split.
      * intros [[_ H]|[p ->]].
        -- destruct cur; discriminate.
        -- right. now exists (String c p).
      * intros [[H _]|[p H]]; [discriminate|].
        destruct p as [|c' p]; simpl in H; inversion H; subst;
          [contradiction|]. eauto.
Qed.

Lemma replace_from_no_dot old new :
  contains "." new = false ->
  forall s k, contains "." s = false ->
    contains "." (replace_from old new k s) = false.
Proof.
  intros Hnew. induction s as [|c t IH]; intros k Hs; [reflexivity|].
  rewrite contains_dot_cons in Hs. apply orb_false_iff in Hs.
  destruct Hs as [Hc Ht]. cbn [replace_from]. destruct k as [|k].
  - destruct (prefix old (String c t)).
    + rewrite contains_dot_app, Hnew. now apply IH.
    + rewrite contains_dot_cons, Hc. now apply IH.
  - now apply IH.
Qed.

Lemma replace_empty_iff old new s :
  new <> EmptyString ->
  (replace old new s = EmptyString <-> s = EmptyString).
Proof.
  intros Hnew. unfold replace. destruct s as [|c t]; [tauto|].
  cbn [replace_from]. destruct (prefix old (String c t)).
  - split; [|discriminate]. destruct new; [contradiction | discriminate].
  - split; discriminate.
Qed.

Lemma upper_char_not_lower c : is_lower (upper_char c) = false.
Proof.
  destruct c as [[] [] [] [] [] [] [] []]; vm_compute; reflexivity.
Qed.

Lemma upper_char_dot c : Ascii.eqb "." (upper_char c) = Ascii.eqb "." c.
Proof.
  destruct c as [[] [] [] [] [] [] [] []]; vm_compute; reflexivity.
Qed.

(** X4.  What [_get_model_name] gives for the type of the data.  Data
    that is no dict, and a type that is neither a str nor null, raise
    [AttributeError]; no type, or null, gives no name.  A type that is a
    str raises [IndexError] when it is empty or ends with a dot; any other
    type made of ASCII characters gives a name that is not empty, has no
    dot and does not start with one of the letters [a] to [z]. *)
Theorem _get_model_name_cases :
  (forall data_, (forall d, data_ <> JDict d) ->
     _get_model_name data_ = inl AttributeError) /\
  (forall d,
     lookup "@odata.type" d = None \/ lookup "@odata.type" d = Some JNull ->
     _get_model_name (JDict d) = inr None) /\
  (forall d v, lookup "@odata.type" d = Some v ->
     v <> JNull -> (forall tag, v <> JStr tag) ->
     _get_model_name (JDict d) = inl AttributeError) /\
  (forall d tag, lookup "@odata.type" d = Some (JStr tag) ->
     (tag = EmptyString \/ (exists p, tag = (p ++ ".")%string) ->
      _get_model_name (JDict d) = inl IndexError) /\
     (tag <> EmptyString -> (forall p, tag <> (p ++ ".")%string) ->
      ascii_only tag = true ->
      exists c rest,
        _get_model_name (JDict d) = inr (Some (String c rest)) /\
        is_lower c = false /\
        contains "." (String c rest) = false)).
Proof.
  split; [|split; [|split]].
  - intros [| | | | |d] H; try reflexivity. now destruct (H d).
  - intros d [H|H]; simpl; now rewrite H.
  - intros d v H Hnull Hstr. simpl. rewrite H.
    destruct v; try reflexivity; [contradiction | now destruct (Hstr s)].
  - intros d tag H.
    set (piece := last (split "." tag) EmptyString).
    set (value := replace "entry" "Entry"
                    (replace "collection" "Collection" piece)).
    assert (Hname : _get_model_name (JDict d)
                    = match value with
                      | EmptyString => inl IndexError
                      | String c rest => inr (Some (String (upper_char c) rest))
                      end)
      by (simpl; rewrite H; reflexivity).
    assert (Hempty : value = EmptyString <->
                     tag = EmptyString \/
                     (exists p, tag = (p ++ ".")%string)).
    { unfold value. rewrite !replace_empty_iff by discriminate.
      unfold piece, split. rewrite last_split_empty. tauto. }
    assert (Hdot : contains "." value = false).
    { unfold value. apply replace_from_no_dot; [reflexivity|].
      apply replace_from_no_dot; [reflexivity|].
      unfold piece, split. now apply last_split_no_dot. }
    rewrite Hname. split.
    + intros Ht. apply Hempty in Ht. now rewrite Ht.
    + intros Hne Hend _. destruct value as [|c rest] eqn:Ev.
      * destruct (proj1 Hempty eq_refl) as [Ht|[p Ht]];
          [contradiction | now destruct (Hend p)].
      * exists (upper_char c), rest. split; [reflexivity|].
        split; [apply upper_char_not_lower|].
        rewrite contains_dot_cons in Hdot |- *.
        now rewrite upper_char_dot.
Qed.

End names_more.

(** ** More about the URIs got from the data *)

Module uris_more.

Import PyStr Json scanner scanner_facts more.

Lemma json_nested_ind (P : json -> Prop) :
  P JNull -> (forall b, P (JBool b)) -> (forall q, P (JNum q)) ->
  (forall s, P (JStr s)) ->
  (forall l, Forall P l -> P (JList l)) ->
  (forall d, Forall (fun kv => P (snd kv)) d -> P (JDict d)) ->
  forall j, P j.
Proof.
  intros H1 H2 H3 H4 H5 H6. fix IH 1.
  intros [|b|q|s|l|d]; [exact H1|apply H2|apply H3|apply H4| |].
  - apply H5.
    exact ((fix all (l : list json) : Forall P l :=
              match l with
              | [] => Forall_nil P
              | x :: r => Forall_cons x (IH x) (all r)
              end) l).
  - apply H6.
    exact ((fix all (d : list (string * json))
              : Forall (fun kv => P (snd kv)) d :=
              match d with
              | [] => Forall_nil _
              | kv :: r =>
                  Forall_cons (P := fun kv => P (snd kv)) kv
                    (IH (snd kv)) (all r)
              end) d).
Qed.

Lemma select_incl {A} (l : list A) positions : incl (select l positions) l.
Proof.
  unfold select. intros x Hx. apply in_flat_map in Hx.
  destruct Hx as [i [_ Hx]]. destruct (nth_error l i) eqn:E; [|easy].
  destruct Hx as [<-|[]]. eapply nth_error_In. exact E.
Qed.

Lemma flat_map_incl {A B} (f : A -> list B) a b :
  incl a b -> incl (flat_map f a) (flat_map f b).
Proof.
  intros H x Hx. apply in_flat_map in Hx. destruct Hx as [y [Hy Hx]].
  apply in_flat_map. exists y. auto.
Qed.

Section Uris.

Variable RNG : Type.
Variable sample_positions : RNG -> nat -> nat -> list nat * RNG.
Variable _max_collection : Z.

Local Abbreviation _get_uris :=
  (scanner._get_uris sample_positions _max_collection).
Local Abbreviation extend_with_members :=
  (scanner.extend_with_members sample_positions _max_collection).
Local Abbreviation visit_items :=
  (scanner.visit_items sample_positions _max_collection).

Local Abbreviation sound data_ :=
  (forall (g : RNG) uris g',
      _get_uris data_ g = (inr uris, g') -> incl uris (odata_ids data_)).

Lemma extend_all_sound xs :
  Forall (fun x => sound x) xs ->
  forall result (g : RNG) r g',
    extend_all (map _get_uris xs) result g = (inr r, g') ->
    incl r (result ++ flat_map odata_ids xs).
Proof.
  induction 1 as [|x xs Hx _ IH]; intros result g r g' H; simpl in H.
  - inversion H; subst. rewrite app_nil_r. apply incl_refl.
  - unfold bind in H. destruct (_get_uris x g) as [[e|u] g1] eqn:E;
      [discriminate|].
    apply IH in H. specialize (Hx _ _ _ E). simpl.
    intros y Hy. apply H in Hy. rewrite !in_app_iff in Hy |- *.
    destruct Hy as [[Hy|Hy]|Hy]; auto.
Qed.

Lemma extend_all_raising (calls : list (M RNG (list json))) result g r g' :
  (forall c, In c calls -> c = raise AttributeError) ->
  extend_all calls result g = (inr r, g') -> r = result.
Proof.
  destruct calls as [|c rest]; intros Hc H; simpl in H.
  - now inversion H.
  - rewrite (Hc c (or_introl eq_refl)) in H. discriminate.
Qed.

Lemma extend_with_members_sound members :
  (forall l, members = JList l -> Forall (fun x => sound x) l) ->
  forall result (g : RNG) r g',
    extend_with_members _get_uris members result g = (inr r, g') ->
    incl r (result ++ odata_ids members).
Proof.
  intros Hl result g r g' H. unfold scanner.extend_with_members in H.
  destruct members as [| | |s|l|d]; simpl in H; try discriminate.
  - (* a str *)
    assert (Hraise : forall positions c,
               In c (select (map (fun _ : string =>
                                    @raise RNG (list json) AttributeError)
                               (chars s)) positions) ->
               c = raise AttributeError).
    { intros positions c Hc. apply select_incl in Hc.
      apply in_map_iff in Hc. now destruct Hc as [_ [<- _]]. }
    assert (r = result) as ->; [|apply incl_appl, incl_refl].
    destruct (_max_collection <? _)%Z.
    + unfold bind, random_sample in H. simpl in H.
      destruct (_ || _); [discriminate|].
      destruct (sample_positions g _ _) as [positions g1].
      eapply extend_all_raising; [|exact H]. apply Hraise.
    + eapply extend_all_raising; [|exact H].
      intros c Hc. apply in_map_iff in Hc. now destruct Hc as [_ [<- _]].
  - (* a list *)
    specialize (Hl l eq_refl). destruct (_max_collection <? _)%Z.
    + unfold bind, random_sample in H. simpl in H.
      destruct (_ || _); [discriminate|].
      destruct (sample_positions g _ _) as [positions g1].
      rewrite select_map in H. apply extend_all_sound in H.
      * intros y Hy. apply H in Hy. rewrite !in_app_iff in Hy |- *.
        destruct Hy as [Hy|Hy]; [auto|]. right.
        eapply flat_map_incl; [|exact Hy]. apply select_incl.
      * rewrite Forall_forall in Hl |- *. intros x Hx. apply Hl.
        eapply select_incl. exact Hx.
    + now apply extend_all_sound in H.
  - (* a dict *)
    assert (r = result) as ->; [|apply incl_appl, incl_refl].
    destruct (_max_collection <? _)%Z.
    + unfold bind, random_sample in H. simpl in H. discriminate.
    + eapply extend_all_raising; [|exact H].
      intros c Hc. apply in_map_iff in Hc. now destruct Hc as [_ [<- _]].
Qed.

Lemma visit_items_sound items :
  Forall (fun kv => sound (snd kv) /\
                    forall l, snd kv = JList l -> Forall (fun x => sound x) l)
    items ->
  forall result (g : RNG) r g',
    visit_items _get_uris items result g = (inr r, g') ->
    incl r (result ++ odata_ids (JDict items)).
Proof.
  induction 1 as [|[key value] rest [Hv Hl] _ IH]; intros result g r g' H.
  - simpl in H. inversion H; subst. rewrite app_nil_r. apply incl_refl.
  - cbn [scanner.visit_items] in H. simpl snd in Hv, Hl.
    set (result1 := if String.eqb key "@odata.id" && negb (py_in value result)
                    then result ++ [value] else result) in H.
    assert (H1 : incl result1
                   (result ++ (if String.eqb key "@odata.id" then [value]
                               else []))).
    { unfold result1. destruct (String.eqb key "@odata.id"); simpl.
      - destruct (negb (py_in value result));
          [apply incl_refl | apply incl_appl, incl_refl].
      - rewrite app_nil_r. apply incl_refl. }
    clearbody result1. unfold bind at 1 in H.
    destruct ((if String.eqb key "Members"
               then extend_with_members _get_uris value result1
               else ret result1) g) as [[e|result2] g2] eqn:E2;
      [discriminate|].
    assert (H2 : incl result2 (result1 ++ odata_ids value)).
    { destruct (String.eqb key "Members").
      - now apply extend_with_members_sound in E2.
      - unfold ret in E2. inversion E2; subst. apply incl_appl, incl_refl. }
    unfold bind at 1 in H.
    destruct ((match value with
               | JDict _ => bind (_get_uris value)
                              (fun uris => ret (result2 ++ uris))
               | _ => ret result2
               end) g2) as [[e|result3] g3] eqn:E3; [discriminate|].
    assert (H3 : incl result3 (result2 ++ odata_ids value)).
    { destruct value; try (unfold ret in E3; inversion E3; subst;
                           apply incl_appl, incl_refl).
      unfold bind, ret in E3.
      destruct (_get_uris (JDict d) g2) as [[e|u] g4] eqn:E4; [discriminate|].
      inversion E3; subst. apply Hv in E4.
      apply incl_app; [apply incl_appl, incl_refl | now apply incl_appr]. }
    apply IH in H.
    change (odata_ids (JDict ((key, value) :: rest)))
      with (((if String.eqb key "@odata.id" then [value] else [])
             ++ odata_ids value) ++ odata_ids (JDict rest)).
    intros y Hy. apply H in Hy.
    apply in_app_or in Hy.
    destruct Hy as [Hy|Hy]; [|rewrite !in_app_iff; tauto].
    apply H3 in Hy. apply in_app_or in Hy.
    destruct Hy as [Hy|Hy]; [|rewrite !in_app_iff; tauto].
    apply H2 in Hy. apply in_app_or in Hy.
    destruct Hy as [Hy|Hy]; [|rewrite !in_app_iff; tauto].
    apply H1 in Hy. apply in_app_or in Hy. rewrite !in_app_iff. tauto.
Qed.

Lemma _get_uris_incl data_ (g : RNG) uris g' :
  _get_uris data_ g = (inr uris, g') -> incl uris (odata_ids data_).
Proof.
  revert g uris g'.
  assert (H : sound data_ /\
              forall l, data_ = JList l -> Forall (fun x => sound x) l);
    [|exact (proj1 H)].
  induction data_ as [|b|q|s|l IH|d IH] using json_nested_ind;
    (split; [|intros l' Hl'; try discriminate]);
    try (intros g uris g' H; discriminate H).
  - inversion Hl'; subst. eapply Forall_impl; [|exact IH].
    intros x Hx. exact (proj1 Hx).
  - intros g uris g' H. cbn [scanner._get_uris] in H.
    apply visit_items_sound in H; [exact H|].
    eapply Forall_impl; [|exact IH]. intros kv Hkv. exact Hkv.
Qed.

(** X5.  Every URI that [_get_uris] gives is the value of a key
    ['@odata.id'] somewhere in the data. *)
Theorem _get_uris_gives_odata_ids data_ (g : RNG) uris g' :
  _get_uris data_ g = (inr uris, g') -> incl uris (odata_ids data_).
Proof. apply _get_uris_incl. Qed.

Hypothesis width_negative : (_max_collection < 0)%Z.

Lemma extend_with_members_negative l result (g : RNG) :
  extend_with_members _get_uris (JList l) result g = (inl ValueError, g).
Proof.
  unfold scanner.extend_with_members. simpl.
  replace (_max_collection <? Z.of_nat (List.length (map _get_uris l)))%Z
    with true by (symmetry; apply Z.ltb_lt; lia).
  unfold bind, random_sample. simpl.
  replace (_max_collection <? 0)%Z with true
    by (symmetry; apply Z.ltb_lt; lia).
  reflexivity.
Qed.

Lemma visit_items_negative items :
  (exists l, In ("Members", JList l) items) ->
  forall result (g : RNG),
    exists e g', visit_items _get_uris items result g = (inl e, g').
Proof.
  induction items as [|[key value] rest IH]; intros [l Hin] result g;
    [destruct Hin|].
  cbn [scanner.visit_items].
  set (result1 := if String.eqb key "@odata.id" && negb (py_in value result)
                  then result ++ [value] else result).
  clearbody result1. destruct Hin as [Heq|Hin].
  - inversion Heq; subst. cbn [String.eqb Ascii.eqb Bool.eqb].
    unfold bind at 1. rewrite extend_with_members_negative. eauto.
  - unfold bind at 1.
    destruct ((if String.eqb key "Members"
               then extend_with_members _get_uris value result1
               else ret result1) g) as [[e|result2] g2]; [eauto|].
    unfold bind at 1.
    destruct ((match value with
               | JDict _ => bind (_get_uris value)
                              (fun uris => ret (result2 ++ uris))
               | _ => ret result2
               end) g2) as [[e|result3] g3]; [eauto|].
    apply IH. eauto.
Qed.

End Uris.

Section Negative.

Variable RNG : Type.
Variable sample_positions : RNG -> nat -> nat -> list nat * RNG.
Variable _max_models : Z.
Variable _max_collection : Z.
Variable _get_json : string -> exn + json.

(** X6.  With a negative width, the call for a URI whose data has a list
    under ['Members'] marks the URI, records one problem for it and
    returns without scanning any URI of the data. *)
Theorem negative_width_makes_collections_problems
  fuel (s : Scanner RNG) ep parent items l :
  (_max_collection < 0)%Z ->
  (Z.of_nat (List.length (_redfish s)) < _max_models)%Z ->
  ~ In ep (_scanned_uris s) ->
  contains "jsonschemas" (lower ep) = false ->
  _get_json ep = inr (JDict items) ->
  In ("Members", JList l) items ->
  exists e s',
    scan_models sample_positions _max_models _max_collection _get_json
      (S fuel) s (JStr ep) parent = Some (s', Returned) /\
    _scanned_uris s' = _scanned_uris s ++ [ep] /\
    _problems s' = _problems s ++ [mkProblem ep e].
Proof.
  intros Hneg Hlt Hnew Hex Hget Hin.
  rewrite scan_models_frame by assumption.
  unfold scan_body. rewrite Hget.
  destruct (_get_model_name (JDict items)) as [e|name_].
  { simpl. eexists. eexists. split; [reflexivity|]. split; reflexivity. }
  cbv zeta.
  set (s2 := match _ with Some m => register m _ | None => _ end).
  assert (H2 : _scanned_uris s2 = _scanned_uris s ++ [ep] /\
               _problems s2 = _problems s).
  { unfold s2. destruct (registrable parent name_); split; reflexivity. }
  destruct H2 as [Hs2 Hp2]. clearbody s2.
  destruct (@visit_items_negative _ sample_positions _ Hneg items
              (ex_intro _ l Hin) [] (random_state s2)) as [e [g' He]].
  cbn [scanner._get_uris]. rewrite He. simpl.
  eexists. eexists. split; [reflexivity|]. simpl. now rewrite Hs2, Hp2.
Qed.

End Negative.

End uris_more.

(** ** Where the scanned URIs come from *)

Module origin_more.

Import PyStr Json scanner scanner_facts more uris_more.

Section Origin.

Variable RNG : Type.
Variable sample_positions : RNG -> nat -> nat -> list nat * RNG.
Variable _max_models : Z.
Variable _max_collection : Z.
Variable _get_json : string -> exn + json.
Variable root : json.

Local Abbreviation scan_models :=
  (scanner.scan_models sample_positions _max_models _max_collection _get_json).
Local Abbreviation known scanned u :=
  (JStr u = root \/ advertised _get_json scanned u).
Local Abbreviation all_known s :=
  (Forall (fun u => known (_scanned_uris s) u) (_scanned_uris s)).

Lemma known_more scanned scanned' u :
  incl scanned scanned' -> known scanned u -> known scanned' u.
Proof.
  intros Hi [H|[v [d [Hv H]]]]; [now left|].
  right. exists v, d. split; [now apply Hi | assumption].
Qed.

Lemma scan_uris_known call ep data_ :
  _get_json ep = inr data_ ->
  (forall (s : Scanner RNG) u s' o, call s u = Some (s', o) ->
     incl (_scanned_uris s) (_scanned_uris s') /\
     (all_known s ->
      (forall u', u = JStr u' -> known (_scanned_uris s) u') ->
      all_known s')) ->
  forall uris s s' o,
    scan_uris call s uris = Some (s', o) ->
    incl uris (odata_ids data_) ->
    In ep (_scanned_uris s) -> all_known s -> all_known s'.
Proof.
  intros Hget Hcall.
  induction uris as [|u rest IH]; intros s s' o H Hin Hep Hs; simpl in H.
  - now inversion H; subst.
  - assert (Hrest : incl rest (odata_ids data_))
      by (intros x Hx; apply Hin; now right).
    destruct (in_strs u (_scanned_uris s)); [eauto|].
    destruct (call s u) as [[s1 [|e]]|] eqn:E; try discriminate.
    + destruct (Hcall _ _ _ _ E) as [Hgrow Hkeep].
      eapply IH; [exact H | exact Hrest | now apply Hgrow |].
      apply Hkeep; [assumption|]. intros u' ->. right.
      exists ep, data_. repeat split; try assumption. apply Hin. now left.
    + inversion H; subst. destruct (Hcall _ _ _ _ E) as [_ Hkeep].
      apply Hkeep; [assumption|]. intros u' ->. right.
      exists ep, data_. repeat split; try assumption. apply Hin. now left.
Qed.

Lemma scan_models_known fuel :
  forall (s : Scanner RNG) entry_point parent s' o,
    scan_models fuel s entry_point parent = Some (s', o) ->
    all_known s ->
    (forall u, entry_point = JStr u -> known (_scanned_uris s) u) ->
    all_known s'.
Proof.
  induction fuel as [|fuel IH]; intros s entry_point parent s' o H Hs Hentry;
    [discriminate|].
  simpl in H.
  destruct (Z.ltb (Z.of_nat (List.length (_redfish s))) _max_models);
    [|now inversion H; subst].
  destruct (negb (in_strs entry_point (_scanned_uris s)));
    [|now inversion H; subst].
  destruct entry_point as [| | |ep| |]; try (now inversion H; subst).
  destruct (contains "jsonschemas" (lower ep)) eqn:Hex; simpl in H;
    [now inversion H; subst|].
  assert (Hm : all_known (mark_scanned ep s)).
  { simpl. apply Forall_app. split.
    - eapply Forall_impl; [|exact Hs]. intros u Hu.
      eapply known_more; [|exact Hu]. apply incl_appl, incl_refl.
    - constructor; [|constructor].
      eapply known_more; [|apply Hentry; reflexivity].
      apply incl_appl, incl_refl. }
  assert (Hep : In ep (_scanned_uris (mark_scanned ep s)))
    by (simpl; apply in_or_app; right; now left).
  unfold scan_body in H. revert H Hm Hep. generalize (mark_scanned ep s).
  intros s1 H Hm Hep.
  destruct (_get_json ep) as [e|data_] eqn:Hget.
  { simpl in H. inversion H; subst. exact Hm. }
  destruct (_get_model_name data_) as [e|name_].
  { simpl in H. inversion H; subst. exact Hm. }
  set (model := match registrable parent name_ with
                | Some n => Some (mkRedfishData n data_ ep parent)
                | None => None
                end) in *.
  set (s2 := match model with Some m => register m s1 | None => s1 end) in *.
  assert (H2 : all_known s2 /\ In ep (_scanned_uris s2))
    by (unfold s2; destruct model; split; assumption).
  destruct H2 as [H2 Hep2]. clearbody s2 model.
  destruct (_get_uris sample_positions _max_collection data_ (random_state s2))
    as [[e|uris] g] eqn:Huris.
  { simpl in H. inversion H; subst. exact H2. }
  apply _get_uris_incl in Huris.
  assert (Hcall : forall (x : Scanner RNG) u x' o',
             (fun self' uri => scan_models fuel self' uri model) x u
             = Some (x', o') ->
             incl (_scanned_uris x) (_scanned_uris x') /\
             (all_known x ->
              (forall u', u = JStr u' -> known (_scanned_uris x) u') ->
              all_known x')).
  { intros x u x' o' Hc. cbv beta in Hc. split.
    - apply scan_models_extends in Hc.
      destruct Hc as [us ps ns Hsc _ _ _ _ _ _ _ _]. rewrite Hsc.
      apply incl_appl, incl_refl.
    - intros Hx Hu. eapply IH; eauto. }
  destruct (scan_uris (fun self' uri => scan_models fuel self' uri model)
              (set_random_state g s2) uris) as [[s3 [|e]]|] eqn:E;
    simpl in H; try discriminate; inversion H; subst.
  - eapply (@scan_uris_known _ ep data_ Hget Hcall uris); eauto.
  - change (all_known s3).
    eapply (@scan_uris_known _ ep data_ Hget Hcall uris); eauto.
Qed.

(** X7.  After a scan by a new scanner every scanned URI is the entry
    point of the scan or the value of a key ['@odata.id'] in the data that
    the GET of a scanned URI answered. *)
Theorem scanned_uris_were_advertised fuel (g : RNG) parent s' o :
  scan_models fuel (new_Scanner g) root parent = Some (s', o) ->
  Forall (fun u => JStr u = root \/ advertised _get_json (_scanned_uris s') u)
    (_scanned_uris s').
Proof.
  intros H. eapply scan_models_known; [exact H | constructor |].
  intros u ->. now left.
Qed.

End Origin.

End origin_more.

(** ** More about the names of the files *)

Module files_more.

Import PyStr scanner processor more.

Lemma without_sub_before_word s :
  forall copy lowers,
    without "_" (sub_before_word copy lowers s) = without "_" s.
Proof.
  induction s as [|c t IH]; intros copy lowers; [reflexivity|].
  cbn [sub_before_word]. destruct copy as [|k].
  - destruct (lowers && is_lower c).
    + cbn [without]. now rewrite IH.
    + destruct t as [|u [|l t']];
        try (cbn [without]; now rewrite IH).
      destruct (negb (Ascii.eqb c (ascii_of_nat 10)) && is_upper u
                && is_lower l).
      * cbn [without]. change (Ascii.eqb "_" "_") with true.
        cbv iota. now rewrite IH.
      * cbn [without]. now rewrite IH.
  - cbn [without]. now rewrite IH.
Qed.

Lemma without_sub_double_underscore n :
  forall s, String.length s <= n ->
    without "_" (sub_double_underscore s) = without "_" s.
Proof.
  induction n as [|n IH]; intros s Hl; destruct s as [|c t];
    try reflexivity; [simpl in Hl; lia|].
  simpl in Hl. apply le_S_n in Hl.
  cbn [sub_double_underscore]. destruct t as [|c' [|u t']].
  - reflexivity.
  - cbn [without]. now rewrite (IH (String c' EmptyString)).
  - destruct (Ascii.eqb c "_" && Ascii.eqb c' "_" && is_upper u) eqn:E.
    + apply andb_true_iff in E. destruct E as [E _].
      apply andb_true_iff in E. destruct E as [E1 E2].
      cbn [without]. rewrite E1, E2.
      change (Ascii.eqb "_" "_") with true. cbv iota.
      change (without "_" (sub_double_underscore (String u t'))
              = without "_" (String u t')).
      apply IH. simpl in Hl |- *. lia.
    + cbn [without]. now rewrite (IH (String c' (String u t'))).
Qed.

Lemma without_sub_before_capital s :
  without "_" (sub_before_capital s) = without "_" s.
Proof.
  induction s as [|c t IH]; [reflexivity|].
  cbn [sub_before_capital]. destruct t as [|u t']; [reflexivity|].
  destruct ((is_lower c || is_digit c) && is_upper u).
  - cbn [without]. change (Ascii.eqb "_" "_") with true. cbv iota.
    now rewrite IH.
  - cbn [without]. now rewrite IH.
Qed.

Lemma lower_char_underscore c :
  Ascii.eqb (lower_char c) "_" = Ascii.eqb c "_".
Proof.
  destruct c as [[] [] [] [] [] [] [] []]; vm_compute; reflexivity.
Qed.

Lemma lower_char_not_upper c : is_upper (lower_char c) = false.
Proof.
  destruct c as [[] [] [] [] [] [] [] []]; vm_compute; reflexivity.
Qed.

Lemma without_lower s : without "_" (lower s) = lower (without "_" s).
Proof.
  induction s as [|c t IH]; [reflexivity|].
  cbn [lower without]. rewrite lower_char_underscore.
  destruct (Ascii.eqb c "_"); [assumption|]. cbn [lower]. now rewrite IH.
Qed.

Lemma lower_no_capital s :
  Forall (fun c => is_upper c = false) (list_ascii_of_string (lower s)).
Proof.
  induction s as [|c t IH]; [constructor|].
  cbn [lower list_ascii_of_string]. constructor; [|assumption].
  apply lower_char_not_upper.
Qed.

Lemma lower_char_ascii c :
  (nat_of_ascii c <? 128) = true -> (nat_of_ascii (lower_char c) <? 128) = true.
Proof.
  destruct c as [[] [] [] [] [] [] [] []]; vm_compute; auto.
Qed.

Lemma lower_ascii_only s : ascii_only s = true -> ascii_only (lower s) = true.
Proof.
  unfold ascii_only. induction s as [|c t IH]; [reflexivity|].
  cbn [lower list_ascii_of_string forallb]. intros H.
  apply andb_true_iff in H. destruct H as [Hc Ht].
  rewrite (lower_char_ascii c Hc). now apply IH.
Qed.

Lemma ascii_only_without s :
  ascii_only (without "_" s) = ascii_only s.
Proof.
  unfold ascii_only. induction s as [|c t IH]; [reflexivity|].
  cbn [without]. destruct (Ascii.eqb_spec c "_") as [->|_].
  - rewrite IH. reflexivity.
  - cbn [list_ascii_of_string forallb]. now rewrite IH.
Qed.

(** X8.  For a node whose full name is made of ASCII characters, the
    file name is made of ASCII characters, none of them one of the letters
    [A] to [Z], and, the underscores of both left out, it is the full name
    of the node in small letters: the three substitutions only put in and
    take out underscores. *)
Theorem file_name_is_full_name_in_small_letters (n : RedfishData) :
  ascii_only (full_name n) = true ->
  ascii_only (file_name n) = true /\
  Forall (fun c => is_upper c = false) (list_ascii_of_string (file_name n)) /\
  without "_" (file_name n) = lower (without "_" (full_name n)).
Proof.
  intros Hascii.
  assert (Heq : without "_" (file_name n) = lower (without "_" (full_name n))).
  { unfold file_name.
    rewrite without_lower, without_sub_before_capital.
    rewrite (@without_sub_double_underscore _ _ (le_n _)).
    now rewrite without_sub_before_word. }
  split; [|split; [unfold file_name; apply lower_no_capital | exact Heq]].
  rewrite <- ascii_only_without, Heq.
  apply lower_ascii_only. now rewrite ascii_only_without.
Qed.

End files_more.

(** ** More about the file processor *)

Module processor_more.

Import PyStr scanner processor more.

Section Library.

Variable processed : RedfishData -> option RedfishData -> bool.
Variable all : list RedfishData.

Local Abbreviation fine saved init_data :=
  (map fst init_data = saved /\ Forall (entry_of processed all) init_data).

Lemma fine_more saved init_data entry :
  fine saved init_data -> entry_of processed all entry ->
  fine (saved ++ [fst entry]) (init_data ++ [entry]).
Proof.
  intros [Hs Hi] He. split.
  - rewrite map_app, Hs. reflexivity.
  - apply Forall_app. split; [assumption|]. constructor; [assumption|constructor].
Qed.

Lemma pair_elements_fine datas :
  incl datas all ->
  forall processed_data saved init_data processed_data' saved' init_data',
    pair_elements processed datas processed_data saved init_data
    = (processed_data', saved', init_data') ->
    fine saved init_data -> fine saved' init_data'.
Proof.
  induction datas as [|data_ rest IH]; intros Hin pd saved init pd' saved' init'
    H Hf.
  - simpl in H. inversion H; subst. exact Hf.
  - assert (Hrest : incl rest all) by (intros x Hx; apply Hin; now right).
    assert (Hdata : In data_ all) by (apply Hin; now left).
    cbn [pair_elements] in H.
    destruct (category data_) eqn:Hc; try (eapply IH; eauto; fail).
    destruct (parent data_) as [parent_|] eqn:Hp; [|eapply IH; eauto].
    destruct (negb (model_in data_ pd) && negb (model_in parent_ pd));
      [|eapply IH; eauto].
    cbv zeta in H.
    destruct (processed data_ None) eqn:E1; cbn [andb] in H;
      [|eapply IH; eauto].
    destruct (processed parent_ (Some data_)) eqn:E2; [|eapply IH; eauto].
    eapply IH; [exact Hrest | exact H |].
    apply (@fine_more saved init
             (file_name parent_, [full_name parent_; full_name data_]));
      [exact Hf|].
    right. exists data_, parent_. repeat split; assumption.
Qed.

Lemma single_models_fine datas :
  incl datas all ->
  forall processed_data saved init_data processed_data' saved' init_data',
    single_models processed datas processed_data saved init_data
    = (processed_data', saved', init_data') ->
    fine saved init_data -> fine saved' init_data'.
Proof.
  induction datas as [|data_ rest IH]; intros Hin pd saved init pd' saved' init'
    H Hf.
  - simpl in H. inversion H; subst. exact Hf.
  - assert (Hrest : incl rest all) by (intros x Hx; apply Hin; now right).
    assert (Hdata : In data_ all) by (apply Hin; now left).
    cbn [single_models] in H.
    destruct (negb (model_in data_ pd)); [|eapply IH; eauto].
    cbv zeta in H.
    destruct (processed data_ None) eqn:E1; [|eapply IH; eauto].
    eapply IH; [exact Hrest | exact H |].
    apply (@fine_more saved init (file_name data_, [full_name data_]));
      [exact Hf|].
    left. exists data_. repeat split; assumption.
Qed.

End Library.

(** X9.  [generate_lib] gives [__init__.py] one entry for each module it
    saves, in the order in which it saves them, and the entry of [common]
    after them.  Each entry but the last is the module of a node with the
    class of the node, or the module of the parent of an element with the
    classes of the parent and of the element, and the processing of these
    nodes gave a result. *)
Theorem index_has_an_entry_for_each_module processed _redfish_datas
  saved init_data text :
  generate_lib processed _redfish_datas = (saved, init_data, text) ->
  map fst init_data = saved ++ ["common"] /\
  exists entries,
    init_data = entries ++ [("common", ["DataManager"])] /\
    Forall (entry_of processed _redfish_datas) entries.
Proof.
  unfold generate_lib. intros H.
  destruct (pair_elements processed _redfish_datas [] [] [])
    as [[pd1 saved1] init1] eqn:E1.
  destruct (single_models processed _redfish_datas pd1 saved1 init1)
    as [[pd2 saved2] init2] eqn:E2.
  inversion H; subst. clear H.
  assert (H1 : map fst init1 = saved1 /\
               Forall (entry_of processed _redfish_datas) init1).
  { eapply pair_elements_fine; [apply incl_refl | exact E1 |].
    split; [reflexivity | constructor]. }
  assert (H2 : map fst init2 = saved /\
               Forall (entry_of processed _redfish_datas) init2).
  { eapply single_models_fine; [apply incl_refl | exact E2 | exact H1]. }
  destruct H2 as [Hs Hi]. split.
  - rewrite map_app, Hs. reflexivity.
  - exists init2. split; [reflexivity | assumption].
Qed.

End processor_more.

(** ** More about the text of [__init__.py] *)

Module index_more.

Import PyStr scanner processor more.

Lemma append_assoc (a b c : string) : ((a ++ b) ++ c = a ++ b ++ c)%string.
Proof. induction a as [|x a IH]; [reflexivity|]. simpl. now rewrite IH. Qed.

Lemma append_empty (a : string) : (a ++ EmptyString)%string = a.
Proof. induction a as [|x a IH]; [reflexivity|]. simpl. now rewrite IH. Qed.

Lemma length_append (a b : string) :
  String.length (a ++ b) = String.length a + String.length b.
Proof. induction a as [|x a IH]; [reflexivity|]. simpl. now rewrite IH. Qed.

Lemma concat_cons (x : string) l :
  String.concat EmptyString (x :: l)
  = (x ++ String.concat EmptyString l)%string.
Proof. destruct l; simpl; [now rewrite append_empty | reflexivity]. Qed.

(** *** The sort *)

Lemma ascii_compare_lt a b :
  Ascii.compare a b = Lt <-> (N_of_ascii a < N_of_ascii b)%N.
Proof. unfold Ascii.compare. apply N.compare_lt_iff. Qed.

Lemma ascii_compare_refl a : Ascii.compare a a = Eq.
Proof. unfold Ascii.compare. apply N.compare_refl. Qed.

Lemma string_compare_refl s : String.compare s s = Eq.
Proof.
  induction s as [|c s IH]; [reflexivity|]. simpl.
  now rewrite ascii_compare_refl.
Qed.

Lemma string_lt_trans a :
  forall b c, String.compare a b = Lt -> String.compare b c = Lt ->
    String.compare a c = Lt.
Proof.
  induction a as [|x a IH]; intros [|y b] [|z c]; simpl; try congruence.
  destruct (Ascii.compare x y) eqn:Exy; try discriminate;
    destruct (Ascii.compare y z) eqn:Eyz; try discriminate; intros Hab Hbc.
  - apply Ascii.compare_eq_iff in Exy, Eyz. subst.
    rewrite ascii_compare_refl. eauto.
  - apply Ascii.compare_eq_iff in Exy. subst. now rewrite Eyz.
  - apply Ascii.compare_eq_iff in Eyz. subst. now rewrite Exy.
  - apply ascii_compare_lt in Exy. apply ascii_compare_lt in Eyz.
    assert (H : Ascii.compare x z = Lt)
      by (apply ascii_compare_lt; eapply N.lt_trans; eassumption).
    now rewrite H.
Qed.

Lemma string_lt_irrefl a b : String.compare a b = Lt -> String.compare b a = Gt.
Proof. intros H. rewrite String.compare_antisym, H. reflexivity. Qed.

Lemma list_lt_irrefl a : list_lt a a = false.
Proof.
  induction a as [|x a IH]; [reflexivity|]. simpl.
  now rewrite string_compare_refl.
Qed.

Lemma list_lt_trans a :
  forall b c, list_lt a b = true -> list_lt b c = true -> list_lt a c = true.
Proof.
  induction a as [|x a IH]; intros [|y b] [|z c]; simpl; try congruence.
  destruct (String.compare x y) eqn:Exy; try discriminate;
    destruct (String.compare y z) eqn:Eyz; try discriminate; intros Hab Hbc.
  - apply String.compare_eq_iff in Exy, Eyz. subst.
    rewrite string_compare_refl. eauto.
  - apply String.compare_eq_iff in Exy. subst. now rewrite Eyz.
  - apply String.compare_eq_iff in Eyz. subst. now rewrite Exy.
  - now rewrite (@string_lt_trans _ _ _ Exy Eyz).
Qed.

Lemma list_lt_asym a : forall b, list_lt a b = true -> list_lt b a = false.
Proof.
  induction a as [|x a IH]; intros [|y b]; simpl; try congruence.
  rewrite (String.compare_antisym y x).
  destruct (String.compare x y); simpl; auto; discriminate.
Qed.

Lemma entry_lt_trans a b c :
  entry_lt a b = true -> entry_lt b c = true -> entry_lt a c = true.
Proof.
  unfold entry_lt.
  destruct (String.compare (fst a) (fst b)) eqn:Eab; try discriminate;
    destruct (String.compare (fst b) (fst c)) eqn:Ebc; try discriminate;
    intros Hab Hbc.
  - apply String.compare_eq_iff in Eab, Ebc. rewrite Eab, Ebc.
    rewrite string_compare_refl. eapply list_lt_trans; eauto.
  - apply String.compare_eq_iff in Eab. rewrite Eab. now rewrite Ebc.
  - apply String.compare_eq_iff in Ebc. rewrite <- Ebc. now rewrite Eab.
  - now rewrite (@string_lt_trans _ _ _ Eab Ebc).
Qed.

Lemma entry_lt_asym a b : entry_lt a b = true -> entry_lt b a = false.
Proof.
  unfold entry_lt. rewrite (String.compare_antisym (fst b) (fst a)).
  destruct (String.compare (fst a) (fst b)); simpl; try discriminate.
  - apply list_lt_asym.
  - reflexivity.
Qed.

Lemma insert_entry_perm x sorted :
  Permutation (insert_entry x sorted) (x :: sorted).
Proof.
  induction sorted as [|y rest IH]; simpl; [apply Permutation_refl|].
  destruct (entry_lt x y); [apply Permutation_refl|].
  eapply Permutation_trans; [apply perm_skip; exact IH | apply perm_swap].
Qed.

Lemma insert_entry_sorted x sorted :
  StronglySorted entry_le sorted ->
  StronglySorted entry_le (insert_entry x sorted).
Proof.
  induction 1 as [|y rest Hs IH Hy]; simpl.
  - constructor; constructor.
  - destruct (entry_lt x y) eqn:E.
    + constructor; [now constructor|]. constructor.
      * unfold entry_le. now apply entry_lt_asym.
      * rewrite Forall_forall in Hy |- *. intros r Hr. unfold entry_le.
        destruct (entry_lt r x) eqn:Er; [|reflexivity].
        specialize (Hy r Hr). unfold entry_le in Hy.
        now rewrite (@entry_lt_trans _ _ _ Er E) in Hy.
    + constructor; [assumption|].
      rewrite Forall_forall in Hy |- *. intros r Hr.
      apply (Permutation_in _ (insert_entry_perm x rest)) in Hr.
      destruct Hr as [<-|Hr]; [exact E | now apply Hy].
Qed.

Lemma sort_from_perm data_ :
  forall sorted,
    Permutation
      (fold_left (fun sorted x => insert_entry x sorted) data_ sorted)
      (data_ ++ sorted).
Proof.
  induction data_ as [|x rest IH]; intros sorted; [apply Permutation_refl|].
  simpl. eapply Permutation_trans; [apply IH|].
  eapply Permutation_trans;
    [apply Permutation_app_head; apply insert_entry_perm|].
  apply Permutation_sym, Permutation_middle.
Qed.

Lemma sort_from_sorted data_ :
  forall sorted, StronglySorted entry_le sorted ->
    StronglySorted entry_le
      (fold_left (fun sorted x => insert_entry x sorted) data_ sorted).
Proof.
  induction data_ as [|x rest IH]; intros sorted Hs; [exact Hs|].
  simpl. apply IH. now apply insert_entry_sorted.
Qed.

Lemma sort_entries_perm data_ : Permutation (sort_entries data_) data_.
Proof.
  unfold sort_entries. rewrite <- (app_nil_r data_) at 2.
  apply sort_from_perm.
Qed.

(** X10.  The sort of [_prepare_init_file] gives the entries it is given,
    each as often as it is given, in ascending order. *)
Theorem entries_are_sorted data_ :
  Permutation (sort_entries data_) data_ /\
  StronglySorted entry_le (sort_entries data_).
Proof.
  split; [apply sort_entries_perm|].
  apply sort_from_sorted. constructor.
Qed.

(** *** The lines of imports *)

Lemma import_lines_from data_ :
  forall result,
    fold_left (fun result entry =>
                 (result ++ "from ." ++ fst entry ++ " import "
                  ++ join ", " (snd entry) ++ newline)%string)
      data_ result
    = (result ++ String.concat EmptyString (map import_line data_))%string.
Proof.
  induction data_ as [|e rest IH]; intros result.
  - simpl. now rewrite append_empty.
  - cbn [fold_left map]. rewrite IH, concat_cons, append_assoc. reflexivity.
Qed.

Lemma concat_has_line entry data_ :
  In entry data_ ->
  exists before after,
    String.concat EmptyString (map import_line data_)
    = (before ++ import_line entry ++ after)%string.
Proof.
  induction data_ as [|e rest IH]; intros H; [destruct H|].
  destruct H as [<-|H].
  - exists EmptyString, (String.concat EmptyString (map import_line rest)).
    cbn [map]. now rewrite concat_cons.
  - destruct (IH H) as [before [after Heq]].
    exists (import_line e ++ before)%string, after.
    cbn [map]. now rewrite concat_cons, Heq, append_assoc.
Qed.

(** X11.  The text of [__init__.py] has the line of imports of every
    entry: [from .<file> import <classes>], the classes separated by a
    comma and a blank. *)
Theorem every_entry_is_imported data_ file classes :
  In (file, classes) data_ ->
  exists before after,
    _prepare_init_file data_
    = (before ++ "from ." ++ file ++ " import " ++ join ", " classes
       ++ newline ++ after)%string.
Proof.
  intros H. unfold _prepare_init_file. cbv zeta.
  destruct (wrap_classes _ _ _) as [result line].
  rewrite import_lines_from.
  destruct (@concat_has_line (file, classes) (sort_entries data_))
    as [before [after Heq]].
  { eapply Permutation_in; [|exact H].
    apply Permutation_sym, sort_entries_perm. }
  rewrite Heq.
  match goal with
  | |- exists b a, (?head ++ _)%string = _ =>
      exists (head ++ before)%string, after
  end.
  unfold import_line. cbn [fst snd]. rewrite !append_assoc. reflexivity.
Qed.

(** *** The line of names *)

Lemma length_quoted c : String.length (quoted c) = String.length c + 4.
Proof.
  unfold quoted. rewrite !length_append. simpl. lia.
Qed.

Lemma wrap_classes_fits classes :
  forall result line,
    String.length
      (line ++ String.concat EmptyString (map quoted classes)) <= 124 ->
    wrap_classes classes result line
    = (result,
       (line ++ String.concat EmptyString (map quoted classes))%string).
Proof.
  induction classes as [|c rest IH]; intros result line Hl.
  - simpl. now rewrite append_empty.
  - cbn [map] in Hl |- *. rewrite concat_cons in Hl |- *.
    rewrite <- append_assoc in Hl |- *. cbn [wrap_classes].
    assert (Hc : (120 <? String.length line + String.length c) = false).
    { apply Nat.ltb_ge. rewrite !length_append, length_quoted in Hl. lia. }
    rewrite Hc. apply (IH result (line ++ quoted c)%string Hl).
Qed.

(** X12.  When the line of all the names, the tab at its start and the
    comma and blank at its end included, is not longer than 124
    characters, the text of [__init__.py] lists every class in [__all__],
    on one line, in the order of the sorted entries, and then has the
    lines of imports. *)
Theorem every_class_is_listed_when_the_line_fits data_ :
  let classes := List.concat (map snd (sort_entries data_)) in
  classes <> [] ->
  String.length (tab ++ String.concat EmptyString (map quoted classes))
  <= 124 ->
  _prepare_init_file data_
  = ("__all__ = [" ++ newline
     ++ tab ++ String.concat EmptyString (map quoted classes) ++ newline
     ++ "]" ++ newline ++ newline
     ++ String.concat EmptyString (map import_line (sort_entries data_)))
    %string.
Proof.
  intros classes Hne Hl. unfold _prepare_init_file. cbv zeta.
  fold classes. rewrite (wrap_classes_fits classes _ tab Hl).
  rewrite import_lines_from.
  assert (Hline : String.eqb
                    (tab ++ String.concat EmptyString (map quoted classes))
                    tab = false).
  { destruct classes as [|c rest]; [contradiction|].
    cbn [map]. rewrite concat_cons. apply String.eqb_neq. discriminate. }
  rewrite Hline. rewrite !append_assoc. reflexivity.
Qed.

End index_more.

(** ** More about the parser *)

Module parser_more.

Import PyStr parser parser_facts.

(** X13.  The category of a model, by the names of its fields. *)
Theorem category_by_field_names (m : CustomDataModel) :
  let has n := In n (map field_name (fields m)) in
  (category m = COLLECTION <->
   has "odata_id" /\ has "odata_type" /\
   has "members_odata_count" /\ has "members") /\
  (category m = RESOURCE <->
   has "odata_id" /\ has "odata_type" /\
   ~ (has "members_odata_count" /\ has "members")) /\
  (category m = ACTION <->
   has "target" /\ ~ (has "odata_id" /\ has "odata_type")) /\
  (category m = LINK <->
   has "odata_id" /\ ~ has "target" /\ ~ has "odata_type") /\
  (category m = UNKNOWN <-> ~ has "odata_id" /\ ~ has "target").
Proof.
  intros has.
  assert (H1 := in_names_In "odata_id" (map field_name (fields m))).
  assert (H2 := in_names_In "odata_type" (map field_name (fields m))).
  assert (H3 := in_names_In "members_odata_count" (map field_name (fields m))).
  assert (H4 := in_names_In "members" (map field_name (fields m))).
  assert (H5 := in_names_In "target" (map field_name (fields m))).
  unfold category, category_fields, _fields_are_present.
  cbv zeta. cbn [fold_left fst snd forallb].
  unfold in_names in H1, H2, H3, H4, H5. fold (has "odata_id") in H1.
  fold (has "odata_type") in H2. fold (has "members_odata_count") in H3.
  fold (has "members") in H4. fold (has "target") in H5.
  repeat match goal with
         | H : (?b = true <-> ?P) |- _ =>
             destruct b;
             [assert P by (apply H; reflexivity)
             |assert (~ P) by (intros K; apply H in K; discriminate K)];
             clear H
         end;
    cbn [andb]; repeat split; intros; try discriminate; try reflexivity;
    try tauto.
Qed.

Section Pipeline.

Variable _redfish_data : scanner.RedfishData.
Variable _child_data : option scanner.RedfishData.
Variable redfish_description : option string.
Variable type_hint : DataModelField -> string.

Local Abbreviation full_name := (scanner.full_name _redfish_data).
Local Abbreviation _update_collection_methods :=
  (_update_collection_methods _redfish_data _child_data).
Local Abbreviation _clean_up_models := (_clean_up_models type_hint).
Local Abbreviation _get_data_models :=
  (_get_data_models _redfish_data _child_data redfish_description type_hint).
Local Abbreviation clean_up_model := (clean_up_model type_hint).
Local Abbreviation url_field := (url_field _redfish_data).
Local Abbreviation stage3 :=
  (fun m => if is_target RESOURCE m
            then update_class RESOURCE resource_fields_to_remove m else m).
Local Abbreviation stage4 :=
  (fun m => if is_target COLLECTION m
            then update_class COLLECTION collection_fields_to_remove m else m).

Lemma is_target_same_names category_ m m' :
  map field_name (fields m') = map field_name (fields m) ->
  is_target category_ m' = is_target category_ m.
Proof.
  intros H. unfold is_target. now rewrite (category_same_names _ _ H).
Qed.

Lemma filter_map_same (f : CustomDataModel -> CustomDataModel) category_ l :
  (forall m, map field_name (fields (f m)) = map field_name (fields m)) ->
  filter (fun m => negb (is_target category_ m)) (map f l)
  = map f (filter (fun m => negb (is_target category_ m)) l).
Proof.
  intros Hf. induction l as [|m l IH]; [reflexivity|]. simpl.
  rewrite (is_target_same_names category_ _ _ (Hf m)).
  destruct (is_target category_ m); simpl; now rewrite IH.
Qed.

Local Abbreviation with_method :=
  (fun model =>
     match _child_data with
     | Some child =>
         if DataModelCategory_eqb (category model) COLLECTION
            && String.eqb (name model) full_name
         then mkCustomDataModel (name model) (fields model)
                (base_classes model)
                (methods model ++ [resource_method (scanner.full_name child)])
                (_additional_imports model ++ [mkImport "typing" "Type" None])
                (description model)
         else model
     | None => model
     end).
Local Abbreviation with_description :=
  (fun model =>
     match redfish_description with
     | Some d =>
         if String.eqb (name model) full_name
         then mkCustomDataModel (name model) (fields model)
                (base_classes model) (methods model)
                (_additional_imports model) (Some d)
         else model
     | None => model
     end).
Local Abbreviation with_url :=
  (fun model =>
     if String.eqb (name model) full_name
     then set_fields (url_field :: fields model) model
     else model).
Local Abbreviation renamed names :=
  (fun model =>
     mkCustomDataModel (root_name _redfish_data (name model))
       (map (renamed_field _redfish_data names) (fields model))
       (map (rename_references _redfish_data names) (base_classes model))
       (methods model) (_additional_imports model) (description model)).
Local Abbreviation kept :=
  (fun m => negb (DataModelCategory_eqb (category m) LINK)
            && negb (DataModelCategory_eqb (category m) ACTION)).

(** What a stage keeps of a model: its name, its description and the
    names of its fields. *)
Local Abbreviation keeps f :=
  (forall m : CustomDataModel,
      name (f m) = name m /\ description (f m) = description m /\
      map field_name (fields (f m)) = map field_name (fields m)).

(** A stage leaves alone the fields whose type hint names no model of
    the category among [results]. *)
Local Abbreviation spares results category_ f :=
  (forall (m : CustomDataModel) (field : DataModelField),
      In field (fields m) ->
      (forall t, In t results -> category t = category_ ->
                 hint_avoids (type_hint field) t) ->
      In field (fields (f m))).

Lemma with_method_keeps : keeps with_method.
Proof.
  intros m. destruct _child_data; [|auto].
  destruct (DataModelCategory_eqb (category m) COLLECTION
            && String.eqb (name m) full_name); auto.
Qed.

Lemma clean_up_model_keeps category_ targets :
  keeps (clean_up_model category_ targets).
Proof.
  intros m.
  destruct (clean_up_model_shape type_hint category_ targets m)
    as [Hn [Hf _]].
  repeat split; assumption.
Qed.

Lemma filter_filter (l : list CustomDataModel) :
  filter (fun m => negb (is_target ACTION m))
    (filter (fun m => negb (is_target LINK m)) l)
  = filter kept l.
Proof.
  induction l as [|m l IH]; [reflexivity|]. simpl. unfold is_target at 2 4.
  destruct (DataModelCategory_eqb (category m) LINK); simpl.
  - exact IH.
  - unfold is_target at 1.
    destruct (DataModelCategory_eqb (category m) ACTION); simpl;
      now rewrite IH.
Qed.

Lemma update_class_keeps category_ names m :
  name (update_class category_ names m) = name m /\
  description (update_class category_ names m) = description m /\
  incl (map field_name (fields (update_class category_ names m)))
    (map field_name (fields m)).
Proof.
  repeat split. cbn [update_class fields].
  intros n Hn. apply in_map_iff in Hn. destruct Hn as [f [<- Hf]].
  apply filter_In in Hf. apply in_map. tauto.
Qed.

Lemma middle_stages_keep m :
  name (stage4 (stage3 m)) = name m /\
  description (stage4 (stage3 m)) = description m /\
  incl (map field_name (fields (stage4 (stage3 m))))
    (map field_name (fields m)).
Proof.
  assert (H3 : name (stage3 m) = name m /\
               description (stage3 m) = description m /\
               incl (map field_name (fields (stage3 m)))
                 (map field_name (fields m))).
  { destruct (is_target RESOURCE m);
      [apply update_class_keeps | repeat split; apply incl_refl]. }
  destruct H3 as [Hn [Hd Hf]].
  destruct (is_target COLLECTION (stage3 m)).
  - destruct (update_class_keeps COLLECTION collection_fields_to_remove
                (stage3 m)) as [Hn' [Hd' Hf']].
    repeat split; try congruence. eapply incl_tran; eassumption.
  - repeat split; assumption.
Qed.

Lemma kept_iff m :
  kept m = true <-> category m <> LINK /\ category m <> ACTION.
Proof.
  cbv beta. split.
  - intros H. apply andb_true_iff in H. destruct H as [H1 H2].
    split; intros E; rewrite E in *; discriminate.
  - intros [H1 H2]. destruct (category m) eqn:E; try reflexivity;
      [now destruct H2 | now destruct H1].
Qed.

(** The stages before the description, through which a model that is
    neither a Link nor an Action goes by itself. *)
Local Abbreviation early clean_link clean_action :=
  (fun m => stage4 (stage3 (clean_action (clean_link (with_method m))))).

Lemma early_keeps clean_link clean_action m :
  keeps clean_link -> keeps clean_action ->
  name (early clean_link clean_action m) = name m /\
  description (early clean_link clean_action m) = description m /\
  incl (map field_name (fields (early clean_link clean_action m)))
    (map field_name (fields m)).
Proof.
  intros Hl Ha.
  destruct (Ha (clean_link (with_method m))) as [A1 [A2 A3]].
  destruct (Hl (with_method m)) as [L1 [L2 L3]].
  destruct (with_method_keeps m) as [M1 [M2 M3]].
  destruct (middle_stages_keep (clean_action (clean_link (with_method m))))
    as [Hn [Hd Hf]].
  repeat split; try congruence.
  intros n Hn'. apply Hf in Hn'. congruence.
Qed.

(** What the last three stages make of a model. *)
Lemma last_stages names x :
  let y := renamed names (with_url (with_description x)) in
  name y = root_name _redfish_data (name x) /\
  base_classes y
  = map (rename_references _redfish_data names) (base_classes x) /\
  description y
  = (if String.eqb (name x) full_name
     then match redfish_description with
          | Some d => Some d
          | None => description x
          end
     else description x) /\
  fields y
  = map (renamed_field _redfish_data names)
      (if String.eqb (name x) full_name then url_field :: fields x
       else fields x).
Proof.
  cbv zeta beta.
  destruct redfish_description as [d|];
    destruct (String.eqb (name x) full_name) eqn:E; cbn [name];
    rewrite ?E; repeat split.
Qed.

Lemma renamed_field_name names l :
  map field_name (map (renamed_field _redfish_data names) l)
  = map field_name l.
Proof. rewrite map_map. apply map_ext. reflexivity. Qed.

(** [_get_data_models] deals with each model that is neither a Link nor
    an Action by itself, going through its stages; the references are
    renamed by the names of these models. *)
Lemma _get_data_models_map results :
  exists clean_link clean_action,
    keeps clean_link /\ keeps clean_action /\
    spares results LINK clean_link /\ spares results ACTION clean_action /\
    _get_data_models results
    = inr (map (fun m =>
                  renamed (map name (filter kept results))
                    (with_url (with_description
                       (early clean_link clean_action m))))
             (filter kept results)).
Proof.
  set (S1 := _update_collection_methods results).
  set (clean_link := clean_up_model LINK (filter (is_target LINK) S1)).
  set (S2 := _clean_up_models S1 LINK).
  set (clean_action := clean_up_model ACTION (filter (is_target ACTION) S2)).
  exists clean_link, clean_action.
  assert (Hl : keeps clean_link) by apply clean_up_model_keeps.
  assert (Ha : keeps clean_action) by apply clean_up_model_keeps.
  assert (H1 : S1 = map with_method results) by reflexivity.
  assert (H2 : S2 = map clean_link
                      (map with_method
                         (filter (fun m => negb (is_target LINK m)) results))).
  { unfold S2. rewrite _clean_up_models_map. fold clean_link. rewrite H1.
    rewrite filter_map_same; [reflexivity|].
    intros m. apply with_method_keeps. }
  split; [exact Hl|]. split; [exact Ha|]. split; [|split].
  { intros m f Hf Havoid. unfold clean_link, parser.clean_up_model.
    cbn [set_fields fields]. apply in_map_iff. exists f.
    split; [|exact Hf]. apply clean_up_field_avoids.
    intros t Ht. apply filter_In in Ht. destruct Ht as [Ht Hc].
    rewrite H1 in Ht. apply in_map_iff in Ht. destruct Ht as [t0 [<- Ht0]].
    destruct (with_method_keeps t0) as [Hn [_ Hfs]].
    apply is_target_iff in Hc.
    rewrite (category_same_names _ _ Hfs) in Hc.
    unfold hint_avoids. rewrite Hn. now apply Havoid. }
  { intros m f Hf Havoid. unfold clean_action, parser.clean_up_model.
    cbn [set_fields fields]. apply in_map_iff. exists f.
    split; [|exact Hf]. apply clean_up_field_avoids.
    intros t Ht. apply filter_In in Ht. destruct Ht as [Ht Hc].
    rewrite H2 in Ht. apply in_map_iff in Ht. destruct Ht as [t1 [<- Ht1]].
    apply in_map_iff in Ht1. destruct Ht1 as [t0 [<- Ht0]].
    apply filter_In in Ht0. destruct Ht0 as [Ht0 _].
    destruct (with_method_keeps t0) as [Hn [_ Hfs]].
    destruct (Hl (with_method t0)) as [Hn1 [_ Hfs1]].
    apply is_target_iff in Hc.
    rewrite (category_same_names _ _ Hfs1), (category_same_names _ _ Hfs)
      in Hc.
    unfold hint_avoids. rewrite Hn1, Hn. now apply Havoid. }
  rewrite _get_data_models_stages. f_equal.
  fold S1. fold S2.
  assert (H3 : _clean_up_models S2 ACTION
               = map clean_action
                   (map clean_link (map with_method (filter kept results)))).
  { rewrite _clean_up_models_map. fold clean_action. rewrite H2.
    rewrite !filter_map_same, filter_filter; [reflexivity | |].
    - intros m. apply with_method_keeps.
    - intros m. apply clean_up_model_keeps. }
  rewrite H3.
  assert (H4 : forall l,
             _update_description _redfish_data redfish_description l
             = map with_description l).
  { intros l. unfold _update_description.
    destruct redfish_description; [reflexivity|]. now rewrite map_id. }
  rewrite H4.
  set (K := filter kept results).
  set (F := fun m => with_url (with_description
                                 (early clean_link clean_action m))).
  match goal with
  | |- parser._update_root_model_name _ ?L = _ => set (L0 := L)
  end.
  assert (HL : L0 = map F K)
    by (unfold L0, _update_url; rewrite !map_map; reflexivity).
  assert (HN : map name (map F K) = map name K).
  { rewrite map_map. apply map_ext. intros m.
    destruct (@early_keeps clean_link clean_action m Hl Ha) as [Hn _].
    assert (Hgen : forall x, name (with_url (with_description x)) = name x).
    { intros x.
      assert (H5 : name (with_description x) = name x).
      { destruct redfish_description; [|reflexivity].
        destruct (String.eqb (name x) full_name); reflexivity. }
      assert (H6 : name (with_url (with_description x))
                   = name (with_description x)).
      { destruct (String.eqb (name (with_description x)) full_name);
          reflexivity. }
      etransitivity; [exact H6 | exact H5]. }
    etransitivity; [apply Hgen | exact Hn]. }
  rewrite HL. unfold _update_root_model_name. cbv zeta.
  rewrite HN, map_map. reflexivity.
Qed.

(** A model that is neither a Link nor an Action, through
    [_get_data_models]. *)
Lemma _get_data_models_of results m :
  In m results -> category m <> LINK -> category m <> ACTION ->
  exists clean_link clean_action models m',
    keeps clean_link /\ keeps clean_action /\
    spares results LINK clean_link /\ spares results ACTION clean_action /\
    _get_data_models results = inr models /\
    In m' models /\
    name m'
    = root_name _redfish_data (name (early clean_link clean_action m)) /\
    base_classes m'
    = map (rename_references _redfish_data (map name (filter kept results)))
        (base_classes (early clean_link clean_action m)) /\
    description m'
    = (if String.eqb (name (early clean_link clean_action m)) full_name
       then match redfish_description with
            | Some d => Some d
            | None => description (early clean_link clean_action m)
            end
       else description (early clean_link clean_action m)) /\
    fields m'
    = map (renamed_field _redfish_data (map name (filter kept results)))
        (if String.eqb (name (early clean_link clean_action m)) full_name
         then url_field :: fields (early clean_link clean_action m)
         else fields (early clean_link clean_action m)).
Proof.
  intros Hin Hnl Hna.
  destruct (_get_data_models_map results)
    as [clean_link [clean_action [Hl [Ha [Hsl [Hsa Heq]]]]]].
  exists clean_link, clean_action. eexists. eexists.
  split; [exact Hl|]. split; [exact Ha|].
  split; [exact Hsl|]. split; [exact Hsa|]. split; [exact Heq|]. split.
  { apply (in_map (fun m =>
                     renamed (map name (filter kept results))
                       (with_url (with_description
                          (early clean_link clean_action m)))) _ m).
    apply filter_In. split; [assumption|]. now apply kept_iff. }
  exact (@last_stages (map name (filter kept results))
           (early clean_link clean_action m)).
Qed.

(** X14.  [_get_data_models] raises nothing and gives one model for each
    model of the parser that is neither a Link nor an Action, in the same
    order; each has the name it had, but that a name which is the full
    name of the node, the case of the letters aside, becomes this full
    name. *)
Theorem models_out_are_the_others_in_order (results : list CustomDataModel) :
  exists models,
    _get_data_models results = inr models /\
    map name models
    = map (fun m => if String.eqb (lower (name m)) (lower full_name)
                    then full_name else name m)
        (filter (fun m => negb (DataModelCategory_eqb (category m) LINK)
                          && negb (DataModelCategory_eqb (category m) ACTION))
           results).
Proof.
  destruct (_get_data_models_map results)
    as [clean_link [clean_action [Hl [Ha [_ [_ Heq]]]]]].
  eexists. split; [exact Heq|].
  rewrite map_map. apply map_ext. intros m.
  destruct (@early_keeps clean_link clean_action m Hl Ha) as [Hn _].
  destruct (@last_stages (map name (filter kept results))
              (early clean_link clean_action m)) as [Hname _].
  cbv zeta in Hname. rewrite Hname, Hn. reflexivity.
Qed.

(** X15.  The model of the parser that bears the full name of the node,
    if it is neither a Link nor an Action, comes out with the field
    [_url], whose default is the URI of the node, as its first field, and
    with the description of the node when the node has one. *)
Theorem root_model_gets_url_and_description results m :
  In m results -> name m = full_name ->
  category m <> LINK -> category m <> ACTION ->
  exists models m' fields_,
    _get_data_models results = inr models /\
    In m' models /\
    name m' = full_name /\
    fields m' = url_field :: fields_ /\
    incl (map field_name fields_) (map field_name (fields m)) /\
    description m'
    = match redfish_description with
      | Some d => Some d
      | None => description m
      end.
Proof.
  intros Hin Hname Hnl Hna.
  destruct (@_get_data_models_of results m Hin Hnl Hna)
    as [clean_link [clean_action [models [m'
          [Hl [Ha [_ [_ [Heq [Hm' [Hn' [_ [Hd' Hf']]]]]]]]]]]]].
  destruct (@early_keeps clean_link clean_action m Hl Ha) as [Hn [Hd Hf]].
  set (x := early clean_link clean_action m) in *.
  assert (Hx : String.eqb (name x) full_name = true)
    by (apply String.eqb_eq; congruence).
  rewrite Hx in Hd', Hf'.
  exists models, m'.
  exists (map (renamed_field _redfish_data (map name (filter kept results)))
            (fields x)).
  split; [exact Heq|]. split; [exact Hm'|]. split.
  { rewrite Hn', Hn, Hname. unfold root_name. now rewrite String.eqb_refl. }
  split; [exact Hf'|]. split.
  { rewrite renamed_field_name. exact Hf. }
  rewrite Hd', Hd. reflexivity.
Qed.

(** X16.  A model of the parser whose name is the full name of the node
    but for the case of some letter is renamed to this full name, and yet
    it is given neither the field [_url] nor the description of the node:
    these go to the model that bears the full name before the renaming. *)
Theorem renamed_model_gets_no_url results m :
  In m results -> name m <> full_name ->
  lower (name m) = lower full_name ->
  category m <> LINK -> category m <> ACTION ->
  exists models m',
    _get_data_models results = inr models /\
    In m' models /\
    name m' = full_name /\
    incl (map field_name (fields m')) (map field_name (fields m)) /\
    description m' = description m.
Proof.
  intros Hin Hname Hlower Hnl Hna.
  destruct (@_get_data_models_of results m Hin Hnl Hna)
    as [clean_link [clean_action [models [m'
          [Hl [Ha [_ [_ [Heq [Hm' [Hn' [_ [Hd' Hf']]]]]]]]]]]]].
  destruct (@early_keeps clean_link clean_action m Hl Ha) as [Hn [Hd Hf]].
  set (x := early clean_link clean_action m) in *.
  assert (Hx : String.eqb (name x) full_name = false)
    by (apply String.eqb_neq; congruence).
  rewrite Hx in Hd', Hf'.
  exists models, m'.
  split; [exact Heq|]. split; [exact Hm'|]. split.
  { rewrite Hn', Hn. unfold root_name. rewrite Hlower.
    now rewrite String.eqb_refl. }
  split.
  { rewrite Hf', renamed_field_name. exact Hf. }
  rewrite Hd', Hd. reflexivity.
Qed.

Lemma collection_has_identity (x : CustomDataModel) :
  category x = COLLECTION -> In "odata_id" (map field_name (fields x)).
Proof.
  unfold category, category_fields. cbn [fold_left fst snd].
  destruct (_fields_are_present x
              ["odata_id"; "odata_type"; "members_odata_count"; "members"])
    eqn:E.
  - intros _. apply (proj1 (_fields_are_present_iff x _) E). now left.
  - destruct (_fields_are_present x ["odata_id"; "odata_type"]);
      [discriminate|].
    destruct (_fields_are_present x ["target"]); [discriminate|].
    destruct (_fields_are_present x ["odata_id"]); discriminate.
Qed.

Lemma rename_references_plain names category_ collection optional :
  rename_references _redfish_data names
    (_get_data_type category_ collection optional)
  = _get_data_type category_ collection optional.
Proof. reflexivity. Qed.

(** A model of the category Resource or Collection, through the stages
    before the description: it has the type of the category as its only
    base class and has lost the fields of the category, and these
    only. *)
Lemma early_collapses clean_link clean_action category_ fields_to_remove m :
  keeps clean_link -> keeps clean_action ->
  (category_ = RESOURCE /\ fields_to_remove = resource_fields_to_remove) \/
  (category_ = COLLECTION /\ fields_to_remove = collection_fields_to_remove) ->
  category m = category_ ->
  early clean_link clean_action m
  = update_class category_ fields_to_remove
      (clean_action (clean_link (with_method m))).
Proof.
  intros Hl Ha Hcase Hcat.
  set (m2 := clean_action (clean_link (with_method m))).
  assert (Hf2 : map field_name (fields m2) = map field_name (fields m)).
  { unfold m2. destruct (Ha (clean_link (with_method m))) as [_ [_ A3]].
    destruct (Hl (with_method m)) as [_ [_ L3]].
    destruct (with_method_keeps m) as [_ [_ M3]]. congruence. }
  assert (Hc2 : category m2 = category_)
    by (rewrite <- Hcat; now apply category_same_names).
  cbv beta. fold m2.
  destruct Hcase as [[-> ->]|[-> ->]].
  - assert (Ht2 : is_target RESOURCE m2 = true) by now apply is_target_iff.
    rewrite Ht2.
    set (m3 := update_class RESOURCE resource_fields_to_remove m2).
    assert (Ht3 : is_target COLLECTION m3 = false).
    { destruct (is_target COLLECTION m3) eqn:E; [|reflexivity].
      apply is_target_iff, collection_has_identity in E.
      unfold m3 in E. cbn [update_class fields] in E.
      rewrite (map_filter_names
                 (fun n => negb (in_names n resource_fields_to_remove))) in E.
      apply filter_In in E. destruct E as [_ E].
      vm_compute in E. discriminate E. }
    now rewrite Ht3.
  - assert (Ht2 : is_target RESOURCE m2 = false).
    { destruct (is_target RESOURCE m2) eqn:E; [|reflexivity].
      apply is_target_iff in E. congruence. }
    rewrite Ht2.
    assert (Ht3 : is_target COLLECTION m2 = true) by now apply is_target_iff.
    now rewrite Ht3.
Qed.

Lemma collapsed_names clean_link clean_action category_ fields_to_remove m :
  keeps clean_link -> keeps clean_action ->
  map field_name
    (fields (update_class category_ fields_to_remove
               (clean_action (clean_link (with_method m)))))
  = filter (fun n => negb (in_names n fields_to_remove))
      (map field_name (fields m)).
Proof.
  intros Hl Ha. cbn [update_class fields].
  rewrite (map_filter_names (fun n => negb (in_names n fields_to_remove))).
  destruct (Ha (clean_link (with_method m))) as [_ [_ A3]].
  destruct (Hl (with_method m)) as [_ [_ L3]].
  destruct (with_method_keeps m) as [_ [_ M3]]. congruence.
Qed.

(** X17.  Every model that the parser gives with the category Resource
    comes out with the Resource type of [common] as its only base class
    and without the fields [odata_id], [odata_type], [id],
    [odata_context], [description] and [name]: its fields are its other
    fields, after the field [_url] when it bears the full name of the
    node. *)
Theorem resource_is_collapsed results m :
  In m results -> category m = RESOURCE ->
  exists models m',
    _get_data_models results = inr models /\
    In m' models /\
    base_classes m' = [_get_data_type RESOURCE None false] /\
    (let others :=
       filter (fun n => negb (in_names n resource_fields_to_remove))
         (map field_name (fields m)) in
     map field_name (fields m') = others \/
     map field_name (fields m') = "_url" :: others).
Proof.
  intros Hin Hcat.
  destruct (@_get_data_models_of results m Hin)
    as [clean_link [clean_action [models [m'
          [Hl [Ha [_ [_ [Heq [Hm' [_ [Hb' [_ Hf']]]]]]]]]]]]];
    [congruence | congruence |].
  rewrite (@early_collapses clean_link clean_action _ _ m Hl Ha
             (or_introl (conj eq_refl eq_refl)) Hcat) in Hb', Hf'.
  exists models, m'. split; [exact Heq|]. split; [exact Hm'|].
  split; [exact Hb'|]. cbv zeta.
  rewrite Hf', renamed_field_name.
  match goal with
  | |- context [if String.eqb (name (update_class ?c ?r ?x)) ?n
                then _ else _] =>
      destruct (String.eqb (name (update_class c r x)) n)
  end; [right | left];
    rewrite ?map_cons, (@collapsed_names clean_link clean_action _ _ m Hl Ha);
    reflexivity.
Qed.

(** A field that names no model the case of whose name is to be put
    right comes out of the renaming as it was. *)
Lemma rename_references_same names t :
  (forall r, In r names -> root_name _redfish_data r = r) ->
  rename_references _redfish_data names t = t.
Proof.
  intros Hsame. revert t. fix IH 1.
  intros [type__ reference_ data_types_ import__ optional_ dict_ list_
            func_ custom_ strict_].
  cbn [rename_references]. f_equal.
  - destruct reference_ as [r|]; [|reflexivity]. cbn [option_map].
    unfold renamed_reference. destruct (in_names r names) eqn:E;
      [|reflexivity].
    apply in_names_In in E. now rewrite (Hsame r E).
  - induction data_types_ as [|t ts IHts]; [reflexivity|].
    cbn [map]. now rewrite IH, IHts.
Qed.

(** C4 (as amended).  [_get_data_models] raises nothing.  Every model
    that the parser gives with the category Collection comes out with the
    Collection type of [common] as its only base class and without any of
    the fields [odata_id], [odata_type], [members_odata_count], [members],
    [id], [odata_context], [description], [name],
    [members_odata_next_link]: its fields are its other fields, after the
    field [_url] when it is the root model.  The fields of the other
    models that name such a model are not given the Collection type: in a
    model that is neither a Link nor an Action, a field whose name is none
    of the names above and whose type hint names no Link and no Action
    model comes out with its name, its default and its type, but that a
    reference to a model that [_update_root_model_name] renames bears the
    new name of that model; it comes out as it was when no model is
    renamed. *)
Theorem collection_is_collapsed (results : list CustomDataModel) :
  let names :=
    map name
      (filter (fun m => negb (DataModelCategory_eqb (category m) LINK)
                        && negb (DataModelCategory_eqb (category m) ACTION))
         results) in
  exists models,
    _get_data_models results = inr models /\
    (forall m, In m results -> category m = COLLECTION ->
       exists m', In m' models /\
         base_classes m' = [_get_data_type COLLECTION None false] /\
         (let others :=
            filter (fun n => negb (in_names n collection_fields_to_remove))
              (map field_name (fields m)) in
          map field_name (fields m') = others \/
          map field_name (fields m') = "_url" :: others) /\
         Forall (fun f => ~ In (field_name f) collection_fields_to_remove)
           (fields m')) /\
    (forall m f, In m results -> In f (fields m) ->
       category m <> LINK -> category m <> ACTION ->
       ~ In (field_name f) collection_fields_to_remove ->
       (forall t, In t results -> category t = LINK \/ category t = ACTION ->
                  hint_avoids (type_hint f) t) ->
       exists m', In m' models /\
                  In (renamed_field _redfish_data names f) (fields m')) /\
    ((forall t, In t results -> lower (name t) = lower full_name ->
                name t = full_name) ->
     forall f, renamed_field _redfish_data names f = f).
Proof.
  cbv zeta.
  destruct (_get_data_models_map results)
    as [clean_link0 [clean_action0 [_ [_ [_ [_ Heq0]]]]]].
  eexists. split; [exact Heq0|]. split; [|split].
  - intros m Hin Hcat.
    destruct (@_get_data_models_of results m Hin)
      as [clean_link [clean_action [models [m'
            [Hl [Ha [_ [_ [Heq [Hm' [_ [Hb' [_ Hf']]]]]]]]]]]]];
      [congruence | congruence |].
    rewrite Heq0 in Heq. inversion Heq as [Hmodels].
    rewrite (@early_collapses clean_link clean_action _ _ m Hl Ha
               (or_intror (conj eq_refl eq_refl)) Hcat) in Hb', Hf'.
    exists m'. split; [now rewrite Hmodels|]. split; [exact Hb'|].
    assert (Hnames :
              map field_name (fields m')
              = filter (fun n => negb (in_names n collection_fields_to_remove))
                  (map field_name (fields m)) \/
              map field_name (fields m')
              = "_url"
                :: filter (fun n => negb (in_names n collection_fields_to_remove))
                     (map field_name (fields m))).
    { rewrite Hf', renamed_field_name.
      match goal with
      | |- context [if String.eqb (name (update_class ?c ?r ?x)) ?n
                    then _ else _] =>
          destruct (String.eqb (name (update_class c r x)) n)
      end; [right | left];
        rewrite ?map_cons,
          (@collapsed_names clean_link clean_action _ _ m Hl Ha);
        reflexivity. }
    split; [exact Hnames|].
    apply Forall_forall. intros f Hf Hbad.
    apply (in_map field_name) in Hf.
    destruct Hnames as [Hn|Hn]; rewrite Hn in Hf.
    + apply filter_In in Hf. destruct Hf as [_ Hf].
      apply negb_true_iff in Hf. apply in_names_In in Hbad. congruence.
    + destruct Hf as [Hf|Hf].
      * rewrite <- Hf in Hbad. simpl in Hbad. intuition discriminate.
      * apply filter_In in Hf. destruct Hf as [_ Hf].
        apply negb_true_iff in Hf. apply in_names_In in Hbad. congruence.
  - intros m f Hin Hf Hnl Hna Hname Havoid.
    destruct (@_get_data_models_of results m Hin Hnl Hna)
      as [clean_link [clean_action [models [m'
            [Hl [Ha [Hsl [Hsa [Heq [Hm' [_ [_ [_ Hf']]]]]]]]]]]]].
    rewrite Heq0 in Heq. inversion Heq as [Hmodels].
    exists m'. split; [now rewrite Hmodels|].
    rewrite Hf'. apply in_map.
    assert (Hin2 : In f (fields (clean_action (clean_link (with_method m))))).
    { apply Hsa; [apply Hsl|].
      - destruct _child_data; [|exact Hf].
        destruct (DataModelCategory_eqb (category m) COLLECTION
                  && String.eqb (name m) full_name); exact Hf.
      - intros t Ht Hc. apply Havoid; auto.
      - intros t Ht Hc. apply Havoid; auto. }
    assert (Hin4 : In f (fields (early clean_link clean_action m))).
    { cbv beta.
      set (m2 := clean_action (clean_link (with_method m))) in *.
      assert (Hkeep : forall c names x,
                 incl names collection_fields_to_remove ->
                 In f (fields x) ->
                 In f (fields (if is_target c x
                               then update_class c names x else x))).
      { intros c names x Hincl Hx. destruct (is_target c x); [|exact Hx].
        cbn [update_class fields]. apply filter_In. split; [exact Hx|].
        apply negb_true_iff.
        destruct (in_names (field_name f) names) eqn:E; [|reflexivity].
        apply in_names_In in E. apply Hincl in E. contradiction. }
      apply (Hkeep COLLECTION collection_fields_to_remove);
        [apply incl_refl|].
      apply (Hkeep RESOURCE resource_fields_to_remove); [|exact Hin2].
      intros n Hn. simpl in Hn |- *. tauto. }
    match goal with
    | |- In f (if ?b then _ else _) => destruct b
    end; [now right | assumption].
  - intros Hexact f. unfold renamed_field.
    rewrite rename_references_same; [now destruct f|].
    intros r Hr. apply in_map_iff in Hr. destruct Hr as [t [<- Ht]].
    apply filter_In in Ht. destruct Ht as [Ht _].
    unfold root_name.
    destruct (String.eqb_spec (lower (name t)) (lower full_name)) as [E|_];
      [|reflexivity].
    symmetry. now apply Hexact.
Qed.

Lemma value_is_no_list category_ n :
  DataModelCategory_value category_ <> ("List[" ++ n ++ "]")%string.
Proof. destruct category_; discriminate. Qed.

Lemma value_is_no_dict category_ n :
  DataModelCategory_value category_ <> ("Dict[" ++ n ++ "]")%string.
Proof. destruct category_; discriminate. Qed.

Lemma value_is_no_optional category_ n :
  DataModelCategory_value category_ <> ("Optional[" ++ n ++ "]")%string.
Proof. destruct category_; discriminate. Qed.

(** X18.  [_clean_up_models] gives the type of the category to the
    fields that name a model of the category: a field whose type hint is
    the name of such a model gets the plain type; one whose hint is
    [List[...]] or [Optional[...]] around the name gets the list and the
    optional type, when no model of the category bears this hint as its
    name.  The hint of the plain type is taken to be the name of the
    category, and that of the list type [List[...]] around it. *)
Theorem references_get_the_type_of_the_category models category_ m t f :
  In m models -> category m <> category_ ->
  In t models -> category t = category_ ->
  In f (fields m) ->
  let typed collection optional :=
    set_data_type (_get_data_type category_ collection optional) f in
  let out f' :=
    exists m', In m' (_clean_up_models models category_) /\
               name m' = name m /\ In f' (fields m') in
  let unnamed :=
    forall t', In t' models -> category t' = category_ ->
               name t' <> type_hint f in
  (type_hint f = name t ->
   type_hint (typed None false) = DataModelCategory_value category_ ->
   out (typed None false)) /\
  (type_hint f = ("List[" ++ name t ++ "]")%string -> unnamed ->
   type_hint (typed (Some "List") false)
   = ("List[" ++ DataModelCategory_value category_ ++ "]")%string ->
   out (typed (Some "List") false)) /\
  (type_hint f = ("Optional[" ++ name t ++ "]")%string -> unnamed ->
   out (typed None true)).
Proof.
  intros Hm Hcm Ht Hct Hf typed out unnamed.
  set (targets := filter (is_target category_) models).
  assert (Htt : In t targets)
    by (apply filter_In; split; [assumption | now apply is_target_iff]).
  assert (Hout : forall f',
             clean_up_field type_hint category_ (map name targets)
               (map (fun t => ("List[" ++ name t ++ "]")%string) targets)
               (map (fun t => ("Dict[" ++ name t ++ "]")%string) targets)
               (map (fun t => ("Optional[" ++ name t ++ "]")%string) targets)
               f = f' ->
             out f').
  { intros f' Hf'. unfold out. rewrite _clean_up_models_map. fold targets.
    exists (clean_up_model category_ targets m). split.
    - apply in_map. apply filter_In. split; [assumption|].
      apply negb_true_iff. destruct (is_target category_ m) eqn:E;
        [|reflexivity].
      apply is_target_iff in E. contradiction.
    - split; [reflexivity|]. unfold parser.clean_up_model.
      cbn [set_fields fields]. rewrite <- Hf'. now apply in_map. }
  assert (Hunnamed : unnamed ->
            in_names (type_hint f) (map name targets) = false).
  { intros Hu. apply in_names_map_false. intros t' Ht' E.
    apply filter_In in Ht'. destruct Ht' as [Hin' Hc'].
    apply is_target_iff in Hc'. now apply (Hu t' Hin' Hc'). }
  split; [|split].
  - intros Hhint Hnew. apply Hout. unfold clean_up_field. cbv zeta.
    assert (E1 : in_names (type_hint f) (map name targets) = true)
      by (apply in_names_In; rewrite Hhint; now apply in_map).
    assert (E2 : in_names (DataModelCategory_value category_)
                   (map (fun t => ("List[" ++ name t ++ "]")%string) targets)
                 = false)
      by (apply in_names_map_false; intros; apply value_is_no_list).
    assert (E3 : in_names (DataModelCategory_value category_)
                   (map (fun t => ("Dict[" ++ name t ++ "]")%string) targets)
                 = false)
      by (apply in_names_map_false; intros; apply value_is_no_dict).
    assert (E4 : in_names (DataModelCategory_value category_)
                   (map (fun t => ("Optional[" ++ name t ++ "]")%string)
                      targets)
                 = false)
      by (apply in_names_map_false; intros; apply value_is_no_optional).
    rewrite E1. cbv iota. fold (typed None false).
    rewrite Hnew, E2. cbv iota. rewrite Hnew, E3. cbv iota.
    rewrite Hnew, E4. reflexivity.
  - intros Hhint Hu Hnew. apply Hout. unfold clean_up_field. cbv zeta.
    rewrite (Hunnamed Hu). cbv iota.
    assert (E2 : in_names (type_hint f)
                   (map (fun t => ("List[" ++ name t ++ "]")%string) targets)
                 = true).
    { apply in_names_In. rewrite Hhint.
      now apply (in_map (fun t => ("List[" ++ name t ++ "]")%string)). }
    assert (E3 : in_names
                   ("List[" ++ DataModelCategory_value category_ ++ "]")
                   (map (fun t => ("Dict[" ++ name t ++ "]")%string) targets)
                 = false)
      by (apply in_names_map_false; intros; discriminate).
    assert (E4 : in_names
                   ("List[" ++ DataModelCategory_value category_ ++ "]")
                   (map (fun t => ("Optional[" ++ name t ++ "]")%string)
                      targets)
                 = false)
      by (apply in_names_map_false; intros; discriminate).
    rewrite E2. cbv iota. fold (typed (Some "List") false).
    rewrite Hnew, E3. cbv iota. rewrite Hnew, E4. reflexivity.
  - intros Hhint Hu. apply Hout. unfold clean_up_field. cbv zeta.
    rewrite (Hunnamed Hu). cbv iota.
    assert (E2 : in_names (type_hint f)
                   (map (fun t => ("List[" ++ name t ++ "]")%string) targets)
                 = false)
      by (apply in_names_map_false; intros; rewrite Hhint; discriminate).
    rewrite E2. cbv iota.
    assert (E3 : in_names (type_hint f)
                   (map (fun t => ("Dict[" ++ name t ++ "]")%string) targets)
                 = false)
      by (apply in_names_map_false; intros; rewrite Hhint; discriminate).
    rewrite E3. cbv iota.
    assert (E4 : in_names (type_hint f)
                   (map (fun t => ("Optional[" ++ name t ++ "]")%string)
                      targets)
                 = true).
    { apply in_names_In. rewrite Hhint.
      now apply (in_map (fun t => ("Optional[" ++ name t ++ "]")%string)). }
    rewrite E4. reflexivity.
Qed.

End Pipeline.

End parser_more.

(** ** The further properties, on examples *)

Module more_on_examples.

Import PyStr Json scanner processor targets more more_samples.

Lemma lab_scan_ends :
  lab_scan 10 "/redfish/v1/" = Some (lab_result, Returned).
Proof. vm_compute. reflexivity. Qed.

(** X1 at the small service. *)
Lemma scanned_once_and_never_schemas_witness :
  lab_scan 10 "/redfish/v1/" = Some (lab_result, Returned) /\
  NoDup (_scanned_uris lab_result) /\
  Forall (fun u => contains "jsonschemas" (lower u) = false)
    (_scanned_uris lab_result).
Proof.
  split; [exact lab_scan_ends|].
  exact (@scanner_more.scanned_once_and_never_schemas unit first_positions
           500%Z 50%Z lab_get_json 10 tt (JStr "/redfish/v1/") None
           lab_result Returned lab_scan_ends).
Defined.

(** X2 at the small service. *)
Lemma problems_are_about_scanned_uris_witness :
  lab_scan 10 "/redfish/v1/" = Some (lab_result, Returned) /\
  incl (map url (_problems lab_result)) (_scanned_uris lab_result) /\
  NoDup (map url (_problems lab_result)) /\
  List.length (_problems lab_result)
  <= List.length (_scanned_uris lab_result).
Proof.
  split; [exact lab_scan_ends|].
  exact (@scanner_more.problems_are_about_scanned_uris unit first_positions
           500%Z 50%Z lab_get_json 10 tt (JStr "/redfish/v1/") None
           lab_result Returned lab_scan_ends).
Defined.

(** X3 at the small service. *)
Lemma nodes_hold_what_was_fetched_witness :
  lab_scan 10 "/redfish/v1/" = Some (lab_result, Returned) /\
  Forall (fun n =>
            In (uri n) (_scanned_uris lab_result) /\
            lab_get_json (uri n) = inr (data n) /\
            _get_model_name (data n) = inr (Some (name n)))
    (_redfish lab_result).
Proof.
  split; [exact lab_scan_ends|].
  exact (@scanner_more.nodes_hold_what_was_fetched unit first_positions
           500%Z 50%Z lab_get_json 10 tt (JStr "/redfish/v1/") None
           lab_result Returned lab_scan_ends).
Defined.

(** X4 at the data of the chassis. *)
Lemma _get_model_name_cases_witness :
  exists c rest,
    _get_model_name chassis_instance = inr (Some (String c rest)) /\
    is_lower c = false /\
    contains "." (String c rest) = false.
Proof.
  destruct names_more._get_model_name_cases as [_ [_ [_ H]]].
  destruct (H [("@odata.type", JStr "#Chassis.v1.Chassis");
               ("@odata.id", JStr "/c/1");
               ("Name", JStr "Main")]
              "#Chassis.v1.Chassis" eq_refl) as [_ Hname].
  apply Hname; [discriminate | | reflexivity].
  intros p Hp.
  repeat (destruct p as [|? p]; simpl in Hp; [discriminate Hp|];
          injection Hp as _ Hp).
  destruct p; discriminate Hp.
Defined.

(** X5 at the data of the chassis. *)
Lemma _get_uris_gives_odata_ids_witness :
  _get_uris first_positions 50 chassis_instance tt = (inr [JStr "/c/1"], tt) /\
  incl [JStr "/c/1"] (odata_ids chassis_instance).
Proof.
  assert (H : _get_uris first_positions 50 chassis_instance tt
              = (inr [JStr "/c/1"], tt)) by (vm_compute; reflexivity).
  split; [exact H|].
  exact (@uris_more._get_uris_gives_odata_ids unit first_positions 50%Z
           chassis_instance tt [JStr "/c/1"] tt H).
Defined.

(** X6 at the collection of chassis of the small service. *)
Lemma negative_width_makes_collections_problems_witness :
  exists e s',
    scan_models first_positions 500 (-1) lab_get_json 1 (new_Scanner tt)
      (JStr "/redfish/v1/Chassis") None = Some (s', Returned) /\
    _scanned_uris s' = ["/redfish/v1/Chassis"] /\
    _problems s' = [mkProblem "/redfish/v1/Chassis" e].
Proof.
  apply (@uris_more.negative_width_makes_collections_problems unit
           first_positions 500%Z (-1)%Z lab_get_json 0 (new_Scanner tt)
           "/redfish/v1/Chassis" None
           [("@odata.type", JStr "#ChassisCollection.ChassisCollection");
            ("@odata.id", JStr "/redfish/v1/Chassis");
            ("Members@odata.count", JNum 2%Q);
            ("Members", JList [link "/redfish/v1/Chassis/1";
                               link "/redfish/v1/Chassis/2"])]
           [link "/redfish/v1/Chassis/1"; link "/redfish/v1/Chassis/2"]).
  - reflexivity.
  - reflexivity.
  - intros [].
  - vm_compute. reflexivity.
  - vm_compute. reflexivity.
  - simpl. auto.
Defined.

(** X7 at the small service. *)
Lemma scanned_uris_were_advertised_witness :
  lab_scan 10 "/redfish/v1/" = Some (lab_result, Returned) /\
  Forall (fun u =>
            JStr u = JStr "/redfish/v1/" \/
            advertised lab_get_json (_scanned_uris lab_result) u)
    (_scanned_uris lab_result).
Proof.
  split; [exact lab_scan_ends|].
  exact (@origin_more.scanned_uris_were_advertised unit first_positions
           500%Z 50%Z lab_get_json (JStr "/redfish/v1/") 10 tt None
           lab_result Returned lab_scan_ends).
Defined.

(** X8 at a drive. *)
Lemma file_name_is_full_name_in_small_letters_witness :
  file_name drive = "drive_collection_drive" /\
  without "_" (file_name drive) = lower (without "_" (full_name drive)).
Proof.
  split; [vm_compute; reflexivity|].
  apply (files_more.file_name_is_full_name_in_small_letters drive).
  reflexivity.
Defined.

(** X9 at a drive and its collection, the parser raising nothing. *)
Lemma index_has_an_entry_for_each_module_witness :
  let result := generate_lib (fun _ _ => true) [drive; drive_collection] in
  map fst (snd (fst result)) = fst (fst result) ++ ["common"] /\
  exists entries,
    snd (fst result) = entries ++ [("common", ["DataManager"])] /\
    Forall (entry_of (fun _ _ => true) [drive; drive_collection]) entries.
Proof.
  intros result.
  apply (@processor_more.index_has_an_entry_for_each_module
           (fun _ _ => true) [drive; drive_collection]
           (fst (fst result)) (snd (fst result)) (snd result)).
  vm_compute. reflexivity.
Defined.

(** X11 at two entries. *)
Lemma every_entry_is_imported_witness :
  exists before after,
    _prepare_init_file two_entries
    = (before ++ "from ." ++ "chassis" ++ " import " ++ join ", " ["Chassis"]
       ++ newline ++ after)%string.
Proof.
  apply (@index_more.every_entry_is_imported two_entries "chassis"
           ["Chassis"]).
  simpl. auto.
Defined.

(** X12 at two entries. *)
Lemma every_class_is_listed_when_the_line_fits_witness :
  _prepare_init_file two_entries
  = ("__all__ = [" ++ newline
     ++ tab
     ++ String.concat EmptyString
          (map quoted (List.concat (map snd (sort_entries two_entries))))
     ++ newline ++ "]" ++ newline ++ newline
     ++ String.concat EmptyString
          (map import_line (sort_entries two_entries)))%string.
Proof.
  apply (@index_more.every_class_is_listed_when_the_line_fits two_entries).
  - vm_compute. discriminate.
  - apply Nat.leb_le. vm_compute. reflexivity.
Defined.

End more_on_examples.

Module more_on_drafts.

Import PyStr parser drafts more_samples.

(** X15 at the chassis. *)
Lemma root_model_gets_url_and_description_witness :
  exists models m' fields_,
    _get_data_models chassis_node None (Some "Main") render_type_hint
      chassis_drafts = inr models /\
    In m' models /\
    name m' = "Chassis" /\
    fields m' = url_field chassis_node :: fields_ /\
    description m' = Some "Main".
Proof.
  destruct (@parser_more.root_model_gets_url_and_description chassis_node
              None (Some "Main") render_type_hint chassis_drafts chassis_draft)
    as [models [m' [fields_ [H1 [H2 [H3 [H4 [_ H5]]]]]]]].
  - simpl. auto.
  - reflexivity.
  - vm_compute. discriminate.
  - vm_compute. discriminate.
  - exists models, m', fields_. repeat split; assumption.
Defined.

(** X16 at a device whose model is named with other capital letters. *)
Lemma renamed_model_gets_no_url_witness :
  exists models m',
    _get_data_models pcie_node None (Some "Card") render_type_hint
      [pcie_draft] = inr models /\
    In m' models /\
    name m' = "PCIeDevice" /\
    incl (map field_name (fields m')) (map field_name (fields pcie_draft)) /\
    description m' = None.
Proof.
  destruct (@parser_more.renamed_model_gets_no_url pcie_node
              None (Some "Card") render_type_hint [pcie_draft] pcie_draft)
    as [models [m' [H1 [H2 [H3 [H4 H5]]]]]].
  - simpl. auto.
  - vm_compute. discriminate.
  - vm_compute. reflexivity.
  - vm_compute. discriminate.
  - vm_compute. discriminate.
  - exists models, m'. repeat split; assumption.
Defined.

(** X17 at the chassis. *)
Lemma resource_is_collapsed_witness :
  exists models m',
    _get_data_models chassis_node None (Some "Main") render_type_hint
      chassis_drafts = inr models /\
    In m' models /\
    base_classes m' = [_get_data_type RESOURCE None false] /\
    (map field_name (fields m') = ["drives"; "serial_number"] \/
     map field_name (fields m') = ["_url"; "drives"; "serial_number"]).
Proof.
  destruct (@parser_more.resource_is_collapsed chassis_node
              None (Some "Main") render_type_hint chassis_drafts chassis_draft)
    as [models [m' [H1 [H2 [H3 H4]]]]].
  - simpl. auto.
  - vm_compute. reflexivity.
  - exists models, m'. repeat split; assumption.
Defined.

(** X18 at the members of the collection of drives. *)
Lemma references_get_the_type_of_the_category_witness :
  exists m',
    In m' (_clean_up_models render_type_hint chassis_drafts LINK) /\
    name m' = "Drives" /\
    In (set_data_type (_get_data_type LINK (Some "List") false)
          (field "members" (list_of (reference_to "Member"))))
      (fields m').
Proof.
  destruct (@parser_more.references_get_the_type_of_the_category
              render_type_hint chassis_drafts LINK drives_draft member_draft
              (field "members" (list_of (reference_to "Member"))))
    as [_ [H _]].
  - simpl. auto.
  - vm_compute. discriminate.
  - simpl. auto.
  - vm_compute. reflexivity.
  - vm_compute. auto 10.
  - apply H.
    + vm_compute. reflexivity.
    + intros t' [<-|[<-|[<-|[]]]] _ E; vm_compute in E; discriminate E.
    + vm_compute. reflexivity.
Defined.

End more_on_drafts.

(** ** The members that are followed *)

Module width_facts.

Import PyStr Json scanner scanner_facts targets width_samples.

Section Followed.

Variable RNG : Type.
Variable sample_positions : RNG -> nat -> nat -> list nat * RNG.
Variable _max_models : Z.
Variable _max_collection : Z.
Variable _get_json : string -> exn + json.

Hypothesis sample_contract : draws_without_replacement sample_positions.
Hypothesis width_not_negative : (0 <= _max_collection)%Z.

Local Abbreviation _get_uris :=
  (scanner._get_uris sample_positions _max_collection).
Local Abbreviation extend_with_members :=
  (scanner.extend_with_members sample_positions _max_collection).
Local Abbreviation visit_items :=
  (scanner.visit_items sample_positions _max_collection).
Local Abbreviation scan_models :=
  (scanner.scan_models sample_positions _max_models _max_collection _get_json).
Local Abbreviation excluded u := (contains "jsonschemas" (lower u)).

Lemma extend_all_grows (calls : list (M RNG (list json))) :
  forall result g r g',
    extend_all calls result g = (inr r, g') -> incl result r.
Proof.
  induction calls as [|c rest IH]; intros result g r g' H; simpl in H.
  - inversion H; subst. apply incl_refl.
  - unfold bind in H. destruct (c g) as [[e|us] g1]; [discriminate|].
    apply IH in H. eapply incl_tran; [|exact H]. apply incl_appl, incl_refl.
Qed.

(** The URIs that [_get_uris] gives for each of the entries are in the
    result of the loop over the entries. *)
Lemma extend_all_gives xs :
  forall result (g : RNG) r g',
    extend_all (map _get_uris xs) result g = (inr r, g') ->
    forall e, In e xs ->
      exists g1 us g2, _get_uris e g1 = (inr us, g2) /\ incl us r.
Proof.
  induction xs as [|x xs IH]; intros result g r g' H e He; [destruct He|].
  cbn [map extend_all] in H. unfold bind in H.
  destruct (_get_uris x g) as [[err|us] g1] eqn:E; [discriminate|].
  destruct He as [<-|He].
  - exists g, us, g1. split; [exact E|].
    apply extend_all_grows in H. eapply incl_tran; [|exact H].
    apply incl_appr, incl_refl.
  - eapply IH; eauto.
Qed.

Lemma extend_with_members_grows members result (g : RNG) r g' :
  extend_with_members _get_uris members result g = (inr r, g') ->
  incl result r.
Proof.
  unfold scanner.extend_with_members.
  destruct (entry_calls _get_uris members) as [e|[is_sequence calls]];
    [discriminate|].
  destruct (_max_collection <? _)%Z.
  - unfold bind. destruct (random_sample _ _ _ _ g) as [[e|sampled] g1];
      [discriminate|]. apply extend_all_grows.
  - apply extend_all_grows.
Qed.

Lemma visit_items_grows items :
  forall result (g : RNG) r g',
    visit_items _get_uris items result g = (inr r, g') -> incl result r.
Proof.
  induction items as [|[key value] rest IH]; intros result g r g' H.
  - simpl in H. inversion H; subst. apply incl_refl.
  - cbn [scanner.visit_items] in H.
    set (result1 := if String.eqb key "@odata.id" && negb (py_in value result)
                    then result ++ [value] else result) in H.
    assert (H1 : incl result result1).
    { unfold result1. destruct (_ && _);
        [apply incl_appl, incl_refl | apply incl_refl]. }
    clearbody result1. unfold bind at 1 in H.
    destruct ((if String.eqb key "Members"
               then extend_with_members _get_uris value result1
               else ret result1) g) as [[e|result2] g2] eqn:E2;
      [discriminate|].
    assert (H2 : incl result1 result2).
    { destruct (String.eqb key "Members").
      - now apply extend_with_members_grows in E2.
      - unfold ret in E2. inversion E2; subst. apply incl_refl. }
    unfold bind at 1 in H.
    destruct ((match value with
               | JDict _ => bind (_get_uris value)
                              (fun uris => ret (result2 ++ uris))
               | _ => ret result2
               end) g2) as [[e|result3] g3] eqn:E3; [discriminate|].
    assert (H3 : incl result2 result3).
    { destruct value; try (unfold ret in E3; inversion E3; subst;
                           apply incl_refl).
      unfold bind, ret in E3.
      destruct (_get_uris (JDict d) g2) as [[e|u] g4]; [discriminate|].
      inversion E3; subst. apply incl_appl, incl_refl. }
    apply IH in H.
    eapply incl_tran; [exact H1|]. eapply incl_tran; [exact H2|].
    eapply incl_tran; [exact H3 | exact H].
Qed.

Lemma select_all {A} (l : list A) : select l (seq 0 (List.length l)) = l.
Proof.
  unfold select.
  assert (H : forall pre, flat_map (fun i => match nth_error (pre ++ l) i with
                                             | Some x => [x]
                                             | None => []
                                             end)
                            (seq (List.length pre) (List.length l)) = l).
  { induction l as [|x l IH]; intros pre; [reflexivity|].
    cbn [List.length seq flat_map].
    rewrite nth_error_app2 by lia. rewrite Nat.sub_diag. cbn [nth_error app].
    f_equal. specialize (IH (pre ++ [x])).
    rewrite length_app, <- app_assoc in IH. cbn [List.length app] in IH.
    rewrite Nat.add_1_r in IH. exact IH. }
  exact (H []).
Qed.

Local Abbreviation taken := (taken sample_positions _max_collection).

Lemma extend_with_members_taken members result (g : RNG) r g' :
  extend_with_members _get_uris (JList members) result g = (inr r, g') ->
  exists positions,
    taken members positions /\
    forall e, In e (select members positions) ->
      exists g1 us g2, _get_uris e g1 = (inr us, g2) /\ incl us r.
Proof.
  intros H.
  destruct (@members_sampled RNG sample_positions _max_collection
              sample_contract width_not_negative members)
    as [_ [Hwide Hall]].
  destruct (Z.ltb_spec _max_collection (Z.of_nat (List.length members)))
    as [Hlt|Hle].
  - destruct (Hwide Hlt result g)
      as [positions [ga [E [Hnd [Hin [Hlen [Hleft Heq]]]]]]].
    rewrite Heq in H. exists positions. split.
    + unfold width_samples.taken. split; [|lia]. intros _. split; [eauto|].
      split; [assumption|]. split; [assumption|].
      split; [|assumption].
      rewrite select_length in Hlen by assumption. exact Hlen.
    + intros e He. eapply extend_all_gives; eauto.
  - rewrite (Hall Hle result g) in H.
    exists (seq 0 (List.length members)). split.
    + unfold width_samples.taken. split; [lia | reflexivity].
    + rewrite select_all. intros e He. eapply extend_all_gives; eauto.
Qed.

Lemma visit_items_taken items members :
  In ("Members", JList members) items ->
  forall result (g : RNG) r g',
    visit_items _get_uris items result g = (inr r, g') ->
    exists positions,
      taken members positions /\
      forall e, In e (select members positions) ->
        exists g1 us g2, _get_uris e g1 = (inr us, g2) /\ incl us r.
Proof.
  induction items as [|[key value] rest IH]; intros Hin result g r g' H;
    [destruct Hin|].
  cbn [scanner.visit_items] in H.
  set (result1 := if String.eqb key "@odata.id" && negb (py_in value result)
                  then result ++ [value] else result) in H.
  clearbody result1. unfold bind at 1 in H.
  destruct ((if String.eqb key "Members"
             then extend_with_members _get_uris value result1
             else ret result1) g) as [[e|result2] g2] eqn:E2;
    [discriminate|].
  unfold bind at 1 in H.
  destruct ((match value with
             | JDict _ => bind (_get_uris value)
                            (fun uris => ret (result2 ++ uris))
             | _ => ret result2
             end) g2) as [[e|result3] g3] eqn:E3; [discriminate|].
  destruct Hin as [Heq|Hin].
  - inversion Heq; subst. cbn [String.eqb Ascii.eqb Bool.eqb] in E2.
    apply extend_with_members_taken in E2.
    destruct E2 as [positions [Htaken Hgives]].
    exists positions. split; [exact Htaken|].
    intros e He. destruct (Hgives e He) as [g1 [us [ga [Hus Hincl]]]].
    exists g1, us, ga. split; [exact Hus|].
    unfold ret in E3. inversion E3; subst.
    apply visit_items_grows in H. eapply incl_tran; eassumption.
  - eapply IH; eauto.
Qed.

(** A call for a URI that is new and not left out, the budget not being
    reached, marks the URI. *)
Lemma scan_models_marks fuel (s : Scanner RNG) ep parent s' o :
  (Z.of_nat (List.length (_redfish s)) < _max_models)%Z ->
  ~ In ep (_scanned_uris s) ->
  excluded ep = false ->
  scan_models fuel s (JStr ep) parent = Some (s', o) ->
  In ep (_scanned_uris s').
Proof.
  intros Hlt Hnew Hex H. destruct fuel as [|fuel]; [discriminate|].
  rewrite scan_models_frame in H by assumption.
  assert (Hm : In ep (_scanned_uris (mark_scanned ep s)))
    by (simpl; apply in_or_app; right; now left).
  unfold scan_body in H. revert H Hm. generalize (mark_scanned ep s).
  intros s1 H Hm.
  destruct (_get_json ep) as [e|data_].
  { simpl in H. inversion H; subst. exact Hm. }
  destruct (_get_model_name data_) as [e|name_].
  { simpl in H. inversion H; subst. exact Hm. }
  set (model := match registrable parent name_ with
                | Some n => Some (mkRedfishData n data_ ep parent)
                | None => None
                end) in *.
  set (s2 := match model with Some m => register m s1 | None => s1 end) in *.
  assert (H2 : In ep (_scanned_uris s2))
    by (unfold s2; destruct model; exact Hm).
  clearbody s2 model.
  destruct (_get_uris data_ (random_state s2)) as [[e|uris] g].
  { simpl in H. inversion H; subst. exact H2. }
  destruct (scan_uris (fun self' uri => scanner.scan_models sample_positions
                         _max_models _max_collection _get_json fuel self' uri
                         model)
              (set_random_state g s2) uris) as [[s3 o3]|] eqn:E;
    [|discriminate].
  assert (H3 : In ep (_scanned_uris s3)).
  { apply (@scan_uris_extends _ _get_json) in E.
    - destruct E as [us ps ns Hs _ _ _ _ _ _ _ _]. rewrite Hs.
      apply in_or_app. now left.
    - intros ? ? ? ? Hc. cbv beta in Hc. eapply scan_models_extends; eauto. }
  destruct o3; simpl in H; inversion H; subst; exact H3.
Qed.

Lemma extends_more (s s' : Scanner RNG) :
  extends _get_json s s' ->
  incl (_scanned_uris s) (_scanned_uris s') /\
  List.length (_redfish s) <= List.length (_redfish s').
Proof.
  intros [us ps ns Hs _ Hr _ _ _ _ _ _]. rewrite Hs, Hr, length_app.
  split; [apply incl_appl, incl_refl | lia].
Qed.

(** The loop over the URIs scans every one of them that is not left out,
    when they are all strs and the budget is not reached at the end. *)
Lemma scan_uris_follows fuel model uris :
  forall (s : Scanner RNG) s' o,
    scan_uris (fun self' uri => scan_models fuel self' uri model) s uris
    = Some (s', o) ->
    Forall (fun u => exists x, u = JStr x) uris ->
    (Z.of_nat (List.length (_redfish s')) < _max_models)%Z ->
    o = Returned /\
    forall u, In (JStr u) uris -> excluded u = false ->
              In u (_scanned_uris s').
Proof.
  induction uris as [|u0 rest IH]; intros s s' o H Hstr Hlt.
  - simpl in H. inversion H; subst. split; [reflexivity|]. intros u [].
  - inversion Hstr as [|? ? [x ->] Hrest]; subst.
    cbn [scan_uris] in H.
    destruct (in_strs (JStr x) (_scanned_uris s)) eqn:Ein.
    + destruct (IH _ _ _ H Hrest Hlt) as [Ho Hall].
      split; [exact Ho|]. intros u [Hu|Hu] Hex; [|now apply Hall].
      inversion Hu; subst. apply in_strs_In in Ein.
      apply (@scan_uris_extends _ _get_json) in H.
      * apply extends_more in H. now apply (proj1 H).
      * intros ? ? ? ? Hc. cbv beta in Hc. eapply scan_models_extends; eauto.
    + destruct (scan_models fuel s (JStr x) model) as [[s1 [|e]]|] eqn:E;
        try discriminate.
      * destruct (IH _ _ _ H Hrest Hlt) as [Ho Hall].
        split; [exact Ho|]. intros u [Hu|Hu] Hex; [|now apply Hall].
        inversion Hu; subst.
        assert (Hext : extends _get_json s1 s').
        { apply (@scan_uris_extends _ _get_json) in H; [exact H|].
          intros ? ? ? ? Hc. cbv beta in Hc.
          eapply scan_models_extends; eauto. }
        apply extends_more in Hext. apply (proj1 Hext).
        eapply scan_models_marks; [| |exact Hex|exact E].
        -- pose proof E as H1. apply scan_models_extends in H1.
           apply extends_more in H1. lia.
        -- intros Hin. apply in_strs_In in Hin. congruence.
      * apply scan_models_raised in E. destruct E as [Hne _].
        now destruct (Hne x).
Qed.


End Followed.

End width_facts.

Module width_claims.

Import PyStr Json scanner scanner_facts scanner_claims targets width_samples.



End width_claims.

(** ** The collapse of the collections, on examples *)

Module collapse_claims.

Import PyStr parser parser_facts drafts more_samples.

(** C4 at the device: the collection of drives comes out with the
    Collection type as its base class and without the fields of a
    collection, and the field of the slot that names the model of the
    device bears the name that this model is given. *)
Lemma collection_is_collapsed_witness :
  exists models,
    _get_data_models pcie_node None None render_type_hint slot_drafts
    = inr models /\
    (exists m',
        In m' models /\
        base_classes m' = [_get_data_type COLLECTION None false] /\
        Forall (fun f => ~ In (field_name f) collection_fields_to_remove)
          (fields m')) /\
    (exists m',
        In m' models /\
        In (field "device" (reference_to "PCIeDevice")) (fields m')).
Proof.
  pose proof (parser_more.collection_is_collapsed pcie_node None None
                render_type_hint slot_drafts) as H.
  cbv zeta in H. destruct H as [models [Heq [Hcol [Hfield _]]]].
  exists models. split; [exact Heq|]. split.
  - destruct (Hcol drives_draft) as [m' [Hin [Hb [_ Hclean]]]].
    + simpl. auto.
    + reflexivity.
    + exists m'. auto.
  - destruct (Hfield slot_draft (field "device" (reference_to "PcieDevice")))
      as [m' [Hin Hf]].
    + simpl. auto.
    + simpl. auto.
    + vm_compute. discriminate.
    + vm_compute. discriminate.
    + simpl. intuition discriminate.
    + intros t [<-|[<-|[<-|[]]]] [Hc|Hc]; vm_compute in Hc; discriminate Hc.
    + exists m'. split; [exact Hin|]. exact Hf.
Defined.

(** C4, the claim as stated fails: the field [drives] of the chassis
    names the model of the collection of drives, and after
    [_get_data_models] it still does; no field of the chassis has the
    Collection type. *)
Lemma reference_to_collection_is_kept :
  category drives_draft = COLLECTION /\
  name drives_draft = "Drives" /\
  In (field "drives" (reference_to "Drives")) (fields chassis_draft) /\
  _get_data_models chassis_node None (Some "Main") render_type_hint
    chassis_drafts = inr chassis_models /\
  exists m',
    In m' chassis_models /\
    name m' = "Chassis" /\
    map (fun f => (field_name f, render_type_hint f)) (fields m')
    = [("_url", "Optional[str]"); ("drives", "Drives");
       ("serial_number", "str")] /\
    In (field "drives" (reference_to "Drives")) (fields m') /\
    Forall (fun f => data_type f <> _get_data_type COLLECTION None false)
      (fields m').
Proof.
  split; [reflexivity|]. split; [reflexivity|].
  split; [simpl; auto|]. split; [vm_compute; reflexivity|].
  eexists. split; [right; left; reflexivity|].
  split; [reflexivity|]. split; [reflexivity|].
  split; [simpl; auto|].
  repeat constructor; discriminate.
Qed.

End collapse_claims.
